(** * agent-memories: memory lifecycle and retrieval, verified against [src/index.ts]

    The development has three layers.

    - [JS]: the part of the JavaScript runtime the worker relies on
      (numbers and binary64, [parseInt], [Math.min], [toFixed],
      [JSON.stringify], [JSON.parse], [Date.prototype.toISOString]).
    - [Effects]: the worker's external calls (R2 bucket, AI Search, [fetch],
      [crypto.randomUUID], the clock) as a free monad, with an interpreter
      that records the trace of calls, and a sequential reference world.
    - [Worker], [Raw], [Render] and [App]: the functions, route handlers,
      middleware and tool catalogue of [src/index.ts].  The event stream of
      [GET /sse] is not modelled.

    Strings are byte strings holding the UTF-8 encoding of the JavaScript
    string.  Numbers are decimals [m * 10^e], the infinities and [NaN]:
    every finite double is such a decimal, and a Number of the runtime is
    modelled by its decimal.  [parseInt] returns the decimal of a double.
    [JSON.parse] keeps the decimal of the text as written; printing and
    arithmetic round a decimal to binary64 first, so what is read from such
    a number is what the runtime reads from the double.  The sign of zero is
    not modelled. *)

From Stdlib Require Import ZArith Lia Ascii String List Bool.
From stdpp Require Import base option list gmap strings pretty.

#[local] Set Warnings "-register-all".

Local Open Scope Z_scope.

#[local] Arguments String.append : simpl nomatch.

(* ===================================================================== *)
(** ** The JavaScript runtime *)
(* ===================================================================== *)

Module JS.

(** *** Characters and strings *)

Definition code (c : ascii) : Z := Z.of_N (N_of_ascii c).
Definition chr (z : Z) : ascii := ascii_of_N (Z.to_N z).

Definition dquote : ascii := Eval cbv in chr 34.

Definition is_digit (c : ascii) : bool := (48 <=? code c) && (code c <=? 57).
Definition digit_val (c : ascii) : Z := code c - 48.

(** [Array.prototype.join] on an array of strings. *)
Fixpoint join (sep : string) (l : list string) : string :=
  match l with
  | [] => EmptyString
  | [x] => x
  | x :: rest => x +:+ sep +:+ join sep rest
  end.

(** [s.startsWith(p)], returning what follows the prefix. *)
Fixpoint strip_prefix (p s : string) : option string :=
  match p with
  | EmptyString => Some s
  | String a p' =>
      match s with
      | String b s' => if Ascii.eqb a b then strip_prefix p' s' else None
      | EmptyString => None
      end
  end.

Fixpoint span_digits (s : string) : string * string :=
  match s with
  | String c rest =>
      if is_digit c
      then let '(d, r) := span_digits rest in (String c d, r)
      else (EmptyString, s)
  | EmptyString => (EmptyString, EmptyString)
  end.

Fixpoint digits_value (acc : Z) (s : string) : Z :=
  match s with
  | String c rest => digits_value (10 * acc + digit_val c) rest
  | EmptyString => acc
  end.

Fixpoint repeat_char (c : ascii) (n : nat) : string :=
  match n with
  | O => EmptyString
  | S n' => String c (repeat_char c n')
  end.

Fixpoint string_rev_onto (acc s : string) : string :=
  match s with
  | String c rest => string_rev_onto (String c acc) rest
  | EmptyString => acc
  end.

Fixpoint take_chars (n : nat) (s : string) : string :=
  match n, s with
  | S n', String c rest => String c (take_chars n' rest)
  | _, _ => EmptyString
  end.

Fixpoint drop_chars (n : nat) (s : string) : string :=
  match n, s with
  | S n', String _ rest => drop_chars n' rest
  | _, _ => s
  end.

(** *** Numbers *)

Inductive number : Type :=
  | NaN
  | Fin (m e : Z)            (* the decimal  m * 10^e *)
  | Inf (negative : bool).   (* [Infinity] and [-Infinity] *)

Definition of_Z (z : Z) : number := Fin z 0.

(** [a < b]: finite numbers are compared after scaling both to the smaller
    exponent; [-Infinity] is below and [Infinity] above every finite number;
    nothing compares with [NaN]. *)
Definition num_ltb (a b : number) : bool :=
  match a, b with
  | Fin m1 e1, Fin m2 e2 =>
      let e := Z.min e1 e2 in
      m1 * 10 ^ (e1 - e) <? m2 * 10 ^ (e2 - e)
  | Inf true, Fin _ _ | Inf true, Inf false | Fin _ _, Inf false => true
  | _, _ => false
  end.


(** [Math.min(a, b)]: [NaN] when either argument is [NaN]. *)
Definition Math_min (a b : number) : number :=
  match a, b with
  | NaN, _ | _, NaN => NaN
  | _, _ => if num_ltb b a then b else a
  end.

(** [ToBoolean] on a number: [0] and [NaN] are falsy. *)
Definition num_truthy (n : number) : bool :=
  match n with
  | NaN => false
  | Fin m _ => negb (m =? 0)
  | Inf _ => true
  end.

(** [ToBoolean] on a string: only the empty string is falsy. *)
Definition str_truthy (s : string) : bool :=
  match s with
  | EmptyString => false
  | String _ _ => true
  end.

(** White space skipped by [parseInt]: the class [StrWhiteSpaceChar], in the
    UTF-8 encoding of the string.  One byte: TAB, LF, VT, FF, CR, SP.  Two
    bytes: U+00A0.  Three bytes: U+1680, U+2000 to U+200A, U+2028, U+2029,
    U+202F, U+205F, U+3000 and U+FEFF. *)
Definition is_str_space (c : ascii) : bool :=
  ((9 <=? code c) && (code c <=? 13)) || (code c =? 32).

Definition is_str_space2 (c1 c2 : ascii) : bool :=
  (code c1 =? 194) && (code c2 =? 160).

Definition is_str_space3 (c1 c2 c3 : ascii) : bool :=
  let b1 := code c1 in
  let b2 := code c2 in
  let b3 := code c3 in
  ((b1 =? 225) && (b2 =? 154) && (b3 =? 128)) ||
  ((b1 =? 226) && (b2 =? 128) &&
   (((128 <=? b3) && (b3 <=? 138)) || (b3 =? 168) || (b3 =? 169) || (b3 =? 175))) ||
  ((b1 =? 226) && (b2 =? 129) && (b3 =? 159)) ||
  ((b1 =? 227) && (b2 =? 128) && (b3 =? 128)) ||
  ((b1 =? 239) && (b2 =? 187) && (b3 =? 191)).

Fixpoint trim_start (s : string) : string :=
  match s with
  | String c1 rest =>
      if is_str_space c1 then trim_start rest
      else
        match rest with
        | String c2 rest2 =>
            if is_str_space2 c1 c2 then trim_start rest2
            else
              match rest2 with
              | String c3 rest3 =>
                  if is_str_space3 c1 c2 c3 then trim_start rest3 else s
              | EmptyString => s
              end
        | EmptyString => s
        end
  | EmptyString => EmptyString
  end.

(** The Number value of a mathematical integer: the integer itself below
    [2^53], else the nearest value with a 53-bit significand (ties go to the
    even significand), and an infinity from [2^1024] on.  (The model does not
    tell [-0] from [0]; they are equal under [===] and serialize alike.) *)
Definition Number_of_integer (z : Z) : number :=
  let a := Z.abs z in
  if a <? 2 ^ 53 then Fin z 0
  else
    let k := Z.log2 a - 52 in
    let q := a / 2 ^ k in
    let r := a mod 2 ^ k in
    let half := 2 ^ (k - 1) in
    let q' := if (half <? r) || ((r =? half) && Z.odd q) then q + 1 else q in
    let v := q' * 2 ^ k in
    if 2 ^ 1024 <=? v then Inf (z <? 0)
    else Fin (if z <? 0 then - v else v) 0.

(** [parseInt(s, 10)]: leading white space, an optional sign, then the longest
    run of decimal digits, read as an integer and converted to a Number;
    [NaN] when that run is empty. *)
Definition parseInt10 (s : string) : number :=
  let s1 := trim_start s in
  let '(neg, s2) :=
    match s1 with
    | String c rest =>
        if Ascii.eqb c "-" then (true, rest)
        else if Ascii.eqb c "+" then (false, rest)
        else (false, s1)
    | EmptyString => (false, s1)
    end in
  let '(ds, _) := span_digits s2 in
  match ds with
  | EmptyString => NaN
  | _ => let v := digits_value 0 ds in Number_of_integer (if neg then - v else v)
  end.

(** *** binary64

    What the runtime computes from a Number ([Number::toString], a product,
    [toFixed]) is computed here from the double nearest to the decimal, which
    is the decimal itself when the [number] is one of the runtime. *)

(** A double: [m * 2^e] with [|m| < 2^53], written with [2^52 <= |m|] unless
    [e = -1074] (subnormal) and as [DFin 0 0] when zero, so that equal values
    are equal terms. *)
Inductive double : Type :=
  | DNaN
  | DInf (negative : bool)
  | DFin (m e : Z).

(** [n / d] rounded to the nearest integer, ties to the even one. *)
Definition round_half_even (n d : Z) : Z :=
  let q := n / d in
  let r := n mod d in
  if (d <? 2 * r) || ((2 * r =? d) && Z.odd q) then q + 1 else q.

(** The integer [e] with [2^e <= a / d < 2^(e+1)], for positive [a], [d]. *)
Definition floor_log2 (a d : Z) : Z :=
  let e := Z.log2 a - Z.log2 d in
  if (if 0 <=? e then a <? d * 2 ^ e else a * 2 ^ (- e) <? d) then e - 1 else e.

(** The double nearest to the rational [n / d] ([0 < d]): 53 significant
    bits, no exponent below [-1074], ties to the even significand, an
    infinity from [2^1024 - 2^970] on. *)
Definition round64 (n d : Z) : double :=
  if n =? 0 then DFin 0 0
  else
    let a := Z.abs n in
    let e := Z.max (floor_log2 a d - 52) (-1074) in
    let q := round_half_even (a * 2 ^ Z.max 0 (- e)) (d * 2 ^ Z.max 0 e) in
    let '(q, e) := if q =? 2 ^ 53 then (2 ^ 52, e + 1) else (q, e) in
    if q =? 0 then DFin 0 0
    else if 971 <? e then DInf (n <? 0)
    else DFin (if n <? 0 then - q else q) e.

(** The double nearest to a [number].  ([|m| * 10^e] lies between
    [10^(e+k-1)] and [10^(e+k)] when [m] has [k] digits; from [10^309] on it
    is beyond every double and below [10^-324] it is nearer to [0] than to
    any other, which spares the large powers.) *)
Definition to_double (x : number) : double :=
  match x with
  | NaN => DNaN
  | Inf negative => DInf negative
  | Fin m e =>
      let k := Z.of_nat (String.length (pretty (Z.abs m))) in
      if m =? 0 then DFin 0 0
      else if 309 <? e + k then DInf (m <? 0)
      else if e + k <? -323 then DFin 0 0
      else if 0 <=? e then round64 (m * 10 ^ e) 1
      else round64 m (10 ^ (- e))
  end.

(** [x * y]. *)
Definition double_mul (x y : double) : double :=
  match x, y with
  | DNaN, _ | _, DNaN => DNaN
  | DInf s, DInf t => DInf (xorb s t)
  | DInf s, DFin m _ | DFin m _, DInf s =>
      if m =? 0 then DNaN else DInf (xorb s (m <? 0))
  | DFin m1 e1, DFin m2 e2 =>
      let e := e1 + e2 in
      if 0 <=? e then round64 (m1 * m2 * 2 ^ e) 1 else round64 (m1 * m2) (2 ^ (- e))
  end.

(** [0 < x]. *)
Definition double_positive (x : double) : bool :=
  match x with
  | DFin m _ => 0 <? m
  | DInf negative => negb negative
  | DNaN => false
  end.

Definition double_eqb (x y : double) : bool :=
  match x, y with
  | DFin m1 e1, DFin m2 e2 => (m1 =? m2) && (e1 =? e2)
  | DInf s, DInf t => Bool.eqb s t
  | _, _ => false
  end.

(** The integer [n] with [10^(n-1) <= a / d < 10^n], for positive [a], [d]. *)
Definition decimal_exponent (a d : Z) : Z :=
  let digits z := Z.of_nat (String.length (pretty z)) in
  let n := if d <=? a then digits (a / d) else 1 - digits (d / a) in
  let reaches j := if 0 <=? j then 10 ^ j * d <=? a else d <=? a * 10 ^ (- j) in
  if reaches n then n + 1 else if reaches (n - 1) then n else n - 1.

(** The digits [Number::toString] prints for the positive double
    [m * 2^e]: the fewest digits [k] such that some [s * 10^(n-k)] has that
    double as its nearest; of two such [s], the one nearer to the double,
    then the even one.  Tried for [k = 1, 2, ...]; seventeen digits always do. *)
Fixpoint shortest_from (fuel : nat) (k m e a d n : Z) : Z * Z :=
  match fuel with
  | O => if 0 <=? e then (m * 2 ^ e, 0) else (m * 5 ^ (- e), e)
  | S fuel' =>
      let ex := n - k in
      let lo := if 0 <=? ex then a / (d * 10 ^ ex) else a * 10 ^ (- ex) / d in
      let hi := lo + 1 in
      let reads_back s := double_eqb (to_double (Fin s ex)) (DFin m e) in
      let lo_nearer :=
        if 0 <=? ex then 2 * a <? (2 * lo + 1) * 10 ^ ex * d
        else 2 * a * 10 ^ (- ex) <? (2 * lo + 1) * d in
      let hi_nearer :=
        if 0 <=? ex then (2 * lo + 1) * 10 ^ ex * d <? 2 * a
        else (2 * lo + 1) * d <? 2 * a * 10 ^ (- ex) in
      if reads_back lo && reads_back hi then
        if lo_nearer then (lo, ex)
        else if hi_nearer then (hi, ex)
        else if Z.even lo then (lo, ex) else (hi, ex)
      else if reads_back lo then (lo, ex)
      else if reads_back hi then (hi, ex)
      else shortest_from fuel' (k + 1) m e a d n
  end.

Definition shortest_decimal (m e : Z) : Z * Z :=
  let a := if 0 <=? e then m * 2 ^ e else m in
  let d := if 0 <=? e then 1 else 2 ^ (- e) in
  shortest_from 17 1 m e a d (decimal_exponent a d).

Definition strip_trailing_zeros (ds : string) : string * nat :=
  let fix go (r : string) (z : nat) : string * nat :=
    match r with
    | String c rest =>
        if Ascii.eqb c "0" then go rest (S z)
        else (string_rev_onto EmptyString r, z)
    | EmptyString => (EmptyString, z)
    end in
  go (string_rev_onto EmptyString ds) O.

(** [Number::toString] (radix 10) of the non-zero decimal [m * 10^e], from
    its digits [s], their count [k] and the position [n] of the decimal
    point ([|m * 10^e| = s * 10^(n-k)], [s] without trailing zeros). *)
Definition decimal_toString (m e : Z) : string :=
  let sign := if m <? 0 then "-" else EmptyString in
  let '(ds, z) := strip_trailing_zeros (pretty (Z.abs m)) in
  let k := Z.of_nat (String.length ds) in
  let n := k + (e + Z.of_nat z) in
  sign +:+
  (if (k <=? n) && (n <=? 21) then
     ds +:+ repeat_char "0" (Z.to_nat (n - k))
   else if (0 <? n) && (n <=? 21) then
     take_chars (Z.to_nat n) ds +:+ "." +:+ drop_chars (Z.to_nat n) ds
   else if (-6 <? n) && (n <=? 0) then
     "0." +:+ repeat_char "0" (Z.to_nat (- n)) +:+ ds
   else
     let ex := (if n - 1 <? 0 then "-" else "+") +:+ pretty (Z.abs (n - 1)) in
     if k =? 1 then ds +:+ "e" +:+ ex
     else take_chars 1 ds +:+ "." +:+ drop_chars 1 ds +:+ "e" +:+ ex).

(** [Number::toString] of a double. *)
Definition double_toString (x : double) : string :=
  match x with
  | DNaN => "NaN"
  | DInf negative => if negative then "-Infinity" else "Infinity"
  | DFin m e =>
      if m =? 0 then "0"
      else
        let '(s, ex) := shortest_decimal (Z.abs m) e in
        decimal_toString (if m <? 0 then - s else s) ex
  end.

Definition Number_toString (x : number) : string := double_toString (to_double x).

(** [x.toFixed(1)]: [Number::toString] for [NaN], the infinities and from
    [10^21] on; else the integer [n] nearest to [10 * |x|] (the larger of
    two), printed with one digit after the point. *)
Definition toFixed1 (x : double) : string :=
  match x with
  | DNaN | DInf _ => double_toString x
  | DFin m e =>
      let sign := if m <? 0 then "-" else EmptyString in
      let a := Z.abs m in
      if (0 <=? e) && (10 ^ 21 <=? a * 2 ^ e) then sign +:+ double_toString (DFin a e)
      else
        let n := if 0 <=? e then 10 * a * 2 ^ e
                 else (20 * a + 2 ^ (- e)) / 2 ^ (1 - e) in
        let ds := pretty n in
        let ds := if (String.length ds <=? 1)%nat then "0" +:+ ds else ds in
        let k := String.length ds in
        sign +:+ take_chars (k - 1) ds +:+ "." +:+ drop_chars (k - 1) ds
  end.

(** *** [StringToNumber] *)

(** White space at the end of a string, found from its last byte. *)
Fixpoint trim_start_reversed (r : string) : string :=
  match r with
  | String c1 rest =>
      if is_str_space c1 then trim_start_reversed rest
      else
        match rest with
        | String c2 rest2 =>
            if is_str_space2 c2 c1 then trim_start_reversed rest2
            else
              match rest2 with
              | String c3 rest3 =>
                  if is_str_space3 c3 c2 c1 then trim_start_reversed rest3 else r
              | EmptyString => r
              end
        | EmptyString => r
        end
  | EmptyString => EmptyString
  end.

Definition trim (s : string) : string :=
  string_rev_onto EmptyString
    (trim_start_reversed (string_rev_onto EmptyString (trim_start s))).

Definition digit_of (c : ascii) : option Z :=
  let b := code c in
  if (48 <=? b) && (b <=? 57) then Some (b - 48)
  else if (97 <=? b) && (b <=? 102) then Some (b - 87)
  else if (65 <=? b) && (b <=? 70) then Some (b - 55)
  else None.

(** The digits of [s] in the given radix; [None] when a character is no such
    digit. *)
Fixpoint radix_value (radix acc : Z) (s : string) : option Z :=
  match s with
  | EmptyString => Some acc
  | String c rest =>
      match digit_of c with
      | Some d => if d <? radix then radix_value radix (radix * acc + d) rest else None
      | None => None
      end
  end.

Definition NonDecimalIntegerLiteral (radix : Z) (digits : string) : double :=
  match digits with
  | EmptyString => DNaN
  | _ =>
      match radix_value radix 0 digits with
      | Some v => round64 v 1
      | None => DNaN
      end
  end.

(** [ExponentPart] or nothing, up to the end of the string. *)
Definition exponent_part (s : string) : option Z :=
  match s with
  | EmptyString => Some 0
  | String c rest =>
      if Ascii.eqb c "e" || Ascii.eqb c "E" then
        let '(negative, ds) :=
          match rest with
          | String d rest' =>
              if Ascii.eqb d "-" then (true, rest')
              else if Ascii.eqb d "+" then (false, rest')
              else (false, rest)
          | EmptyString => (false, rest)
          end in
        match span_digits ds with
        | (String _ _ as digits, EmptyString) =>
            Some (if negative then - digits_value 0 digits else digits_value 0 digits)
        | _ => None
        end
      else None
  end.

(** [StrDecimalLiteral]: a sign, then [Infinity] or digits with an optional
    fraction and exponent. *)
Definition StrDecimalLiteral (s : string) : double :=
  let '(negative, s1) :=
    match s with
    | String c rest =>
        if Ascii.eqb c "-" then (true, rest)
        else if Ascii.eqb c "+" then (false, rest)
        else (false, s)
    | EmptyString => (false, s)
    end in
  if String.eqb s1 "Infinity" then DInf negative
  else
    let '(int_part, r1) := span_digits s1 in
    let '(frac_part, r2) :=
      match r1 with
      | String c rest => if Ascii.eqb c "." then span_digits rest else (EmptyString, r1)
      | EmptyString => (EmptyString, r1)
      end in
    match int_part +:+ frac_part, exponent_part r2 with
    | String _ _ as digits, Some ex =>
        let v := digits_value 0 digits in
        to_double (Fin (if negative then - v else v)
                       (ex - Z.of_nat (String.length frac_part)))
    | _, _ => DNaN
    end.

(** [StringToNumber]: white space at both ends is dropped; nothing is [0];
    [0x], [0o] and [0b] literals carry no sign; anything outside the grammar
    is [NaN]. *)
Definition StringToNumber (s : string) : double :=
  match trim s with
  | EmptyString => DFin 0 0
  | String c1 (String c2 digits) as t =>
      if Ascii.eqb c1 "0" && (Ascii.eqb c2 "x" || Ascii.eqb c2 "X")
      then NonDecimalIntegerLiteral 16 digits
      else if Ascii.eqb c1 "0" && (Ascii.eqb c2 "o" || Ascii.eqb c2 "O")
      then NonDecimalIntegerLiteral 8 digits
      else if Ascii.eqb c1 "0" && (Ascii.eqb c2 "b" || Ascii.eqb c2 "B")
      then NonDecimalIntegerLiteral 2 digits
      else StrDecimalLiteral t
  | t => StrDecimalLiteral t
  end.

(** *** JSON values *)

Inductive value : Type :=
  | VNull
  | VBool (b : bool)
  | VNum (n : number)
  | VStr (s : string)
  | VArr (elems : list value)
  | VObj (props : list (string * value)).

(** Own properties of an object, in insertion order. *)
Fixpoint obj_get (props : list (string * value)) (k : string) : option value :=
  match props with
  | [] => None
  | (k', v) :: rest => if String.eqb k' k then Some v else obj_get rest k
  end.

(** [o[k] = v]: an existing property keeps its position, a new one is added
    last.  (The runtime lists integer-like keys first; that order is never
    observed by the worker and is not modelled.) *)
Fixpoint obj_set (props : list (string * value)) (k : string) (v : value)
  : list (string * value) :=
  match props with
  | [] => [(k, v)]
  | (k', v') :: rest =>
      if String.eqb k' k then (k', v) :: rest else (k', v') :: obj_set rest k v
  end.

Definition obj_of_members (ms : list (string * value)) : list (string * value) :=
  fold_left (fun o kv => obj_set o (fst kv) (snd kv)) ms [].

(** *** [JSON.stringify] *)

Definition hex_digit (d : Z) : ascii :=
  if d <? 10 then chr (48 + d) else chr (87 + d).

(** One character of [QuoteJSONString]. *)
Definition quote_char (c : ascii) : string :=
  let n := code c in
  if n =? 34 then String "\" (String dquote EmptyString)
  else if n =? 92 then "\\"
  else if n =? 8 then "\b"
  else if n =? 12 then "\f"
  else if n =? 10 then "\n"
  else if n =? 13 then "\r"
  else if n =? 9 then "\t"
  else if n <? 32 then
    String "\" (String "u" (String "0" (String "0"
      (String (hex_digit (n / 16)) (String (hex_digit (n mod 16)) EmptyString)))))
  else String c EmptyString.

Fixpoint quote_chars (s : string) : string :=
  match s with
  | String c rest => quote_char c +:+ quote_chars rest
  | EmptyString => EmptyString
  end.

Definition QuoteJSONString (s : string) : string :=
  String dquote (quote_chars s +:+ String dquote EmptyString).

Definition newline : string := String (chr 10) EmptyString.

(** [SerializeJSONProperty] with a gap: [indent] is the current indentation. *)
Fixpoint serialize (gap indent : string) (v : value) : string :=
  match v with
  | VNull => "null"
  | VBool true => "true"
  | VBool false => "false"
  | VNum n =>
      match to_double n with
      | DFin _ _ => Number_toString n
      | _ => "null"
      end
  | VStr s => QuoteJSONString s
  | VArr elems =>
      let inner := indent +:+ gap in
      match elems with
      | [] => "[]"
      | _ =>
          let parts := map (serialize gap inner) elems in
          match gap with
          | EmptyString => "[" +:+ join "," parts +:+ "]"
          | _ =>
              "[" +:+ newline +:+ inner +:+
              join ("," +:+ newline +:+ inner) parts +:+
              newline +:+ indent +:+ "]"
          end
      end
  | VObj props =>
      let inner := indent +:+ gap in
      match props with
      | [] => "{}"
      | _ =>
          let colon := match gap with EmptyString => ":" | _ => ": " end in
          let parts :=
            map (fun kv => QuoteJSONString (fst kv) +:+ colon +:+
                           serialize gap inner (snd kv)) props in
          match gap with
          | EmptyString => "{" +:+ join "," parts +:+ "}"
          | _ =>
              "{" +:+ newline +:+ inner +:+
              join ("," +:+ newline +:+ inner) parts +:+
              newline +:+ indent +:+ "}"
          end
      end
  end.

(** [JSON.stringify(v, null, space)] with a numeric [space] (at most 10). *)
Definition JSON_stringify (v : value) (space : nat) : string :=
  serialize (repeat_char " " (Nat.min space 10)) EmptyString v.

(** *** [JSON.parse] *)

Definition is_json_ws (c : ascii) : bool :=
  (code c =? 32) || (code c =? 9) || (code c =? 10) || (code c =? 13).

Fixpoint skip_ws (s : string) : string :=
  match s with
  | String c rest => if is_json_ws c then skip_ws rest else s
  | EmptyString => EmptyString
  end.

Definition hex_val (c : ascii) : option Z :=
  let n := code c in
  if (48 <=? n) && (n <=? 57) then Some (n - 48)
  else if (65 <=? n) && (n <=? 70) then Some (n - 55)
  else if (97 <=? n) && (n <=? 102) then Some (n - 87)
  else None.

Definition hex4 (a b c d : ascii) : option Z :=
  match hex_val a, hex_val b, hex_val c, hex_val d with
  | Some x, Some y, Some z, Some w => Some (((x * 16 + y) * 16 + z) * 16 + w)
  | _, _, _, _ => None
  end.

(** UTF-8 bytes of a code point (surrogates get the three-byte form). *)
Definition utf8 (cp : Z) : string :=
  if cp <? 128 then String (chr cp) EmptyString
  else if cp <? 2048 then
    String (chr (192 + cp / 64)) (String (chr (128 + cp mod 64)) EmptyString)
  else if cp <? 65536 then
    String (chr (224 + cp / 4096))
      (String (chr (128 + (cp / 64) mod 64))
         (String (chr (128 + cp mod 64)) EmptyString))
  else
    String (chr (240 + cp / 262144))
      (String (chr (128 + (cp / 4096) mod 64))
         (String (chr (128 + (cp / 64) mod 64))
            (String (chr (128 + cp mod 64)) EmptyString))).

Definition is_high_surrogate (u : Z) : bool := (55296 <=? u) && (u <=? 56319).
Definition is_low_surrogate (u : Z) : bool := (56320 <=? u) && (u <=? 57343).

Definition flush (hi : option Z) : string :=
  match hi with
  | Some h => utf8 h
  | None => EmptyString
  end.

Definition simple_escape (c : ascii) : option ascii :=
  let n := code c in
  if n =? 34 then Some (chr 34)          (* quote *)
  else if n =? 92 then Some (chr 92)     (* backslash *)
  else if n =? 47 then Some (chr 47)     (* slash *)
  else if n =? 98 then Some (chr 8)      (* b: backspace *)
  else if n =? 102 then Some (chr 12)    (* f: form feed *)
  else if n =? 110 then Some (chr 10)    (* n: line feed *)
  else if n =? 114 then Some (chr 13)    (* r: carriage return *)
  else if n =? 116 then Some (chr 9)     (* t: tab *)
  else None.

Definition prepend (p : string) (r : option (string * string))
  : option (string * string) :=
  match r with
  | Some (s, rest) => Some (p +:+ s, rest)
  | None => None
  end.

(** The characters of a string literal after its opening quote, up to and
    including the closing quote.  [hi] is a pending high surrogate from a
    [\uXXXX] escape, waiting for its low half. *)
Fixpoint parse_chars (hi : option Z) (s : string) : option (string * string) :=
  match s with
  | EmptyString => None
  | String c rest =>
      if code c =? 34 then Some (flush hi, rest)
      else if code c =? 92 then
        match rest with
        | String e rest1 =>
            if code e =? 117 then
              match rest1 with
              | String h1 (String h2 (String h3 (String h4 rest2))) =>
                  match hex4 h1 h2 h3 h4 with
                  | Some u =>
                      match hi with
                      | Some h =>
                          if is_low_surrogate u then
                            prepend
                              (utf8 (65536 + (h - 55296) * 1024 + (u - 56320)))
                              (parse_chars None rest2)
                          else if is_high_surrogate u then
                            prepend (utf8 h) (parse_chars (Some u) rest2)
                          else
                            prepend (utf8 h +:+ utf8 u) (parse_chars None rest2)
                      | None =>
                          if is_high_surrogate u then parse_chars (Some u) rest2
                          else prepend (utf8 u) (parse_chars None rest2)
                      end
                  | None => None
                  end
              | _ => None
              end
            else
              match simple_escape e with
              | Some ch =>
                  prepend (flush hi +:+ String ch EmptyString)
                          (parse_chars None rest1)
              | None => None
              end
        | EmptyString => None
        end
      else if code c <? 32 then None
      else prepend (flush hi +:+ String c EmptyString) (parse_chars None rest)
  end.

(** A JSON number: an optional minus sign; an integer part that is 0 or
    starts with a non-zero digit; an optional fraction (a dot and at least one
    digit); an optional exponent (e or E, an optional sign, at least one
    digit). *)
Definition parse_number (s : string) : option (number * string) :=
  let '(neg, s1) :=
    match s with
    | String c rest => if Ascii.eqb c "-" then (true, rest) else (false, s)
    | EmptyString => (false, s)
    end in
  let '(ip, s2) := span_digits s1 in
  let int_ok :=
    match ip with
    | EmptyString => false
    | String c EmptyString => true
    | String c _ => negb (Ascii.eqb c "0")
    end in
  if negb int_ok then None
  else
    let frac :=
      match s2 with
      | String c rest =>
          if Ascii.eqb c "." then
            let '(fp, r) := span_digits rest in
            match fp with
            | EmptyString => None
            | _ => Some (fp, r)
            end
          else Some (EmptyString, s2)
      | EmptyString => Some (EmptyString, s2)
      end in
    match frac with
    | None => None
    | Some (fp, s3) =>
        let expo :=
          match s3 with
          | String c rest =>
              if Ascii.eqb c "e" || Ascii.eqb c "E" then
                let '(eneg, r1) :=
                  match rest with
                  | String sg r =>
                      if Ascii.eqb sg "-" then (true, r)
                      else if Ascii.eqb sg "+" then (false, r)
                      else (false, rest)
                  | EmptyString => (false, rest)
                  end in
                let '(ep, r2) := span_digits r1 in
                match ep with
                | EmptyString => None
                | _ =>
                    let v := digits_value 0 ep in
                    Some (if eneg then - v else v, r2)
                end
              else Some (0, s3)
          | EmptyString => Some (0, s3)
          end in
        match expo with
        | None => None
        | Some (ex, s4) =>
            let m := digits_value 0 (ip +:+ fp) in
            Some (Fin (if neg then - m else m)
                      (ex - Z.of_nat (String.length fp)), s4)
        end
    end.

Inductive parsed (A : Type) : Type :=
  | Parsed (a : A) (rest : string)
  | SyntaxError
  | OutOfFuel.
Arguments Parsed {A} a rest.
Arguments SyntaxError {A}.
Arguments OutOfFuel {A}.

Definition parsed_bind {A B} (p : parsed A) (f : A -> string -> parsed B)
  : parsed B :=
  match p with
  | Parsed a rest => f a rest
  | SyntaxError => SyntaxError
  | OutOfFuel => OutOfFuel
  end.

Definition keyword (kw : string) (v : value) (s : string) : parsed value :=
  match strip_prefix kw s with
  | Some rest => Parsed v rest
  | None => SyntaxError
  end.

Fixpoint parse_value (fuel : nat) (s : string) : parsed value :=
  match fuel with
  | O => OutOfFuel
  | S fuel' =>
      match skip_ws s with
      | EmptyString => SyntaxError
      | String c rest =>
          if code c =? 123 then                     (* { *)
            match skip_ws rest with
            | String c' rest' =>
                if code c' =? 125 then Parsed (VObj []) rest'
                else parsed_bind (parse_members fuel' rest)
                       (fun ms r => Parsed (VObj (obj_of_members ms)) r)
            | EmptyString => SyntaxError
            end
          else if code c =? 91 then                 (* [ *)
            match skip_ws rest with
            | String c' rest' =>
                if code c' =? 93 then Parsed (VArr []) rest'
                else parsed_bind (parse_elements fuel' rest)
                       (fun vs r => Parsed (VArr vs) r)
            | EmptyString => SyntaxError
            end
          else if code c =? 34 then                 (* string *)
            match parse_chars None rest with
            | Some (str, r) => Parsed (VStr str) r
            | None => SyntaxError
            end
          else if (code c =? 45) || is_digit c then (* number *)
            match parse_number (String c rest) with
            | Some (n, r) => Parsed (VNum n) r
            | None => SyntaxError
            end
          else if code c =? 116 then keyword "true" (VBool true) (String c rest)
          else if code c =? 102 then keyword "false" (VBool false) (String c rest)
          else if code c =? 110 then keyword "null" VNull (String c rest)
          else SyntaxError
      end
  end

with parse_elements (fuel : nat) (s : string) : parsed (list value) :=
  match fuel with
  | O => OutOfFuel
  | S fuel' =>
      parsed_bind (parse_value fuel' s) (fun v r =>
        match skip_ws r with
        | String c r' =>
            if code c =? 44 then                    (* , *)
              parsed_bind (parse_elements fuel' r')
                (fun vs r'' => Parsed (v :: vs) r'')
            else if code c =? 93 then Parsed [v] r' (* ] *)
            else SyntaxError
        | EmptyString => SyntaxError
        end)
  end

with parse_members (fuel : nat) (s : string) : parsed (list (string * value)) :=
  match fuel with
  | O => OutOfFuel
  | S fuel' =>
      match skip_ws s with
      | String q r0 =>
          if code q =? 34 then
            match parse_chars None r0 with
            | Some (key, r1) =>
                match skip_ws r1 with
                | String c1 r2 =>
                    if code c1 =? 58 then           (* : *)
                      parsed_bind (parse_value fuel' r2) (fun v r3 =>
                        match skip_ws r3 with
                        | String c3 r4 =>
                            if code c3 =? 44 then
                              parsed_bind (parse_members fuel' r4)
                                (fun ms r5 => Parsed ((key, v) :: ms) r5)
                            else if code c3 =? 125 then Parsed [(key, v)] r4
                            else SyntaxError
                        | EmptyString => SyntaxError
                        end)
                    else SyntaxError
                | EmptyString => SyntaxError
                end
            | None => SyntaxError
            end
          else SyntaxError
      | EmptyString => SyntaxError
      end
  end.

(** Fuel that always suffices: see [parse_value_fuel]. *)
Definition parse_fuel (text : string) : nat := S (2 * String.length text).

(** [JSON.parse(text)]: [None] stands for the [SyntaxError] it throws. *)
Definition JSON_parse (text : string) : option value :=
  match parse_value (parse_fuel text) text with
  | Parsed v rest =>
      match skip_ws rest with
      | EmptyString => Some v
      | String _ _ => None
      end
  | SyntaxError => None
  | OutOfFuel => None
  end.

(** *** Dates

    A time value is a number of milliseconds since 1970-01-01T00:00:00Z.
    [civil_from_days] and [days_from_civil] convert between a day number and a
    proleptic Gregorian date ([YearFromTime], [MonthFromTime], [DateFromTime]
    and [MakeDay] of the language specification). *)

Definition msPerDay : Z := 86400000.

Definition civil_from_days (z : Z) : Z * Z * Z :=
  let z := z + 719468 in
  let era := z / 146097 in
  let doe := z mod 146097 in
  let yoe := (doe - doe / 1460 + doe / 36524 - doe / 146096) / 365 in
  let doy := doe - (365 * yoe + yoe / 4 - yoe / 100) in
  let mp := (5 * doy + 2) / 153 in
  let d := doy - (153 * mp + 2) / 5 + 1 in
  let m := if mp <? 10 then mp + 3 else mp - 9 in
  (if m <=? 2 then yoe + era * 400 + 1 else yoe + era * 400, m, d).

Definition days_from_civil (y m d : Z) : Z :=
  let y := if m <=? 2 then y - 1 else y in
  let era := y / 400 in
  let yoe := y mod 400 in
  let doy := (153 * (if 2 <? m then m - 3 else m + 9) + 2) / 5 + d - 1 in
  let doe := yoe * 365 + yoe / 4 - yoe / 100 + doy in
  era * 146097 + doe - 719468.

(** [v] in decimal on exactly [w] digits (the low-order ones). *)
Fixpoint pad (w : nat) (v : Z) : string :=
  match w with
  | O => EmptyString
  | S w' => String (chr (48 + (v / 10 ^ Z.of_nat w') mod 10)) (pad w' v)
  end.

(** The year of an ISO timestamp: four digits, or a sign and six digits
    outside 0..9999. *)
Definition iso_year (y : Z) : string :=
  if (0 <=? y) && (y <=? 9999) then pad 4 y
  else (if y <? 0 then "-" else "+") +:+ pad 6 (Z.abs y).

(** [Date.prototype.toISOString]: [YYYY-MM-DDTHH:mm:ss.sssZ]. *)
Definition Date_toISOString (t : Z) : string :=
  let day := t / msPerDay in
  let tod := t mod msPerDay in
  let '(y, m, d) := civil_from_days day in
  iso_year y +:+ "-" +:+ pad 2 m +:+ "-" +:+ pad 2 d +:+ "T" +:+
  pad 2 (tod / 3600000) +:+ ":" +:+ pad 2 ((tod / 60000) mod 60) +:+ ":" +:+
  pad 2 ((tod / 1000) mod 60) +:+ "." +:+ pad 3 (tod mod 1000) +:+ "Z".

Fixpoint all_digits (s : string) : bool :=
  match s with
  | String c rest => is_digit c && all_digits rest
  | EmptyString => true
  end.

Definition read_digits (w : nat) (s : string) : option (Z * string) :=
  let d := take_chars w s in
  if (String.length d =? w)%nat && all_digits d
  then Some (digits_value 0 d, drop_chars w s)
  else None.

Definition expect (c : ascii) (s : string) : option string :=
  match s with
  | String c' rest => if Ascii.eqb c c' then Some rest else None
  | EmptyString => None
  end.

Definition read_year (s : string) : option (Z * string) :=
  match s with
  | String c rest =>
      if Ascii.eqb c "+" then read_digits 6 rest
      else if Ascii.eqb c "-" then
        '(v, r) ← read_digits 6 rest;
        if v =? 0 then None else Some (- v, r)
      else read_digits 4 s
  | EmptyString => None
  end.

(** The time value an ISO timestamp denotes ([Date.parse] on the format that
    [toISOString] writes); [None] for a string that is no such timestamp. *)
Definition Date_parse (s : string) : option Z :=
  '(y, s) ← read_year s;
  s ← expect "-" s; '(mo, s) ← read_digits 2 s;
  s ← expect "-" s; '(d, s) ← read_digits 2 s;
  s ← expect "T" s; '(h, s) ← read_digits 2 s;
  s ← expect ":" s; '(mi, s) ← read_digits 2 s;
  s ← expect ":" s; '(sec, s) ← read_digits 2 s;
  s ← expect "." s; '(ms, s) ← read_digits 3 s;
  s ← expect "Z" s;
  match s with
  | EmptyString =>
      if (1 <=? mo) && (mo <=? 12) && (1 <=? d) && (d <=? 31) &&
         (h <=? 23) && (mi <=? 59) && (sec <=? 59)
      then Some (days_from_civil y mo d * msPerDay +
                 h * 3600000 + mi * 60000 + sec * 1000 + ms)
      else None
  | String _ _ => None
  end.

End JS.


Import JS.

(* ===================================================================== *)
(** ** Interfaces of [src/index.ts] and of the platform bindings *)
(* ===================================================================== *)

Record Env : Type := {
  API_KEY : string;
  CF_ACCOUNT_ID : string;
  CF_API_TOKEN : string;
  AI_SEARCH_INSTANCE : string;
}.

Inductive Source : Type := user | auto.

Definition Source_string (s : Source) : string :=
  match s with
  | user => "user"
  | auto => "auto"
  end.

Module Memory.
Record t : Type := mk {
  id : string;
  content : string;
  tags : list string;
  source : Source;
  createdAt : string;
}.
End Memory.

(** The object literal [{ id, content, tags, source, createdAt }]. *)
Definition memory_value (m : Memory.t) : value :=
  VObj [("id", VStr (Memory.id m));
        ("content", VStr (Memory.content m));
        ("tags", VArr (map VStr (Memory.tags m)));
        ("source", VStr (Source_string (Memory.source m)));
        ("createdAt", VStr (Memory.createdAt m))].

(** The body of [POST /memories].  [content] is kept as a raw JSON value:
    the handler itself tests its type. *)
Module CreateMemoryRequest.
Record t : Type := mk {
  content : option value;
  tags : option (list string);
  source : option Source;
}.
End CreateMemoryRequest.

Module ContentChunk.
Record t : Type := mk {
  type : string;
  text : string;
}.
End ContentChunk.

Module SearchItem.
Record t : Type := mk {
  file_id : string;
  filename : string;
  score : number;
  attributes : list (string * value);
  content : list ContentChunk.t;
}.
End SearchItem.

Module AiSearchResult.
Record t : Type := mk {
  object : string;
  search_query : string;
  data : list SearchItem.t;
}.
End AiSearchResult.

Module AutoragSearchRequest.
Record t : Type := mk {
  query : string;
  max_num_results : number;
  rewrite_query : bool;
  score_threshold : number;
}.
End AutoragSearchRequest.

(** What the jobs endpoint answers, after [response.json()]:
    [{ success, result?: { id }, errors?: Array<{ message }> }]. *)
Module ResyncReply.
Record t : Type := mk {
  success : bool;
  result_id : option string;        (* result?.id *)
  errors : option (list string);    (* the message of each error *)
}.
End ResyncReply.

(** A [fetch] response; [json_body] is [None] when the body is not JSON. *)
Module Response.
Record t : Type := mk {
  status : Z;
  json_body : option ResyncReply.t;
}.
End Response.

Module RequestInit.
Record t : Type := mk {
  method : string;
  headers : list (string * string);
}.
End RequestInit.

(** The result of [triggerResync]: [{ success, jobId?, error? }]. *)
Module ResyncResult.
Record t : Type := mk {
  success : bool;
  jobId : option string;
  error : option string;
}.
End ResyncResult.

Module R2PutOptions.
Record t : Type := mk {
  contentType : string;                      (* httpMetadata.contentType *)
  customMetadata : list (string * value);    (* the values the code passes *)
}.
End R2PutOptions.

(** A stored object: the text written and its metadata. *)
Module R2Object.
Record t : Type := mk {
  key : string;
  body : string;
  options : R2PutOptions.t;
}.
End R2Object.

Module R2ListOptions.
Record t : Type := mk {
  prefix : string;
  limit : number;
  cursor : option string;
}.
End R2ListOptions.

Module R2Objects.
Record t : Type := mk {
  objects : list string;     (* the key of each listed object *)
  truncated : bool;
  cursor : option string;
}.
End R2Objects.

Module HttpResponse.
Record t : Type := mk {
  status : Z;
  body : value;      (* the JSON passed to [c.json] *)
}.
End HttpResponse.

Inductive rpc_id : Type :=
  | IdStr (s : string)
  | IdNum (n : number).

Module ToolArgs.
Record t : Type := mk {
  content : option string;
  tags : option (list string);
  source : option Source;
  query : option string;
  limit : option number;
}.
End ToolArgs.

Module Params.
Record t : Type := mk {
  name : option string;
  arguments : option ToolArgs.t;
}.
End Params.

Module JsonRpcRequest.
Record t : Type := mk {
  id : rpc_id;
  method : string;
  params : option Params.t;
}.
End JsonRpcRequest.

Module JsonRpcResponse.
Record t : Type := mk {
  id : rpc_id;
  result : option value;
  error : option (Z * string);     (* code, message *)
}.
End JsonRpcResponse.

(* ===================================================================== *)
(** ** External calls *)
(* ===================================================================== *)

Module Effects.

Inductive exn : Type :=
  | JsSyntaxError            (* thrown by [JSON.parse] and [json()] *)
  | JsTypeError
  | HostError (msg : string) (* a failure of the platform: network, store *).

Inductive outcome (A : Type) : Type :=
  | Returned (a : A)
  | Thrown (e : exn).
Arguments Returned {A} a.
Arguments Thrown {A} e.

(** The awaited calls of the worker, indexed by their result type. *)
Inductive call : Type -> Type :=
  | BucketPut (key body : string) (opts : R2PutOptions.t) : call unit
  | BucketGet (key : string) : call (option R2Object.t)
  | BucketDelete (key : string) : call unit
  | BucketList (opts : R2ListOptions.t) : call R2Objects.t
  | AutoragSearch (instance : string) (req : AutoragSearchRequest.t)
      : call AiSearchResult.t
  | Fetch (url : string) (init : RequestInit.t) : call Response.t
  | RandomUUID : call string
  | DateNow : call Z.

Inductive Prog (A : Type) : Type :=
  | Ret (a : A)
  | Throw (e : exn)
  | Call {X : Type} (c : call X) (k : X -> Prog A).
Arguments Ret {A} a.
Arguments Throw {A} e.
Arguments Call {A X} c k.

Fixpoint bind {A B : Type} (m : Prog A) (f : A -> Prog B) : Prog B :=
  match m with
  | Ret a => f a
  | Throw e => Throw e
  | Call c k => Call c (fun x => bind (k x) f)
  end.

Definition perform {X : Type} (c : call X) : Prog X := Call c Ret.

Declare Scope prog_scope.
Delimit Scope prog_scope with prog.
Bind Scope prog_scope with Prog.
Notation "x <- m ;; k" := (bind m (fun x => k))
  (at level 100, m at next level, right associativity) : prog_scope.
Notation "m ;;; k" := (bind m (fun _ => k))
  (at level 100, right associativity) : prog_scope.

(** One call and the answer it got. *)
Inductive event : Type :=
  | Event {X : Type} (c : call X) (answer : outcome X).

(** An environment answers each call from its state. *)
Definition handler (St : Type) : Type :=
  forall X : Type, call X -> St -> outcome X * St.

Record run (St A : Type) : Type := mkRun {
  result : outcome A;
  final : St;
  trace : list event;
}.
Arguments mkRun {St A} result final trace.
Arguments result {St A} r.
Arguments final {St A} r.
Arguments trace {St A} r.

Fixpoint interp {St A : Type} (h : handler St) (p : Prog A) (st : St)
  : run St A :=
  match p with
  | Ret a => mkRun (Returned a) st []
  | Throw e => mkRun (Thrown e) st []
  | Call c k =>
      let '(ans, st') := h _ c st in
      match ans with
      | Returned x =>
          let r := interp h (k x) st' in
          mkRun (result r) (final r) (Event c ans :: trace r)
      | Thrown e => mkRun (Thrown e) st' [Event c ans]
      end
  end.

(** The blob reads of a trace, with what each one found. *)
Definition read_of (e : event) : option (string * option R2Object.t) :=
  match e with
  | Event c ans =>
      match c in call X return outcome X -> option (string * option R2Object.t) with
      | BucketGet key => fun ans =>
          match ans with
          | Returned o => Some (key, o)
          | Thrown _ => None
          end
      | _ => fun _ => None
      end ans
  end.

Definition reads (tr : list event) : list (string * option R2Object.t) :=
  omap read_of tr.

(** *** The reference world: one request at a time

    The bucket is a finite map whose reads, writes and deletes always
    succeed.  What the worker cannot determine is scripted: the identifiers
    [crypto.randomUUID] hands out, the time that passes before each call (the
    clock never runs backwards), the answers of the jobs endpoint and of the
    search provider (a value, or an exception for a transport failure), and
    the listing policy of the store (order, page size, cursor).  Statements
    about other environments (a store that fails, requests that interleave)
    are made over an arbitrary [handler]. *)

Record World : Type := mkWorld {
  bucket : gmap string R2Object.t;
  clock : Z;
  ticks : nat -> N;
  uuids : nat -> string;
  fetches : nat -> outcome Response.t;
  searches : nat -> AutoragSearchRequest.t -> outcome AiSearchResult.t;
  listing : R2ListOptions.t -> gmap string R2Object.t -> outcome R2Objects.t;
}.

Definition shift {A : Type} (f : nat -> A) : nat -> A := fun n => f (S n).

Definition tick (w : World) : World :=
  mkWorld (bucket w) (clock w + Z.of_N (ticks w O)) (shift (ticks w))
          (uuids w) (fetches w) (searches w) (listing w).

Definition set_bucket (b : gmap string R2Object.t) (w : World) : World :=
  mkWorld b (clock w) (ticks w) (uuids w) (fetches w) (searches w) (listing w).

Definition world_handler : handler World :=
  fun X c w0 =>
    let w := tick w0 in
    match c in call X return outcome X * World with
    | BucketPut key body opts =>
        (Returned tt, set_bucket (<[key := R2Object.mk key body opts]> (bucket w)) w)
    | BucketGet key => (Returned (bucket w !! key), w)
    | BucketDelete key => (Returned tt, set_bucket (delete key (bucket w)) w)
    | BucketList opts => (listing w opts (bucket w), w)
    | AutoragSearch _ req =>
        (searches w O req,
         mkWorld (bucket w) (clock w) (ticks w) (uuids w) (fetches w)
                 (shift (searches w)) (listing w))
    | Fetch _ _ =>
        (fetches w O,
         mkWorld (bucket w) (clock w) (ticks w) (uuids w) (shift (fetches w))
                 (searches w) (listing w))
    | RandomUUID =>
        (Returned (uuids w O),
         mkWorld (bucket w) (clock w) (ticks w) (shift (uuids w)) (fetches w)
                 (searches w) (listing w))
    | DateNow => (Returned (clock w), w)
    end.

Definition run_in (w : World) {A : Type} (p : Prog A) : run World A :=
  interp world_handler p w.

End Effects.

(* ===================================================================== *)
(** ** The worker: [src/index.ts] *)
(* ===================================================================== *)

Module Worker.

Import Effects.
Local Open Scope prog_scope.

(** *** Small pieces of the language used by the handlers *)

(** [!v] for a JSON value that may be absent. *)
Definition falsy (v : option value) : bool :=
  match v with
  | None | Some VNull => true
  | Some (VBool b) => negb b
  | Some (VNum n) => negb (num_truthy n)
  | Some (VStr s) => negb (str_truthy s)
  | Some (VArr _) | Some (VObj _) => false
  end.

Definition typeof (v : option value) : string :=
  match v with
  | None => "undefined"
  | Some (VBool _) => "boolean"
  | Some (VNum _) => "number"
  | Some (VStr _) => "string"
  | Some VNull | Some (VArr _) | Some (VObj _) => "object"
  end.

(** The string a value is, once its [typeof] is known to be ['string']. *)
Definition as_string (v : option value) : string :=
  match v with
  | Some (VStr s) => s
  | _ => EmptyString
  end.

(** Truthiness of an optional string: absent and empty are falsy. *)
Definition truthy (s : option string) : bool :=
  match s with
  | Some s => str_truthy s
  | None => false
  end.

(** [s || d] on strings. *)
Definition str_or (s : option string) (d : string) : string :=
  match s with
  | Some s => if str_truthy s then s else d
  | None => d
  end.

(** [n || d] on numbers. *)
Definition num_or (n : option number) (d : number) : number :=
  match n with
  | Some n => if num_truthy n then n else d
  | None => d
  end.

(** A property that serialization drops when its value is [undefined]. *)
Definition opt_prop (k : string) (v : option string) : list (string * value) :=
  match v with
  | Some s => [(k, VStr s)]
  | None => []
  end.

Fixpoint indexed (i : nat) (vs : list value) : list (string * value) :=
  match vs with
  | [] => []
  | v :: rest => (pretty i, v) :: indexed (S i) rest
  end.

Fixpoint chars_of (s : string) : list value :=
  match s with
  | String c rest => VStr (String c EmptyString) :: chars_of rest
  | EmptyString => []
  end.

(** The own enumerable properties that [{ ...v }] copies.  (A string spreads
    into its code units; here into its bytes, the same for ASCII text.) *)
Definition spread (v : value) : list (string * value) :=
  match v with
  | VObj props => props
  | VArr elems => indexed O elems
  | VStr s => indexed O (chars_of s)
  | VNull | VBool _ | VNum _ => []
  end.

(** [c.json(body, status)]. *)
Definition json (body : value) (status : Z) : HttpResponse.t :=
  HttpResponse.mk status body.

(** [response.json()]. *)
Definition Response_json (r : Response.t) : Prog ResyncReply.t :=
  match Response.json_body r with
  | Some reply => Ret reply
  | None => Throw JsSyntaxError
  end.

Definition memory_key (id : string) : string := "memories/" +:+ id +:+ ".json".

(** *** [triggerResync] *)

Definition jobs_url (env : Env) : string :=
  "https://api.cloudflare.com/client/v4/accounts/" +:+ CF_ACCOUNT_ID env +:+
  "/ai-search/instances/" +:+ AI_SEARCH_INSTANCE env +:+ "/jobs".

Definition triggerResync (env : Env) : Prog ResyncResult.t :=
  response <- perform (Fetch (jobs_url env)
                (RequestInit.mk "POST"
                   [("Authorization", "Bearer " +:+ CF_API_TOKEN env);
                    ("Content-Type", "application/json")])) ;;
  result <- Response_json response ;;
  if negb (ResyncReply.success result) then
    (* result.errors?.[0]?.message || 'Unknown error' *)
    Ret (ResyncResult.mk false None
           (Some (str_or (ResyncReply.errors result ≫= head) "Unknown error")))
  else
    Ret (ResyncResult.mk true (ResyncReply.result_id result) None).

(** *** [saveMemory] *)

Definition saveMemory (env : Env) (content : string)
    (tags : option (list string)) (source : option Source) : Prog Memory.t :=
  let tags := default [] tags in
  let source := default user source in
  id <- perform RandomUUID ;;
  now <- perform DateNow ;;
  let memory := Memory.mk id content tags source (Date_toISOString now) in
  perform (BucketPut (memory_key (Memory.id memory))
             (JSON_stringify (memory_value memory) 2)
             (R2PutOptions.mk "application/json"
                [("tags", VStr (join "," (Memory.tags memory)));
                 ("source", VStr (Source_string (Memory.source memory)));
                 ("createdAt", VStr (Memory.createdAt memory))])) ;;;
  triggerResync env ;;;
  Ret memory.

(** *** [searchMemories] *)

Definition textContent (item : SearchItem.t) : string :=
  join newline
    (map ContentChunk.text
       (List.filter (fun c => String.eqb (ContentChunk.type c) "text")
          (SearchItem.content item))).

(** The body of [for (const item of results.data)]; [memories] is the array
    being filled. *)
Fixpoint normalize (items : list SearchItem.t) (memories : list value)
  : Prog (list value) :=
  match items with
  | [] => Ret memories
  | item :: rest =>
      match JSON_parse (textContent item) with
      | Some memory =>
          normalize rest
            (memories ++
             [VObj (obj_set (spread memory) "score" (VNum (SearchItem.score item)))])
      | None =>
          Call DateNow (fun now =>
            normalize rest
              (memories ++
               [VObj [("id", VStr (SearchItem.file_id item));
                      ("content", VStr (textContent item));
                      ("tags", VArr []);
                      ("source", VStr "auto");
                      ("createdAt", VStr (Date_toISOString now));
                      ("score", VNum (SearchItem.score item))]]))
      end
  end.

Definition searchMemories (env : Env) (query : string) (limit : option number)
  : Prog (list value) :=
  let limit := default (of_Z 5) limit in
  results <- perform (AutoragSearch (AI_SEARCH_INSTANCE env)
               (AutoragSearchRequest.mk query (Math_min limit (of_Z 50)) true
                  (Fin 1 (-1)))) ;;
  normalize (AiSearchResult.data results) [].

(** *** REST routes *)

(** [POST /memories]. *)
Definition post_memories (env : Env) (body : CreateMemoryRequest.t)
  : Prog HttpResponse.t :=
  let content := CreateMemoryRequest.content body in
  if falsy content || negb (String.eqb (typeof content) "string") then
    Ret (json (VObj [("error", VStr "content is required and must be a string")]) 400)
  else
    memory <- saveMemory env (as_string content)
                (CreateMemoryRequest.tags body) (CreateMemoryRequest.source body) ;;
    Ret (json (VObj [("success", VBool true); ("memory", memory_value memory)]) 200).

(** [GET /memories/search?q=..&limit=..]. *)
Definition get_memories_search (env : Env) (q limitParam : option string)
  : Prog HttpResponse.t :=
  let limit :=
    if truthy limitParam then parseInt10 (default EmptyString limitParam)
    else of_Z 5 in
  if negb (truthy q) then
    Ret (json (VObj [("error", VStr "Query parameter q is required")]) 400)
  else
    memories <- searchMemories env (default EmptyString q) (Some limit) ;;
    Ret (json (VObj [("memories", VArr memories)]) 200).

(** [POST /memories/resync]. *)
Definition post_memories_resync (env : Env) : Prog HttpResponse.t :=
  result <- triggerResync env ;;
  if negb (ResyncResult.success result) then
    Ret (json (VObj (opt_prop "error" (ResyncResult.error result))) 500)
  else
    Ret (json (VObj (("success", VBool true) ::
                     opt_prop "jobId" (ResyncResult.jobId result))) 200).

(** [DELETE /memories/:id]. *)
Definition delete_memory (env : Env) (id : string) : Prog HttpResponse.t :=
  perform (BucketDelete (memory_key id)) ;;;
  resync <- triggerResync env ;;
  Ret (json (VObj [("success", VBool true);
                   ("resync",
                    VObj (if ResyncResult.success resync
                          then opt_prop "jobId" (ResyncResult.jobId resync)
                          else opt_prop "error" (ResyncResult.error resync)))])
         200).

(** The body of [for (const object of listed.objects)] in [GET /memories]. *)
Fixpoint read_objects (objects : list string) (memories : list value)
  : Prog (list value) :=
  match objects with
  | [] => Ret memories
  | key :: rest =>
      Call (BucketGet key) (fun obj =>
        match obj with
        | Some o =>
            match JSON_parse (R2Object.body o) with      (* obj.json() *)
            | Some memory => read_objects rest (memories ++ [memory])
            | None => Throw JsSyntaxError
            end
        | None => read_objects rest memories
        end)
  end.

(** [GET /memories?cursor=..&limit=..]. *)
Definition list_memories (env : Env) (cursor limitParam : option string)
  : Prog HttpResponse.t :=
  let limit :=
    if truthy limitParam then parseInt10 (default EmptyString limitParam)
    else of_Z 20 in
  listed <- perform (BucketList
              (R2ListOptions.mk "memories/" limit
                 (if truthy cursor then cursor else None))) ;;
  memories <- read_objects (R2Objects.objects listed) [] ;;
  Ret (json (VObj (("memories", VArr memories) ::
                   (if R2Objects.truncated listed
                    then opt_prop "cursor" (R2Objects.cursor listed)
                    else [("cursor", VNull)]))) 200).

(** *** The MCP surface *)

Definition mcpResult (id : rpc_id) (result : value) : JsonRpcResponse.t :=
  JsonRpcResponse.mk id (Some result) None.

Definition mcpToolResult (id : rpc_id) (text : string) (isError : bool)
  : JsonRpcResponse.t :=
  mcpResult id
    (VObj (("content", VArr [VObj [("type", VStr "text"); ("text", VStr text)]]) ::
           (if isError then [("isError", VBool true)] else []))).

Definition mcpError (id : rpc_id) (code : Z) (message : string)
  : JsonRpcResponse.t :=
  JsonRpcResponse.mk id None (Some (code, message)).

Section Mcp.

(** [handleMcpRequest] is written over the tool catalogue and over the
    callback that renders a non-empty result list, so that what depends on
    neither is stated for any.  Those of the source are [App.MCP_TOOLS] and
    [Render.format_memories]. *)
Variable MCP_TOOLS : value.
Variable format_memories : list value -> outcome string.

Definition handleMcpRequest (env : Env) (request : JsonRpcRequest.t)
  : Prog JsonRpcResponse.t :=
  let id := JsonRpcRequest.id request in
  let method := JsonRpcRequest.method request in
  let params := JsonRpcRequest.params request in
  if String.eqb method "initialize" then
    Ret (mcpResult id
           (VObj [("protocolVersion", VStr "2024-11-05");
                  ("capabilities", VObj [("tools", VObj [])]);
                  ("serverInfo",
                   VObj [("name", VStr "agent-memories");
                         ("version", VStr "1.0.0")])]))
  else if String.eqb method "tools/list" then
    Ret (mcpResult id (VObj [("tools", MCP_TOOLS)]))
  else if String.eqb method "tools/call" then
    let toolName := params ≫= Params.name in
    let toolArgs := params ≫= Params.arguments in
    if bool_decide (toolName = Some "save_memory") then
      let content := toolArgs ≫= ToolArgs.content in
      if negb (truthy content) then
        Ret (mcpToolResult id "Error: content is required" true)
      else
        memory <- saveMemory env (default EmptyString content)
                    (Some (default [] (toolArgs ≫= ToolArgs.tags)))
                    (Some (default user (toolArgs ≫= ToolArgs.source))) ;;
        Ret (mcpToolResult id
               ("Memory saved successfully with ID: " +:+ Memory.id memory) false)
    else if bool_decide (toolName = Some "search_memories") then
      let query := toolArgs ≫= ToolArgs.query in
      if negb (truthy query) then
        Ret (mcpToolResult id "Error: query is required" true)
      else
        memories <- searchMemories env (default EmptyString query)
                      (Some (num_or (toolArgs ≫= ToolArgs.limit) (of_Z 5))) ;;
        match memories with
        | [] => Ret (mcpToolResult id "No memories found matching the query." false)
        | _ =>
            match format_memories memories with
            | Returned formatted =>
                Ret (mcpToolResult id
                       ("Found " +:+ pretty (length memories) +:+
                        " relevant memories:" +:+ newline +:+ newline +:+
                        formatted) false)
            | Thrown e => Throw e
            end
        end
    else
      Ret (mcpToolResult id
             ("Unknown tool: " +:+ default "undefined" toolName) true)
  else if String.eqb method "notifications/initialized"
          || String.eqb method "notifications/cancelled" then
    Ret (mcpResult id (VObj []))
  else
    Ret (mcpError id (-32601) ("Method not found: " +:+ method)).

End Mcp.

End Worker.

(* ===================================================================== *)
(** ** The create path on the values a request can really carry *)
(* ===================================================================== *)

(** [POST /memories] reads its body with [c.req.json<CreateMemoryRequest>()]
    and the [save_memory] tool reads [params.arguments as Record<string,
    unknown>]: both are unchecked casts, so at run time [content], [tags] and
    [source] can be any JSON value.  This module follows the same source
    lines on such values.  On arguments of the declared types it coincides
    with [Worker.saveMemory], [Worker.post_memories] and the [save_memory]
    branch of [Worker.handleMcpRequest] (lemmas [Raw_saveMemory_typed],
    [Raw_post_memories_typed] and [Raw_save_memory_typed]). *)
Module Raw.

Import Effects Worker.
Local Open Scope prog_scope.

(** [v.k] and [v?.k] for the property names the worker reads ([content],
    [tags], [source], [id], [score]): an own property of an object; a
    string, a number, a boolean or an array has no property of these names.
    [None] is [undefined]. *)
Definition member (v : option value) (k : string) : option value :=
  match v with
  | Some (VObj props) => obj_get props k
  | _ => None
  end.

(** [x || d] on values. *)
Definition or_else (x : option value) (d : value) : value :=
  match x with
  | Some v => if falsy (Some v) then d else v
  | None => d
  end.

(** [ToString] of a JSON value; [None] where it throws a [TypeError].  An
    array is joined with commas, an object is ['[object Object]'] unless an
    own property hides [Object.prototype.toString]: that property is not
    callable, and [valueOf] gives no primitive either. *)
Fixpoint ToString (v : value) : option string :=
  match v with
  | VNull => Some "null"
  | VBool true => Some "true"
  | VBool false => Some "false"
  | VNum n => Some (Number_toString n)
  | VStr s => Some s
  | VArr elems =>
      option_map (join ",")
        ((fix parts (es : list value) : option (list string) :=
            match es with
            | [] => Some []
            | e :: rest =>
                match match e with VNull => Some EmptyString | _ => ToString e end,
                      parts rest with
                | Some s, Some ss => Some (s :: ss)
                | _, _ => None
                end
            end) elems)
  | VObj props =>
      match obj_get props "toString" with
      | Some _ => None
      | None => Some "[object Object]"
      end
  end.

(** The strings [Array.prototype.join] puts together: the empty string for
    [null], [ToString] of any other element. *)
Fixpoint element_strings (es : list value) : option (list string) :=
  match es with
  | [] => Some []
  | e :: rest =>
      match match e with VNull => Some EmptyString | _ => ToString e end,
            element_strings rest with
      | Some s, Some ss => Some (s :: ss)
      | _, _ => None
      end
  end.

(** [v.join(sep)] for a JSON value [v]: only an array has a [join] that can
    be called. *)
Definition Array_join (v : value) (sep : string) : Prog string :=
  match v with
  | VArr elems =>
      match element_strings elems with
      | Some parts => Ret (join sep parts)
      | None => Throw JsTypeError
      end
  | _ => Throw JsTypeError
  end.

(** [saveMemory]: the default parameters apply to [undefined] only; the
    arguments of [put] are evaluated, [join] included, before the call. *)
Definition saveMemory (env : Env) (content : value) (tags source : option value)
  : Prog value :=
  let tags := default (VArr []) tags in
  let source := default (VStr "user") source in
  id <- perform RandomUUID ;;
  now <- perform DateNow ;;
  let createdAt := Date_toISOString now in
  let memory := VObj [("id", VStr id); ("content", content); ("tags", tags);
                      ("source", source); ("createdAt", VStr createdAt)] in
  joined <- Array_join tags "," ;;
  perform (BucketPut (memory_key id) (JSON_stringify memory 2)
             (R2PutOptions.mk "application/json"
                [("tags", VStr joined); ("source", source);
                 ("createdAt", VStr createdAt)])) ;;;
  triggerResync env ;;;
  Ret memory.

(** [POST /memories] on a parsed body: reading a property of [null] throws. *)
Definition post_memories (env : Env) (body : value) : Prog HttpResponse.t :=
  match body with
  | VNull => Throw JsTypeError
  | _ =>
      let content := member (Some body) "content" in
      if falsy content || negb (String.eqb (typeof content) "string") then
        Ret (json (VObj [("error",
                          VStr "content is required and must be a string")]) 400)
      else
        memory <- saveMemory env (default VNull content)
                    (member (Some body) "tags") (member (Some body) "source") ;;
        Ret (json (VObj [("success", VBool true); ("memory", memory)]) 200)
  end.

(** The [save_memory] branch of [tools/call]; [toolArgs] is
    [params?.arguments]. *)
Definition call_save_memory (env : Env) (id : rpc_id) (toolArgs : option value)
  : Prog JsonRpcResponse.t :=
  let content := member toolArgs "content" in
  if falsy content then
    Ret (mcpToolResult id "Error: content is required" true)
  else
    memory <- saveMemory env (default VNull content)
                (Some (or_else (member toolArgs "tags") (VArr [])))
                (Some (or_else (member toolArgs "source") (VStr "user"))) ;;
    Ret (mcpToolResult id
           ("Memory saved successfully with ID: " +:+
            as_string (member (Some memory) "id")) false).

(** Requests of the declared types, as the values they are. *)
Definition tags_value (tags : list string) : value := VArr (map VStr tags).

Definition source_value (source : Source) : value := VStr (Source_string source).

Definition opt_member (k : string) (v : option value) : list (string * value) :=
  match v with
  | Some x => [(k, x)]
  | None => []
  end.

Definition body_of (r : CreateMemoryRequest.t) : value :=
  VObj (opt_member "content" (CreateMemoryRequest.content r) ++
        opt_member "tags" (tags_value <$> CreateMemoryRequest.tags r) ++
        opt_member "source" (source_value <$> CreateMemoryRequest.source r)).

Definition arguments_of (a : ToolArgs.t) : value :=
  VObj (opt_member "content" (VStr <$> ToolArgs.content a) ++
        opt_member "tags" (tags_value <$> ToolArgs.tags a) ++
        opt_member "source" (source_value <$> ToolArgs.source a) ++
        opt_member "query" (VStr <$> ToolArgs.query a) ++
        opt_member "limit" (VNum <$> ToolArgs.limit a)).

End Raw.

(* ===================================================================== *)
(** ** The text answer of the [search_memories] tool *)
(* ===================================================================== *)

(** The callback of [memories.map] in the [search_memories] branch reads
    [m.tags.length], calls [m.tags.join], converts [m.content] to a string
    and formats [m.score * 100] with [toFixed(1)].  The entries come out of
    [JSON.parse] unchecked, so each of these runs on whatever JSON value the
    stored text holds.  This module follows the runtime on every value:
    binary64 arithmetic for the score, [ToNumber] for the comparison
    [length > 0], [ToString] for the template.  All it can throw is a
    [TypeError]. *)
Module Render.

Import JS Effects Worker.

(** *** [ToNumber] *)

(** [ToNumber] of a JSON value that may be absent; [None] where it throws a
    [TypeError].  An array or an object is first made a string, as
    [ToPrimitive] does once [valueOf] has returned the object itself. *)
Definition ToNumber (v : option value) : option double :=
  match v with
  | None => Some DNaN
  | Some VNull => Some (DFin 0 0)
  | Some (VBool b) => Some (if b then round64 1 1 else DFin 0 0)
  | Some (VNum n) => Some (to_double n)
  | Some (VStr s) => Some (StringToNumber s)
  | Some (VArr elems) => option_map StringToNumber (Raw.ToString (VArr elems))
  | Some (VObj props) => option_map StringToNumber (Raw.ToString (VObj props))
  end.

(** *** The callback of [memories.map] and the join *)

(** [m.tags.length > 0 ? ` [${m.tags.join(', ')}]` : ''] for the value of
    [m.tags].  [undefined] and [null] have no [length]; a number and a
    boolean have none either, but reading it gives [undefined], which is not
    above [0]; only an array has a [join] to call. *)
Definition tags_suffix (tags : option value) : outcome string :=
  match tags with
  | None | Some VNull => Thrown JsTypeError
  | Some (VBool _) | Some (VNum _) => Returned EmptyString
  | Some (VStr s) => if str_truthy s then Thrown JsTypeError else Returned EmptyString
  | Some (VArr []) => Returned EmptyString
  | Some (VArr elems) =>
      match Raw.element_strings elems with
      | Some parts => Returned (" [" +:+ join ", " parts +:+ "]")
      | None => Thrown JsTypeError
      end
  | Some (VObj props) =>
      match ToNumber (obj_get props "length") with
      | Some n => if double_positive n then Thrown JsTypeError else Returned EmptyString
      | None => Thrown JsTypeError
      end
  end.

(** [`${v}`]. *)
Definition template_string (v : option value) : option string :=
  match v with
  | None => Some "undefined"
  | Some v => Raw.ToString v
  end.

(** The line of the entry [m] at index [i]. *)
Definition format_memory (i : nat) (m : value) : outcome string :=
  match tags_suffix (Raw.member (Some m) "tags") with
  | Thrown e => Thrown e
  | Returned tags =>
      match template_string (Raw.member (Some m) "content"),
            ToNumber (Raw.member (Some m) "score") with
      | Some content, Some score =>
          Returned (pretty (S i) +:+ ". " +:+ content +:+ tags +:+
                    " (relevance: " +:+ toFixed1 (double_mul score (round64 100 1)) +:+
                    "%)")
      | _, _ => Thrown JsTypeError
      end
  end.

Fixpoint format_from (i : nat) (memories : list value) : outcome (list string) :=
  match memories with
  | [] => Returned []
  | m :: rest =>
      match format_memory i m with
      | Thrown e => Thrown e
      | Returned line =>
          match format_from (S i) rest with
          | Thrown e => Thrown e
          | Returned lines => Returned (line :: lines)
          end
      end
  end.

(** [memories.map((m, i) => ...).join('\n')]. *)
Definition format_memories (memories : list value) : outcome string :=
  match format_from O memories with
  | Returned lines => Returned (join newline lines)
  | Thrown e => Thrown e
  end.

End Render.

(* ===================================================================== *)
(** ** Vocabulary of the statements, and example data *)
(* ===================================================================== *)

Module Spec.

Import Effects Worker.

(** [v[k]] for an object [v]. *)
Definition get_prop (v : value) (k : string) : option value :=
  match v with
  | VObj props => obj_get props k
  | _ => None
  end.

(** The [max_num_results] of each search request in a trace. *)
Definition requested_count (e : event) : option number :=
  match e with
  | Event c _ =>
      match c with
      | AutoragSearch _ req => Some (AutoragSearchRequest.max_num_results req)
      | _ => None
      end
  end.

Definition requested_counts (tr : list event) : list number :=
  omap requested_count tr.

(** Time values of JavaScript dates: at most 8.64e15 ms from the epoch. *)
Definition time_value (t : Z) : Prop :=
  -8640000000000000 <= t <= 8640000000000000.

(** The answers an environment gives: the clock never throws. *)
Definition clock_answers {St : Type} (h : handler St) : Prop :=
  forall st : St, exists (t : Z) (st' : St), h _ DateNow st = (Returned t, st').

(** The store answers every blob read (found or not) without throwing. *)
Definition reads_answer {St : Type} (h : handler St) : Prop :=
  forall (key : string) (st : St),
    exists (o : option R2Object.t) (st' : St),
      h _ (BucketGet key) st = (Returned o, st').

(** A blob read that found an object. *)
Definition found (rd : string * option R2Object.t) : bool :=
  match snd rd with
  | Some _ => true
  | None => false
  end.

(** What a blob read contributes to the listing: the parsed blob, or nothing
    when the read found no object. *)
Definition listed_memory (rd : string * option R2Object.t) : option value :=
  snd rd ≫= fun obj => JSON_parse (R2Object.body obj).

(** The ScoredMemory emitted for a Memory read back from the provider. *)
Definition scored (m : Memory.t) (score : number) : value :=
  VObj [("id", VStr (Memory.id m));
        ("content", VStr (Memory.content m));
        ("tags", VArr (map VStr (Memory.tags m)));
        ("source", VStr (Source_string (Memory.source m)));
        ("createdAt", VStr (Memory.createdAt m));
        ("score", VNum score)].

(** The synthetic ScoredMemory built around text that is not JSON. *)
Definition synthetic (item : SearchItem.t) (text : string) (now : Z) : value :=
  VObj [("id", VStr (SearchItem.file_id item));
        ("content", VStr text);
        ("tags", VArr []);
        ("source", VStr "auto");
        ("createdAt", VStr (Date_toISOString now));
        ("score", VNum (SearchItem.score item))].

(** What the normalizer emits for one item, given the trace of the run. *)
Definition emitted (tr : list event) (item : SearchItem.t) (out : value) : Prop :=
  match JSON_parse (textContent item) with
  | Some parsed =>
      out = VObj (obj_set (spread parsed) "score" (VNum (SearchItem.score item)))
  | None =>
      exists now : Z,
        In (Event DateNow (Returned now)) tr /\
        out = synthetic item (textContent item) now
  end.

(** A validation failure on the REST surface: status 400 and an [error]. *)
Definition validation_error_http (r : HttpResponse.t) : Prop :=
  HttpResponse.status r = 400 /\
  exists msg, HttpResponse.body r = VObj [("error", VStr msg)].

(** A validation failure on the MCP surface: a tool result with [isError]. *)
Definition validation_error_mcp (r : JsonRpcResponse.t) : Prop :=
  exists res, JsonRpcResponse.result r = Some res /\
              get_prop res "isError" = Some (VBool true).

(** The Memory that [saveMemory] builds in world [w]: the next identifier,
    and the clock as read after the two calls that precede the write. *)
Definition created (w : World) (content : string) (tags : option (list string))
    (source : option Source) : Memory.t :=
  Memory.mk (uuids w O) content (default [] tags) (default user source)
    (Date_toISOString (clock (tick (tick w)))).

(** The object [saveMemory] writes for a Memory. *)
Definition stored (m : Memory.t) : R2Object.t :=
  R2Object.mk (memory_key (Memory.id m)) (JSON_stringify (memory_value m) 2)
    (R2PutOptions.mk "application/json"
       [("tags", VStr (join "," (Memory.tags m)));
        ("source", VStr (Source_string (Memory.source m)));
        ("createdAt", VStr (Memory.createdAt m))]).

Definition save_memory_request (id : rpc_id) (content : option string)
    (tags : option (list string)) (source : option Source) : JsonRpcRequest.t :=
  JsonRpcRequest.mk id "tools/call"
    (Some (Params.mk (Some "save_memory")
             (Some (ToolArgs.mk content tags source None None)))).

Definition search_memories_request (id : rpc_id) (query : option string)
    (limit : option number) : JsonRpcRequest.t :=
  JsonRpcRequest.mk id "tools/call"
    (Some (Params.mk (Some "search_memories")
             (Some (ToolArgs.mk None None None query limit)))).

End Spec.

Module Examples.

Import Effects Worker.

Definition env0 : Env :=
  {| API_KEY := "secret"; CF_ACCOUNT_ID := "acct"; CF_API_TOKEN := "token";
     AI_SEARCH_INSTANCE := "claude-memories" |}.

Definition busy : Response.t :=
  Response.mk 200 (Some (ResyncReply.mk false None (Some ["index busy"]))).

Definition accepted : Response.t :=
  Response.mk 200 (Some (ResyncReply.mk true (Some "job-1") None)).

Definition stored_text : string :=
  JSON_stringify
    (memory_value (Memory.mk "id1" "Always use tabs" ["style"] user
                     "2026-11-02T07:11:00.123Z")) 2.

Definition item_memory : SearchItem.t :=
  SearchItem.mk "f1" "memories/id1.json" (Fin 82 (-2)) []
    [ContentChunk.mk "text" stored_text].

Definition item_plain : SearchItem.t :=
  SearchItem.mk "f2" "notes.txt" (Fin 5 (-1)) []
    [ContentChunk.mk "text" "plain"; ContentChunk.mk "image" "zzz";
     ContentChunk.mk "text" "more"].

(** A world with an empty bucket whose jobs endpoint reports a failure, and
    whose listing is stale: it still names an object that is gone. *)
Definition world0 : World :=
  mkWorld ∅ 1793603460123 (fun _ => 1%N)
    (fun n => "uuid-" +:+ pretty n)
    (fun _ => Returned busy)
    (fun _ _ => Returned (AiSearchResult.mk "vector_store.search_results.page"
                            "tabs" [item_memory; item_plain]))
    (fun _ b => Returned (R2Objects.mk
                            (map fst (map_to_list b) ++ ["memories/gone.json"])
                            false None)).

(** [world0] after one Memory has been saved. *)
Definition world1 : World :=
  final (run_in world0 (saveMemory env0 "Always use tabs" (Some ["style"]) None)).

Definition stale_listing : R2Objects.t :=
  R2Objects.mk ["memories/uuid-0.json"; "memories/gone.json"] false None.

Definition no_tools : value := VArr [].

Definition no_format (memories : list value) : outcome string :=
  Returned EmptyString.

End Examples.

(* ===================================================================== *)
(** ** The rest of [src/index.ts]: middleware, remaining routes, catalogue *)
(* ===================================================================== *)

Module App.

Import Effects Worker.
Local Open Scope prog_scope.

Section Middleware.

(** What the routes behind the middleware answer (JSON, an event stream, a
    404), and how a JSON answer of the middleware itself is one of them. *)
Context {R : Type}.
Variable respond : HttpResponse.t -> R.

(** The middleware of [app.use('*', ...)]: [path] is [c.req.path],
    [authHeader] is [c.req.header('Authorization')], [next] is the rest of
    the chain.  [authHeader.slice(7)] is only reached on a header that starts
    with the seven ASCII characters of ['Bearer '], where it drops exactly
    those. *)
Definition auth (env : Env) (path : string) (authHeader : option string)
    (next : Prog R) : Prog R :=
  if String.eqb path "/health" then next
  else
    let apiKey := API_KEY env in
    if negb (str_truthy apiKey) then
      Ret (respond (json (VObj [("error",
                                 VStr "Server not configured with API key")]) 500))
    else if negb (truthy authHeader)
            || negb (String.prefix "Bearer " (default EmptyString authHeader)) then
      Ret (respond (json (VObj [("error",
                                 VStr "Missing or invalid Authorization header")]) 401))
    else
      let token := drop_chars 7 (default EmptyString authHeader) in
      if negb (String.eqb token apiKey) then
        Ret (respond (json (VObj [("error", VStr "Invalid API key")]) 401))
      else next.

End Middleware.

(** [GET /health]. *)
Definition get_health : Prog HttpResponse.t :=
  Ret (json (VObj [("status", VStr "ok")]) 200).

(** *** The tool catalogue *)

Definition quoted (s : string) : string :=
  String dquote (s +:+ String dquote EmptyString).

Definition save_memory_description : string :=
  "Save a memory for future reference. Use this when the user explicitly "
  +:+ "asks to remember something, or when they express strong preferences "
  +:+ "with words like "
  +:+ quoted "ALWAYS" +:+ ", " +:+ quoted "NEVER" +:+ ", "
  +:+ quoted "Remember that..." +:+ ", or " +:+ quoted "I prefer..."
  +:+ ". Examples:" +:+ newline
  +:+ "- " +:+ quoted "Remember that I prefer TypeScript over JavaScript" +:+ newline
  +:+ "- " +:+ quoted "Always use tabs for indentation in my projects" +:+ newline
  +:+ "- " +:+ quoted "Never use semicolons in my code".

Definition search_memories_description : string :=
  "Search for relevant memories. Use this at the start of sessions or "
  +:+ "before making decisions about coding style, architecture, or user "
  +:+ "preferences. This helps maintain consistency with the user's "
  +:+ "established preferences.".

Definition MCP_TOOLS : value :=
  VArr [
    VObj [("name", VStr "save_memory");
          ("description", VStr save_memory_description);
          ("inputSchema",
           VObj [("type", VStr "object");
                 ("properties",
                  VObj [("content",
                         VObj [("type", VStr "string");
                               ("description", VStr "The memory content to save")]);
                        ("tags",
                         VObj [("type", VStr "array");
                               ("items", VObj [("type", VStr "string")]);
                               ("description",
                                VStr ("Optional tags to categorize the memory (e.g., ["
                                      +:+ quoted "coding-style" +:+ ", "
                                      +:+ quoted "preferences" +:+ "])"))]);
                        ("source",
                         VObj [("type", VStr "string");
                               ("enum", VArr [VStr "user"; VStr "auto"]);
                               ("description",
                                VStr ("Whether this memory was explicitly requested "
                                      +:+ "by the user or auto-detected"))])]);
                 ("required", VArr [VStr "content"])])];
    VObj [("name", VStr "search_memories");
          ("description", VStr search_memories_description);
          ("inputSchema",
           VObj [("type", VStr "object");
                 ("properties",
                  VObj [("query",
                         VObj [("type", VStr "string");
                               ("description",
                                VStr "The search query to find relevant memories")]);
                        ("limit",
                         VObj [("type", VStr "number");
                               ("description",
                                VStr "Maximum number of results to return (default: 5)")])]);
                 ("required", VArr [VStr "query"])])]].

(** *** [POST /mcp] *)

Definition id_value (id : rpc_id) : value :=
  match id with
  | IdStr s => VStr s
  | IdNum n => VNum n
  end.

(** A [JsonRpcResponse] as the object the helpers build: [mcpResult] sets
    [result], [mcpError] sets [error]. *)
Definition response_value (r : JsonRpcResponse.t) : value :=
  VObj ([("jsonrpc", VStr "2.0"); ("id", id_value (JsonRpcResponse.id r))] ++
        match JsonRpcResponse.result r with
        | Some result => [("result", result)]
        | None => []
        end ++
        match JsonRpcResponse.error r with
        | Some (code, message) =>
            [("error", VObj [("code", VNum (of_Z code)); ("message", VStr message)])]
        | None => []
        end).

Section McpRoute.

(** The renderer is an argument, as in [handleMcpRequest]; the source's is
    [Render.format_memories]. *)
Variable format_memories : list value -> outcome string.

Definition post_mcp (env : Env) (request : JsonRpcRequest.t) : Prog HttpResponse.t :=
  response <- handleMcpRequest MCP_TOOLS format_memories env request ;;
  Ret (json (response_value response) 200).

End McpRoute.

End App.

(** Vocabulary of the statements about calls, and further example data. *)
Module Observe.

Import Effects Worker Spec App.

(** The key a call writes to or deletes from the bucket. *)
Definition mutation_of (e : event) : option string :=
  match e with
  | Event c _ =>
      match c with
      | BucketPut key _ _ => Some key
      | BucketDelete key => Some key
      | _ => None
      end
  end.

Definition mutations (tr : list event) : list string := omap mutation_of tr.

Definition is_blob_read (e : event) : bool :=
  match e with
  | Event c _ => match c with BucketGet _ => true | _ => false end
  end.

Definition is_clock_read (e : event) : bool :=
  match e with
  | Event c _ => match c with DateNow => true | _ => false end
  end.

(** The options of each listing request in a trace. *)
Definition list_request (e : event) : option R2ListOptions.t :=
  match e with
  | Event c _ => match c with BucketList opts => Some opts | _ => None end
  end.

Definition list_requests (tr : list event) : list R2ListOptions.t :=
  omap list_request tr.

(** The methods [handleMcpRequest] knows. *)
Definition known_methods : list string :=
  ["initialize"; "tools/list"; "tools/call";
   "notifications/initialized"; "notifications/cancelled"].

(** The names a catalogue advertises, and the [required] arguments of a
    tool. *)
Definition string_of (v : value) : option string :=
  match v with
  | VStr s => Some s
  | _ => None
  end.

Definition elements (v : option value) : list value :=
  match v with
  | Some (VArr vs) => vs
  | _ => []
  end.

Definition tool_name (tool : value) : option string :=
  get_prop tool "name" ≫= string_of.

Definition tool_names (tools : value) : list string :=
  omap tool_name (elements (Some tools)).

Definition tool_required (tool : value) : list string :=
  omap string_of (elements (get_prop tool "inputSchema" ≫= fun s => get_prop s "required")).

(** The string argument of a tool call named [k], if the call gives it. *)
Definition string_argument (args : ToolArgs.t) (k : string) : option string :=
  if String.eqb k "content" then ToolArgs.content args
  else if String.eqb k "query" then ToolArgs.query args
  else None.

Definition tool_call (id : rpc_id) (name : option string)
    (args : option ToolArgs.t) : JsonRpcRequest.t :=
  JsonRpcRequest.mk id "tools/call" (Some (Params.mk name args)).

(** JSON values that are not objects, arrays or strings. *)
Definition is_scalar (v : value) : bool :=
  match v with
  | VNull | VBool _ | VNum _ => true
  | VStr _ | VArr _ | VObj _ => false
  end.

Definition has_text (item : SearchItem.t) : bool :=
  existsb (fun c => String.eqb (ContentChunk.type c) "text") (SearchItem.content item).

(** The calls of [saveMemory] for a Memory [m]. *)
Definition put_of (m : Memory.t) : call unit :=
  BucketPut (memory_key (Memory.id m)) (JSON_stringify (memory_value m) 2)
    (R2PutOptions.mk "application/json"
       [("tags", VStr (join "," (Memory.tags m)));
        ("source", VStr (Source_string (Memory.source m)));
        ("createdAt", VStr (Memory.createdAt m))]).

Definition resync_call (env : Env) : call Response.t :=
  Fetch (jobs_url env)
    (RequestInit.mk "POST"
       [("Authorization", "Bearer " +:+ CF_API_TOKEN env);
        ("Content-Type", "application/json")]).

(** What [triggerResync] makes of the answer of the jobs endpoint. *)
Definition resync_outcome (ans : outcome Response.t) : outcome ResyncResult.t :=
  match ans with
  | Thrown e => Thrown e
  | Returned resp =>
      match Response.json_body resp with
      | None => Thrown JsSyntaxError
      | Some reply =>
          Returned
            (if ResyncReply.success reply
             then ResyncResult.mk true (ResyncReply.result_id reply) None
             else ResyncResult.mk false None
                    (Some (str_or (ResyncReply.errors reply ≫= head)
                             "Unknown error")))
      end
  end.

Definition is_resync (e : event) : bool :=
  match e with
  | Event c _ => match c with Fetch _ _ => true | _ => false end
  end.

(** An environment whose bucket is out of order: every put and every delete
    throws; the other calls are those of the reference world. *)
Definition store_down : exn := HostError "bucket unavailable".

Definition broken_store : handler World :=
  fun X c w =>
    match c in call X return outcome X * World with
    | BucketPut _ _ _ => (Thrown store_down, tick w)
    | BucketDelete _ => (Thrown store_down, tick w)
    | c' => world_handler _ c' w
    end.

Definition item_number : SearchItem.t :=
  SearchItem.mk "f3" "count.txt" (Fin 9 (-1)) [] [ContentChunk.mk "text" "42"].

Definition item_image : SearchItem.t :=
  SearchItem.mk "f4" "photo.png" (Fin 3 (-1)) [] [ContentChunk.mk "image" "zzz"].

Definition world_odd : World :=
  mkWorld ∅ 1793603460123 (fun _ => 1%N)
    (fun n => "uuid-" +:+ pretty n)
    (fun _ => Returned Examples.accepted)
    (fun _ _ => Returned (AiSearchResult.mk "vector_store.search_results.page"
                            "odd" [item_number; item_image]))
    (fun _ _ => Returned (R2Objects.mk [] true (Some "next-page"))).

(** The line of the rendered list for an entry whose [content] is a string
    and whose [tags] are strings, at index [i]. *)
Definition memory_line (i : nat) (content : string) (tags : list string)
    (score : number) : string :=
  pretty (S i) +:+ ". " +:+ content +:+
  match tags with
  | [] => EmptyString
  | _ => " [" +:+ join ", " tags +:+ "]"
  end +:+
  " (relevance: " +:+ toFixed1 (double_mul (to_double score) (round64 100 1)) +:+ "%)".

(** What an item shows: the content and the tags of the Memory its text
    holds, or the text itself and no tags when the text is no JSON. *)
Definition shows (item : SearchItem.t) (shown : string * list string) : Prop :=
  (exists m : Memory.t,
      JSON_parse (textContent item) = Some (memory_value m) /\
      shown = (Memory.content m, Memory.tags m)) \/
  (JSON_parse (textContent item) = None /\ shown = (textContent item, [])).

Fixpoint lines_from (i : nat) (items : list SearchItem.t)
    (shown : list (string * list string)) : list string :=
  match items, shown with
  | item :: items', (content, tags) :: shown' =>
      memory_line i content tags (SearchItem.score item) ::
      lines_from (S i) items' shown'
  | _, _ => []
  end.

End Observe.

(* ===================================================================== *)
(** ** Facts about the runtime *)
(* ===================================================================== *)

Section StringFacts.

Lemma string_app_assoc (a b c : string) : (a +:+ b) +:+ c = a +:+ b +:+ c.
Proof. induction a as [|x a IH]; simpl; [reflexivity | now rewrite IH]. Qed.

Lemma string_app_nil_r (s : string) : s +:+ EmptyString = s.
Proof. induction s as [|x s IH]; simpl; [reflexivity | now rewrite IH]. Qed.

Lemma string_app_length (a b : string) :
  String.length (a +:+ b) = (String.length a + String.length b)%nat.
Proof. induction a as [|x a IH]; simpl; [reflexivity | now rewrite IH]. Qed.

Lemma code_range (c : ascii) : 0 <= code c < 256.
Proof.
  unfold code. pose proof (N_ascii_bounded c). lia.
Qed.

Lemma chr_code (c : ascii) : chr (code c) = c.
Proof. unfold chr, code. rewrite N2Z.id. apply ascii_N_embedding. Qed.

Lemma code_chr (z : Z) : 0 <= z < 256 -> code (chr z) = z.
Proof.
  intros Hz. unfold chr, code. rewrite N_ascii_embedding by lia. lia.
Qed.

Lemma code_inj (a b : ascii) : code a = code b -> a = b.
Proof. intros H. rewrite <- (chr_code a), <- (chr_code b). now rewrite H. Qed.

End StringFacts.

(** *** [JSON.parse] reads back what [JSON.stringify] writes for a Memory *)

Section JsonRoundTrip.

Lemma parse_chars_quote (s rest : string) :
  parse_chars None (quote_chars s +:+ String dquote rest) = Some (s, rest).
Proof.
  induction s as [|c s IH]; [reflexivity|].
  cbn [quote_chars]. rewrite string_app_assoc.
  destruct c as [[] [] [] [] [] [] [] []]; simpl; rewrite IH; reflexivity.
Qed.

Lemma quote_app (s rest : string) :
  QuoteJSONString s +:+ rest = String dquote (quote_chars s +:+ String dquote rest).
Proof.
  unfold QuoteJSONString. simpl. now rewrite string_app_assoc.
Qed.

Lemma parse_value_skip (f : nat) (s s' : string) :
  skip_ws s = skip_ws s' -> parse_value f s = parse_value f s'.
Proof. intros H. destruct f; simpl; [reflexivity | now rewrite H]. Qed.

Lemma parse_elements_skip (f : nat) (s s' : string) :
  skip_ws s = skip_ws s' -> parse_elements f s = parse_elements f s'.
Proof.
  intros H. destruct f; simpl; [reflexivity|].
  now rewrite (parse_value_skip f s s' H).
Qed.

Lemma parse_members_skip (f : nat) (s s' : string) :
  skip_ws s = skip_ws s' -> parse_members f s = parse_members f s'.
Proof. intros H. destruct f; simpl; [reflexivity | now rewrite H]. Qed.

Lemma parse_value_string (f : nat) (s rest : string) :
  parse_value (S f) (QuoteJSONString s +:+ rest) = Parsed (VStr s) rest.
Proof.
  rewrite quote_app. simpl. now rewrite parse_chars_quote.
Qed.

Lemma parse_elements_unfold (f : nat) (s : string) :
  parse_elements (S f) s =
  parsed_bind (parse_value f s) (fun v r =>
    match skip_ws r with
    | String c r' =>
        if code c =? 44 then
          parsed_bind (parse_elements f r') (fun vs r'' => Parsed (v :: vs) r'')
        else if code c =? 93 then Parsed [v] r'
        else SyntaxError
    | EmptyString => SyntaxError
    end).
Proof. reflexivity. Qed.

Lemma parse_members_unfold (f : nat) (s : string) :
  parse_members (S f) s =
  match skip_ws s with
  | String q r0 =>
      if code q =? 34 then
        match parse_chars None r0 with
        | Some (key, r1) =>
            match skip_ws r1 with
            | String c1 r2 =>
                if code c1 =? 58 then
                  parsed_bind (parse_value f r2) (fun v r3 =>
                    match skip_ws r3 with
                    | String c3 r4 =>
                        if code c3 =? 44 then
                          parsed_bind (parse_members f r4)
                            (fun ms r5 => Parsed ((key, v) :: ms) r5)
                        else if code c3 =? 125 then Parsed [(key, v)] r4
                        else SyntaxError
                    | EmptyString => SyntaxError
                    end)
                else SyntaxError
            | EmptyString => SyntaxError
            end
        | None => SyntaxError
        end
      else SyntaxError
  | EmptyString => SyntaxError
  end.
Proof. reflexivity. Qed.

Lemma parse_value_empty_array (f : nat) (s r r' : string) :
  skip_ws s = String "[" r -> skip_ws r = String "]" r' ->
  parse_value (S f) s = Parsed (VArr []) r'.
Proof. intros H1 H2. simpl. rewrite H1. simpl. rewrite H2. reflexivity. Qed.

Lemma parse_value_open_array (f : nat) (s r : string) :
  skip_ws s = String "[" r ->
  match skip_ws r with String c _ => code c =? 93 | EmptyString => true end = false ->
  parse_value (S f) s =
  parsed_bind (parse_elements f r) (fun vs r0 => Parsed (VArr vs) r0).
Proof.
  intros H1 H2. simpl. rewrite H1. simpl.
  destruct (skip_ws r); [discriminate|]. now rewrite H2.
Qed.

Lemma parse_value_open_object (f : nat) (s r : string) :
  skip_ws s = String "{" r ->
  match skip_ws r with String c _ => code c =? 125 | EmptyString => true end = false ->
  parse_value (S f) s =
  parsed_bind (parse_members f r)
    (fun ms r0 => Parsed (VObj (obj_of_members ms)) r0).
Proof.
  intros H1 H2. simpl. rewrite H1. simpl.
  destruct (skip_ws r); [discriminate|]. now rewrite H2.
Qed.

Lemma parse_value_string_nf (f : nat) (s rest : string) :
  parse_value (S f) (String " " (String dquote (quote_chars s +:+ String dquote rest)))
  = Parsed (VStr s) rest.
Proof. simpl. now rewrite parse_chars_quote. Qed.

#[local] Arguments parse_value : simpl never.
#[local] Arguments parse_elements : simpl never.
#[local] Arguments parse_members : simpl never.

(** The elements of a non-empty array of strings, as written two levels deep
    with a gap of two spaces. *)
Lemma parse_elements_strings (tags : list string) :
  forall (t : string) (f : nat) (rest : string),
    (length tags < f)%nat ->
    parse_elements (S f)
      ("    " +:+ join ("," +:+ newline +:+ "    ")
                    (map QuoteJSONString (t :: tags)) +:+
       newline +:+ "  ]" +:+ rest)
    = Parsed (map VStr (t :: tags)) rest.
Proof.
  induction tags as [|t' tags IH]; intros t f rest Hf;
    (destruct f as [|f]; [simpl in Hf; lia|]);
    rewrite parse_elements_unfold; cbn [map join].
  - rewrite (parse_value_skip (S f) _ (QuoteJSONString t +:+ newline +:+ "  ]" +:+ rest))
      by reflexivity.
    rewrite parse_value_string. reflexivity.
  - rewrite !string_app_assoc.
    rewrite (parse_value_skip (S f) _
               (QuoteJSONString t +:+ "," +:+ newline +:+ "    " +:+
                join ("," +:+ newline +:+ "    ")
                     (QuoteJSONString t' :: map QuoteJSONString tags) +:+
                newline +:+ "  ]" +:+ rest)) by reflexivity.
    rewrite parse_value_string. simpl.
    rewrite (parse_elements_skip (S f) _
               ("    " +:+ join ("," +:+ newline +:+ "    ")
                              (map QuoteJSONString (t' :: tags)) +:+
                newline +:+ "  ]" +:+ rest)) by reflexivity.
    rewrite IH by (simpl in Hf; lia). reflexivity.
Qed.

(** An array of strings as the value of a property of the top-level object. *)
Lemma parse_value_tags (tags : list string) (f : nat) (rest : string) :
  (length tags < f)%nat ->
  parse_value (S f)
    (String " " (serialize "  " "  " (VArr (map VStr tags)) +:+ rest))
  = Parsed (VArr (map VStr tags)) rest.
Proof.
  intros Hf. destruct tags as [|t tags].
  - now apply (parse_value_empty_array f _ ("]" +:+ rest) rest).
  - rewrite (parse_value_open_array f _
               (newline +:+ "    " +:+
                join ("," +:+ newline +:+ "    ")
                     (map QuoteJSONString (t :: tags)) +:+
                newline +:+ "  ]" +:+ rest)).
    + destruct f as [|f]; [simpl in Hf; lia|].
      rewrite (parse_elements_skip (S f) _
                 ("    " +:+ join ("," +:+ newline +:+ "    ")
                                (map QuoteJSONString (t :: tags)) +:+
                  newline +:+ "  ]" +:+ rest)) by reflexivity.
      rewrite parse_elements_strings by (simpl in Hf; simpl; lia).
      reflexivity.
    + cbn [serialize]. rewrite map_map. cbn [serialize map].
      simpl. rewrite !string_app_assoc. reflexivity.
    + destruct tags; reflexivity.
Qed.

Ltac json_norm := repeat (progress (simpl; rewrite ?string_app_assoc)).

Lemma parse_memory (m : Memory.t) (f : nat) (rest : string) :
  (length (Memory.tags m) + 6 < f)%nat ->
  parse_value f (serialize "  " EmptyString (memory_value m) +:+ rest)
  = Parsed (memory_value m) rest.
Proof.
  intros Hf. destruct m as [id content tags source createdAt].
  do 7 (destruct f as [|f]; [simpl in Hf; lia|]).
  cbn [Memory.tags] in Hf.
  unfold memory_value. cbn [Memory.id Memory.content Memory.tags Memory.source Memory.createdAt].
  remember (VArr (map VStr tags)) as tagv eqn:Htagv.
  cbn [serialize map fst snd join].
  change (EmptyString +:+ "  ") with "  ".
  erewrite parse_value_open_object; [| simpl; reflexivity | reflexivity].
  json_norm.
  rewrite parse_members_unfold. json_norm.
  rewrite (parse_value_string_nf _ _ _). json_norm.
  rewrite parse_members_unfold. json_norm.
  rewrite (parse_value_string_nf _ _ _). json_norm.
  rewrite parse_members_unfold. json_norm.
  subst tagv. rewrite (parse_value_tags _ _ _) by lia. json_norm.
  rewrite parse_members_unfold. json_norm.
  rewrite (parse_value_string_nf _ _ _). json_norm.
  rewrite parse_members_unfold. json_norm.
  rewrite (parse_value_string_nf _ _ _). json_norm.
  reflexivity.
Qed.

Lemma join_quoted_length (sep : string) (l : list string) :
  (length l <= String.length (join sep (map QuoteJSONString l)))%nat.
Proof.
  induction l as [|x [|y l] IH]; simpl in *; [lia | lia |].
  rewrite !string_app_length. simpl. lia.
Qed.

Lemma serialize_memory_length (m : Memory.t) :
  (length (Memory.tags m) + 6 <
   String.length (serialize "  " EmptyString (memory_value m)))%nat.
Proof.
  destruct m as [id content tags source createdAt]. unfold memory_value.
  cbn [Memory.id Memory.content Memory.tags Memory.source Memory.createdAt].
  remember (VArr (map VStr tags)) as tagv eqn:Htagv.
  cbn [serialize map fst snd join].
  rewrite !string_app_length. subst tagv.
  assert (length tags <=
          String.length (serialize "  " (EmptyString +:+ "  ") (VArr (map VStr tags))))%nat
    as Htags.
  { destruct tags as [|t tags]; [simpl; lia|].
    cbn [serialize]. rewrite map_map. cbn [serialize].
    change (map (fun x : string => QuoteJSONString x) (t :: tags))
      with (map QuoteJSONString (t :: tags)).
    cbn [map]. rewrite !string_app_length.
    pose proof (join_quoted_length
                  ("," +:+ newline +:+ (EmptyString +:+ "  ") +:+ "  ") (t :: tags)) as Hj.
    cbn [map] in Hj. lia. }
  revert Htags. generalize (String.length (serialize "  " (EmptyString +:+ "  ") (VArr (map VStr tags)))).
  intros n Hn. simpl. lia.
Qed.

(** [JSON.parse(JSON.stringify(memory, null, 2))] is [memory]. *)
Lemma JSON_parse_stringify_memory (m : Memory.t) :
  JSON_parse (JSON_stringify (memory_value m) 2) = Some (memory_value m).
Proof.
  unfold JSON_parse, JSON_stringify, parse_fuel.
  change (repeat_char " " (Nat.min 2 10)) with "  ".
  pose proof (serialize_memory_length m) as Hlen.
  rewrite <- (string_app_nil_r (serialize "  " EmptyString (memory_value m))) at 2.
  rewrite parse_memory by lia. reflexivity.
Qed.

End JsonRoundTrip.

(** *** [JSON.parse] never runs out of fuel

    [JSON_parse] gives its parser twice the length of the text plus one as
    fuel.  Every successful step consumes input, so that is always enough:
    [None] from [JSON_parse] always stands for a syntax error. *)

Section JsonFuel.

Lemma skip_ws_length (s : string) :
  (String.length (skip_ws s) <= String.length s)%nat.
Proof.
  induction s as [|c s IH]; simpl; [lia|].
  destruct (is_json_ws c); simpl; lia.
Qed.

Lemma prepend_Some (p : string) (o : option (string * string)) (x r : string) :
  prepend p o = Some (x, r) -> exists x', o = Some (x', r).
Proof.
  destruct o as [[x' r']|]; simpl; [|discriminate].
  intros H. injection H as _ <-. now exists x'.
Qed.

Lemma parse_chars_length (n : nat) :
  forall (s : string) (hi : option Z) (x r : string),
    (String.length s <= n)%nat ->
    parse_chars hi s = Some (x, r) ->
    (String.length r < String.length s)%nat.
Proof.
  induction n as [|n IH]; intros s hi x r Hn H.
  - destruct s; [discriminate | simpl in Hn; lia].
  - destruct s as [|c s]; [discriminate|]. simpl in Hn. cbn [parse_chars] in H.
    destruct (code c =? 34).
    { injection H as _ <-. simpl. lia. }
    destruct (code c =? 92).
    + destruct s as [|e s1]; [discriminate|].
      destruct (code e =? 117).
      * destruct s1 as [|h1 [|h2 [|h3 [|h4 s2]]]]; try discriminate.
        destruct (hex4 h1 h2 h3 h4); [|discriminate].
        assert (forall hi' p, prepend p (parse_chars hi' s2) = Some (x, r) ->
                              (String.length r < String.length s2)%nat) as Hrec.
        { intros hi' p Hp. apply prepend_Some in Hp as (x' & Hp).
          apply (IH s2 hi' x' r); [simpl in Hn; lia | exact Hp]. }
        assert (String.length r < String.length s2)%nat.
        { destruct hi.
          - destruct (is_low_surrogate z); [now apply Hrec in H|].
            destruct (is_high_surrogate z); now apply Hrec in H.
          - destruct (is_high_surrogate z).
            + apply (IH s2 (Some z) x r); [simpl in Hn; lia | exact H].
            + now apply Hrec in H. }
        simpl. lia.
      * destruct (simple_escape e); [|discriminate].
        apply prepend_Some in H as (x' & H).
        apply (IH s1 None x' r) in H; [|simpl in Hn; lia]. simpl. lia.
    + destruct (code c <? 32); [discriminate|].
      apply prepend_Some in H as (x' & H).
      apply (IH s None x' r) in H; [|lia]. simpl. lia.
Qed.

Lemma span_digits_length (s d r : string) :
  span_digits s = (d, r) ->
  String.length s = (String.length d + String.length r)%nat.
Proof.
  revert d r. induction s as [|c s IH]; intros d r; simpl.
  - intros H. injection H as <- <-. reflexivity.
  - destruct (is_digit c).
    + destruct (span_digits s) as [d' r'] eqn:Hs. intros H.
      injection H as <- <-. simpl. now rewrite (IH d' r' eq_refl).
    + intros H. injection H as <- <-. reflexivity.
Qed.

Lemma strip_prefix_length (p s r : string) :
  strip_prefix p s = Some r ->
  String.length s = (String.length p + String.length r)%nat.
Proof.
  revert s. induction p as [|a p IH]; intros s; simpl.
  - intros H. now injection H as <-.
  - destruct s as [|b s]; [discriminate|].
    destruct (Ascii.eqb a b); [|discriminate].
    intros H. simpl. now rewrite (IH s H).
Qed.

Lemma keyword_length (kw : string) (v v' : value) (s r : string) :
  kw <> EmptyString ->
  keyword kw v s = Parsed v' r -> (String.length r < String.length s)%nat.
Proof.
  intros Hkw. unfold keyword.
  destruct (strip_prefix kw s) as [r'|] eqn:Hp; [|discriminate].
  intros H. injection H as _ <-. apply strip_prefix_length in Hp.
  destruct kw; [congruence | simpl in Hp; lia].
Qed.

Lemma parse_number_length (s r : string) (n : number) :
  parse_number s = Some (n, r) -> (String.length r < String.length s)%nat.
Proof.
  unfold parse_number.
  destruct (match s with
            | String c rest => if Ascii.eqb c "-" then (true, rest) else (false, s)
            | EmptyString => (false, s)
            end) as [neg s1] eqn:Hsign.
  assert (String.length s1 <= String.length s)%nat as H1.
  { destruct s as [|c rest]; [injection Hsign as _ <-; lia|].
    destruct (Ascii.eqb c "-"); injection Hsign as _ <-; simpl; lia. }
  destruct (span_digits s1) as [ip s2] eqn:Hip.
  apply span_digits_length in Hip.
  destruct ip as [|c0 ip']; [discriminate|].
  match goal with |- context [if negb ?b then _ else _] => destruct b end;
    [|discriminate]. cbn [negb].
  match goal with
  | |- context [match ?scrut with Some _ => _ | None => _ end] =>
      destruct scrut as [[fp s3]|] eqn:Hfrac
  end; [|discriminate].
  assert (String.length s3 <= String.length s2)%nat as H3.
  { destruct s2 as [|c rest]; [injection Hfrac as _ <-; lia|].
    destruct (Ascii.eqb c ".").
    - destruct (span_digits rest) as [fp' r'] eqn:Hfp.
      apply span_digits_length in Hfp.
      destruct fp'; [discriminate|]. injection Hfrac as _ <-. simpl. lia.
    - injection Hfrac as _ <-. lia. }
  match goal with
  | |- context [match ?scrut with Some _ => _ | None => _ end] =>
      destruct scrut as [[ex s4]|] eqn:Hexp
  end; [|discriminate].
  assert (String.length s4 <= String.length s3)%nat as H4.
  { destruct s3 as [|c rest]; [injection Hexp as _ <-; lia|].
    destruct (Ascii.eqb c "e" || Ascii.eqb c "E").
    - destruct (match rest with
                | String sg r0 =>
                    if Ascii.eqb sg "-" then (true, r0)
                    else if Ascii.eqb sg "+" then (false, r0)
                    else (false, rest)
                | EmptyString => (false, rest)
                end) as [eneg r1] eqn:Hsg.
      assert (String.length r1 <= String.length rest)%nat.
      { destruct rest as [|sg r0]; [injection Hsg as _ <-; lia|].
        destruct (Ascii.eqb sg "-"); [injection Hsg as _ <-; simpl; lia|].
        destruct (Ascii.eqb sg "+"); injection Hsg as _ <-; simpl; lia. }
      destruct (span_digits r1) as [ep r2] eqn:Hep.
      apply span_digits_length in Hep.
      destruct ep; [discriminate|]. injection Hexp as _ <-. simpl. lia.
    - injection Hexp as _ <-. lia. }
  intros H. injection H as _ <-. simpl in Hip. lia.
Qed.

Lemma parse_consumes (f : nat) :
  (forall s v r, parse_value f s = Parsed v r ->
                 (String.length r < String.length s)%nat) /\
  (forall s vs r, parse_elements f s = Parsed vs r ->
                  (String.length r < String.length s)%nat) /\
  (forall s ms r, parse_members f s = Parsed ms r ->
                  (String.length r < String.length s)%nat).
Proof.
  induction f as [|f (IHv & IHe & IHm)]; [repeat split; intros; discriminate|].
  repeat split.
  - intros s v r H. cbn [parse_value] in H.
    pose proof (skip_ws_length s) as Hs.
    destruct (skip_ws s) as [|c rest]; [discriminate|]. simpl in Hs.
    destruct (code c =? 123).
    { pose proof (skip_ws_length rest) as Hr.
      destruct (skip_ws rest) as [|c' rest']; [discriminate|]. simpl in Hr.
      destruct (code c' =? 125); [injection H as _ <-; lia|].
      destruct (parse_members f rest) as [ms r0| |] eqn:Hm; try discriminate.
      cbn in H. injection H as _ <-. apply IHm in Hm. lia. }
    destruct (code c =? 91).
    { pose proof (skip_ws_length rest) as Hr.
      destruct (skip_ws rest) as [|c' rest']; [discriminate|]. simpl in Hr.
      destruct (code c' =? 93); [injection H as _ <-; lia|].
      destruct (parse_elements f rest) as [vs r0| |] eqn:He; try discriminate.
      cbn in H. injection H as _ <-. apply IHe in He. lia. }
    destruct (code c =? 34).
    { destruct (parse_chars None rest) as [[str r0]|] eqn:Hc; [|discriminate].
      injection H as _ <-.
      apply (parse_chars_length (String.length rest) rest None str r0) in Hc; lia. }
    destruct ((code c =? 45) || is_digit c).
    { destruct (parse_number (String c rest)) as [[n r0]|] eqn:Hn; [|discriminate].
      injection H as _ <-. apply parse_number_length in Hn. simpl in Hn. lia. }
    destruct (code c =? 116);
      [apply keyword_length in H; [simpl in H; lia | discriminate]|].
    destruct (code c =? 102);
      [apply keyword_length in H; [simpl in H; lia | discriminate]|].
    destruct (code c =? 110);
      [apply keyword_length in H; [simpl in H; lia | discriminate]|].
    discriminate.
  - intros s vs r H. cbn [parse_elements] in H.
    destruct (parse_value f s) as [v r0| |] eqn:Hv; try discriminate.
    apply IHv in Hv. cbn in H.
    pose proof (skip_ws_length r0) as Hr.
    destruct (skip_ws r0) as [|c r']; [discriminate|]. simpl in Hr.
    destruct (code c =? 44).
    { destruct (parse_elements f r') as [vs' r''| |] eqn:He; try discriminate.
      cbn in H. injection H as _ <-. apply IHe in He. lia. }
    destruct (code c =? 93); [injection H as _ <-; lia | discriminate].
  - intros s ms r H. cbn [parse_members] in H.
    pose proof (skip_ws_length s) as Hs.
    destruct (skip_ws s) as [|q r0]; [discriminate|]. simpl in Hs.
    destruct (code q =? 34); [|discriminate].
    destruct (parse_chars None r0) as [[key r1]|] eqn:Hc; [|discriminate].
    apply (parse_chars_length (String.length r0) r0 None key r1) in Hc; [|lia].
    pose proof (skip_ws_length r1) as Hr1.
    destruct (skip_ws r1) as [|c1 r2]; [discriminate|]. simpl in Hr1.
    destruct (code c1 =? 58); [|discriminate].
    destruct (parse_value f r2) as [v r3| |] eqn:Hv; try discriminate.
    apply IHv in Hv. cbn in H.
    pose proof (skip_ws_length r3) as Hr3.
    destruct (skip_ws r3) as [|c3 r4]; [discriminate|]. simpl in Hr3.
    destruct (code c3 =? 44).
    { destruct (parse_members f r4) as [ms' r5| |] eqn:Hm; try discriminate.
      cbn in H. injection H as _ <-. apply IHm in Hm. lia. }
    destruct (code c3 =? 125); [injection H as _ <-; lia | discriminate].
Qed.

Lemma keyword_fuel (kw : string) (v : value) (s : string) :
  keyword kw v s <> OutOfFuel.
Proof. unfold keyword. now destruct (strip_prefix kw s). Qed.

Lemma parse_fuel_suffices (f : nat) :
  (forall s, (2 * String.length s < f)%nat -> parse_value f s <> OutOfFuel) /\
  (forall s, (2 * String.length s + 1 < f)%nat -> parse_elements f s <> OutOfFuel) /\
  (forall s, (2 * String.length s + 1 < f)%nat -> parse_members f s <> OutOfFuel).
Proof.
  induction f as [|f (IHv & IHe & IHm)]; [repeat split; intros; lia|].
  destruct (parse_consumes f) as (Cv & Ce & Cm).
  repeat split.
  - intros s Hf. cbn [parse_value].
    pose proof (skip_ws_length s) as Hs.
    destruct (skip_ws s) as [|c rest]; [discriminate|]. simpl in Hs.
    destruct (code c =? 123).
    { destruct (skip_ws rest) as [|c' rest']; [discriminate|].
      destruct (code c' =? 125); [discriminate|].
      specialize (IHm rest).
      destruct (parse_members f rest); cbn; [discriminate | discriminate|].
      exfalso. apply IHm; [lia | reflexivity]. }
    destruct (code c =? 91).
    { destruct (skip_ws rest) as [|c' rest']; [discriminate|].
      destruct (code c' =? 93); [discriminate|].
      specialize (IHe rest).
      destruct (parse_elements f rest); cbn; [discriminate | discriminate|].
      exfalso. apply IHe; [lia | reflexivity]. }
    destruct (code c =? 34);
      [destruct (parse_chars None rest) as [[? ?]|]; discriminate|].
    destruct ((code c =? 45) || is_digit c);
      [destruct (parse_number (String c rest)) as [[? ?]|]; discriminate|].
    destruct (code c =? 116); [apply keyword_fuel|].
    destruct (code c =? 102); [apply keyword_fuel|].
    destruct (code c =? 110); [apply keyword_fuel|].
    discriminate.
  - intros s Hf. cbn [parse_elements].
    specialize (IHv s).
    destruct (parse_value f s) as [v r0| |] eqn:Hv; cbn;
      [|discriminate | exfalso; apply IHv; [lia | reflexivity]].
    apply Cv in Hv.
    pose proof (skip_ws_length r0) as Hr.
    destruct (skip_ws r0) as [|c r']; [discriminate|]. simpl in Hr.
    destruct (code c =? 44).
    { specialize (IHe r').
      destruct (parse_elements f r'); cbn; [discriminate | discriminate|].
      exfalso. apply IHe; [lia | reflexivity]. }
    destruct (code c =? 93); discriminate.
  - intros s Hf. cbn [parse_members].
    pose proof (skip_ws_length s) as Hs.
    destruct (skip_ws s) as [|q r0]; [discriminate|]. simpl in Hs.
    destruct (code q =? 34); [|discriminate].
    destruct (parse_chars None r0) as [[key r1]|] eqn:Hc; [|discriminate].
    apply (parse_chars_length (String.length r0) r0 None key r1) in Hc; [|lia].
    pose proof (skip_ws_length r1) as Hr1.
    destruct (skip_ws r1) as [|c1 r2]; [discriminate|]. simpl in Hr1.
    destruct (code c1 =? 58); [|discriminate].
    specialize (IHv r2).
    destruct (parse_value f r2) as [v r3| |] eqn:Hv; cbn;
      [|discriminate | exfalso; apply IHv; [lia | reflexivity]].
    apply Cv in Hv.
    pose proof (skip_ws_length r3) as Hr3.
    destruct (skip_ws r3) as [|c3 r4]; [discriminate|]. simpl in Hr3.
    destruct (code c3 =? 44).
    { specialize (IHm r4).
      destruct (parse_members f r4); cbn; [discriminate | discriminate|].
      exfalso. apply IHm; [lia | reflexivity]. }
    destruct (code c3 =? 125); discriminate.
Qed.

(** The parser behind [JSON_parse] always ends with a value or a syntax
    error. *)
Lemma JSON_parse_never_out_of_fuel (text : string) :
  parse_value (parse_fuel text) text <> OutOfFuel.
Proof.
  apply (proj1 (parse_fuel_suffices (parse_fuel text))). unfold parse_fuel. lia.
Qed.

(** [JSON_parse] fails exactly on a syntax error or on trailing text. *)
Lemma JSON_parse_None (text : string) :
  JSON_parse text = None <->
  parse_value (parse_fuel text) text = SyntaxError \/
  exists v rest, parse_value (parse_fuel text) text = Parsed v rest /\
                 skip_ws rest <> EmptyString.
Proof.
  unfold JSON_parse. pose proof (JSON_parse_never_out_of_fuel text) as Hfuel.
  destruct (parse_value (parse_fuel text) text) as [v rest| |]; [| |congruence].
  - destruct (skip_ws rest) as [|c r'] eqn:Hrest; split.
    + discriminate.
    + intros [H|(v' & rest' & H & Hne)]; [discriminate|].
      injection H as _ <-. congruence.
    + intros _. right. exists v, rest. split; [reflexivity|]. now rewrite Hrest.
    + reflexivity.
  - split; [now left | reflexivity].
Qed.

End JsonFuel.

(** *** Timestamps: [toISOString] writes a string that denotes the instant *)

Section DateRoundTrip.

Lemma civil_round_trip (z : Z) :
  let '(y, m, d) := civil_from_days z in
  days_from_civil y m d = z /\ 1 <= m <= 12 /\ 1 <= d <= 31.
Proof.
  unfold civil_from_days, days_from_civil. cbv zeta.
  repeat match goal with
         | |- context [if ?b then _ else _] => destruct b eqn:?
         end;
    Z.div_mod_to_equations; lia.
Qed.

Lemma civil_year_range (z : Z) :
  -100000000 <= z <= 100000000 ->
  let '(y, _, _) := civil_from_days z in -999999 <= y <= 999999.
Proof.
  intros Hz. unfold civil_from_days. cbv zeta.
  repeat match goal with
         | |- context [if ?b then _ else _] => destruct b eqn:?
         end;
    Z.div_mod_to_equations; lia.
Qed.

Lemma eqb_code (a b : ascii) : Ascii.eqb a b = (code a =? code b).
Proof.
  destruct (Ascii.eqb_spec a b) as [->|Hne].
  - now rewrite Z.eqb_refl.
  - symmetry. apply Z.eqb_neq. intros H. now apply Hne, code_inj.
Qed.

Lemma pad_length (w : nat) (v : Z) : String.length (pad w v) = w.
Proof. induction w as [|w IH]; simpl; [reflexivity | now rewrite IH]. Qed.

Lemma take_chars_pad (w : nat) (v : Z) (rest : string) :
  take_chars w (pad w v +:+ rest) = pad w v.
Proof. induction w as [|w IH]; simpl; [reflexivity | now rewrite IH]. Qed.

Lemma drop_chars_pad (w : nat) (v : Z) (rest : string) :
  drop_chars w (pad w v +:+ rest) = rest.
Proof. induction w as [|w IH]; simpl; [reflexivity | now rewrite IH]. Qed.

Lemma code_digit (x : Z) : code (chr (48 + x mod 10)) = 48 + x mod 10.
Proof. apply code_chr. pose proof (Z.mod_pos_bound x 10). lia. Qed.

Lemma all_digits_pad (w : nat) (v : Z) : all_digits (pad w v) = true.
Proof.
  induction w as [|w IH]; [reflexivity|].
  cbn [pad all_digits]. rewrite IH. unfold is_digit. rewrite code_digit.
  pose proof (Z.mod_pos_bound (v / 10 ^ Z.of_nat w) 10). 
  apply andb_true_intro; split; [|reflexivity].
  apply andb_true_intro; split; apply Z.leb_le; lia.
Qed.

Lemma digits_value_pad (w : nat) (v acc : Z) :
  digits_value acc (pad w v) = acc * 10 ^ Z.of_nat w + v mod 10 ^ Z.of_nat w.
Proof.
  revert acc. induction w as [|w IH]; intros acc.
  - simpl. rewrite Z.mod_1_r. lia.
  - cbn [pad digits_value]. rewrite IH. unfold digit_val. rewrite code_digit.
    rewrite Nat2Z.inj_succ, Z.pow_succ_r by lia.
    rewrite (Z.mul_comm 10 (10 ^ Z.of_nat w)).
    rewrite (Z.rem_mul_r v (10 ^ Z.of_nat w) 10) by lia.
    ring.
Qed.

Lemma read_digits_pad (w : nat) (v : Z) (rest : string) :
  0 <= v < 10 ^ Z.of_nat w ->
  read_digits w (pad w v +:+ rest) = Some (v, rest).
Proof.
  intros Hv. unfold read_digits.
  rewrite take_chars_pad, drop_chars_pad, pad_length, Nat.eqb_refl, all_digits_pad.
  cbn [andb]. rewrite digits_value_pad, Z.mod_small by lia.
  repeat f_equal; lia.
Qed.

Lemma read_year_iso (y : Z) (rest : string) :
  -999999 <= y <= 999999 ->
  read_year (iso_year y +:+ rest) = Some (y, rest).
Proof.
  intros Hy. unfold iso_year.
  destruct ((0 <=? y) && (y <=? 9999)) eqn:Hr.
  - apply andb_prop in Hr as [H0 H1].
    apply Z.leb_le in H0. apply Z.leb_le in H1.
    rewrite <- (read_digits_pad 4 y rest) by (simpl; lia).
    cbn [pad]. simpl String.append. unfold read_year.
    rewrite !eqb_code, code_digit.
    set (x := y / 10 ^ Z.of_nat 3).
    pose proof (Z.mod_pos_bound x 10).
    change (code "+") with 43. change (code "-") with 45.
    replace (48 + x mod 10 =? 43) with false by (symmetry; apply Z.eqb_neq; lia).
    replace (48 + x mod 10 =? 45) with false by (symmetry; apply Z.eqb_neq; lia).
    reflexivity.
  - assert (y < 0 \/ 9999 < y) as Hcase.
    { destruct (0 <=? y) eqn:H0; simpl in Hr.
      - apply Z.leb_gt in Hr. lia.
      - apply Z.leb_gt in H0. lia. }
    destruct (y <? 0) eqn:Hneg.
    + apply Z.ltb_lt in Hneg.
      change (("-" +:+ pad 6 (Z.abs y)) +:+ rest)
        with (String "-" (pad 6 (Z.abs y) +:+ rest)).
      unfold read_year. simpl Ascii.eqb. cbv match.
      rewrite (read_digits_pad 6 _ rest) by (simpl; lia).
      simpl. replace (Z.abs y =? 0) with false by (symmetry; apply Z.eqb_neq; lia).
      repeat f_equal; lia.
    + apply Z.ltb_ge in Hneg.
      change (("+" +:+ pad 6 (Z.abs y)) +:+ rest)
        with (String "+" (pad 6 (Z.abs y) +:+ rest)).
      unfold read_year. simpl Ascii.eqb. cbv match.
      rewrite (read_digits_pad 6 _ rest) by (simpl; lia).
      repeat f_equal; lia.
Qed.

#[local] Arguments pad : simpl never.
#[local] Arguments read_digits : simpl never.
#[local] Arguments read_year : simpl never.
#[local] Arguments iso_year : simpl never.
#[local] Arguments days_from_civil : simpl never.
#[local] Arguments Z.mul : simpl never.
#[local] Arguments Z.add : simpl never.

Lemma Date_parse_toISOString (t : Z) :
  -8640000000000000 <= t <= 8640000000000000 ->
  Date_parse (Date_toISOString t) = Some t.
Proof.
  intros Ht. unfold Date_toISOString.
  pose proof (civil_round_trip (t / msPerDay)) as Hc.
  pose proof (civil_year_range (t / msPerDay)) as Hy.
  destruct (civil_from_days (t / msPerDay)) as [[y m] d].
  destruct Hc as (Hdays & Hm & Hd).
  assert (-999999 <= y <= 999999) as Hyr
    by (apply Hy; unfold msPerDay; Z.div_mod_to_equations; lia).
  clear Hy. unfold Date_parse.
  rewrite (read_year_iso _ _ Hyr). cbn.
  rewrite (read_digits_pad 2 m _) by (simpl; lia). cbn.
  rewrite (read_digits_pad 2 d _) by (simpl; lia). cbn.
  unfold msPerDay in *.
  rewrite (read_digits_pad 2 _ _) by (simpl; Z.div_mod_to_equations; lia). cbn.
  rewrite (read_digits_pad 2 _ _) by (simpl; Z.div_mod_to_equations; lia). cbn.
  rewrite (read_digits_pad 2 _ _) by (simpl; Z.div_mod_to_equations; lia). cbn.
  rewrite (read_digits_pad 3 _ _) by (simpl; Z.div_mod_to_equations; lia). cbn.
  rewrite Hdays.
  replace ((1 <=? m) && (m <=? 12) && (1 <=? d) && (d <=? 31) &&
           (t mod 86400000 / 3600000 <=? 23) &&
           ((t mod 86400000 / 60000) mod 60 <=? 59) &&
           ((t mod 86400000 / 1000) mod 60 <=? 59)) with true.
  - f_equal. Z.div_mod_to_equations. lia.
  - symmetry. repeat (apply andb_true_intro; split);
      apply Z.leb_le; Z.div_mod_to_equations; lia.
Qed.

End DateRoundTrip.

(* ===================================================================== *)
(** ** Facts about programs and the reference world *)
(* ===================================================================== *)

Section EffectFacts.

Import Effects.

Lemma run_eta {St A : Type} (r : run St A) :
  mkRun (result r) (final r) (trace r) = r.
Proof. now destruct r. Qed.

Lemma interp_bind {St A B : Type} (h : handler St) (m : Prog A)
    (f : A -> Prog B) (st : St) :
  interp h (bind m f) st =
  match result (interp h m st) with
  | Returned a =>
      let r' := interp h (f a) (final (interp h m st)) in
      mkRun (result r') (final r') (trace (interp h m st) ++ trace r')
  | Thrown e => mkRun (Thrown e) (final (interp h m st)) (trace (interp h m st))
  end.
Proof.
  revert st. induction m as [a|e|X c k IH]; intros st; cbn.
  - now rewrite run_eta.
  - reflexivity.
  - destruct (h X c st) as [[x|e] st']; cbn; [|reflexivity].
    rewrite IH. now destruct (result (interp h (k x) st')).
Qed.

Lemma interp_bind_ret {St A B : Type} (h : handler St) (m : Prog A)
    (f : A -> B) (st : St) :
  interp h (bind m (fun a => Ret (f a))) st =
  mkRun match result (interp h m st) with
        | Returned a => Returned (f a)
        | Thrown e => Thrown e
        end
        (final (interp h m st)) (trace (interp h m st)).
Proof.
  rewrite interp_bind. destruct (interp h m st) as [[a|e] st' tr]; cbn;
    [now rewrite app_nil_r | reflexivity].
Qed.

End EffectFacts.

(* ===================================================================== *)
(** ** The claims *)
(* ===================================================================== *)

Section Claims.

Import Effects Worker Spec Examples.

#[local] Arguments JSON_stringify : simpl never.
#[local] Arguments JSON_parse : simpl never.
#[local] Arguments Date_toISOString : simpl never.
#[local] Arguments memory_value : simpl never.
#[local] Arguments memory_key : simpl never.
#[local] Arguments jobs_url : simpl never.
#[local] Arguments saveMemory : simpl never.
#[local] Arguments searchMemories : simpl never.
#[local] Arguments triggerResync : simpl never.
#[local] Arguments Z.add : simpl never.

(** The three outcomes of [triggerResync] once the jobs endpoint has
    answered with a JSON body. *)
Lemma triggerResync_run {St : Type} (h : handler St) (st st' : St) (env : Env)
    (resp : Response.t) (reply : ResyncReply.t) :
  (forall url init, h _ (Fetch url init) st = (Returned resp, st')) ->
  Response.json_body resp = Some reply ->
  interp h (triggerResync env) st =
  mkRun
    (Returned
       (if ResyncReply.success reply
        then ResyncResult.mk true (ResyncReply.result_id reply) None
        else ResyncResult.mk false None
               (Some (str_or (ResyncReply.errors reply ≫= head) "Unknown error"))))
    st'
    [Event (Fetch (jobs_url env)
              (RequestInit.mk "POST"
                 [("Authorization", "Bearer " +:+ CF_API_TOKEN env);
                  ("Content-Type", "application/json")]))
           (Returned resp)].
Proof.
  intros Hfetch Hbody. unfold triggerResync, perform. cbn.
  rewrite Hfetch. cbn. unfold Response_json. rewrite Hbody. cbn.
  now destruct (ResyncReply.success reply).
Qed.

(** C3. [triggerResync] never throws for a failure the provider reports.
    When the endpoint answers with a JSON body: [success = true] gives an
    accepted result carrying the provider's job identifier; [success = false]
    gives a rejected result carrying the first reported error message, or
    ['Unknown error'] when the provider gives no error detail (no [errors],
    an empty list, or an empty first message). *)
Theorem triggerResync_reports_provider_outcome {St : Type} (h : handler St)
    (st st' : St) (env : Env) (resp : Response.t) (reply : ResyncReply.t) :
  (forall url init, h _ (Fetch url init) st = (Returned resp, st')) ->
  Response.json_body resp = Some reply ->
  let r := result (interp h (triggerResync env) st) in
  (ResyncReply.success reply = true ->
     r = Returned (ResyncResult.mk true (ResyncReply.result_id reply) None)) /\
  (ResyncReply.success reply = false ->
     forall msg rest,
       ResyncReply.errors reply = Some (msg :: rest) -> msg <> EmptyString ->
       r = Returned (ResyncResult.mk false None (Some msg))) /\
  (ResyncReply.success reply = false ->
     ResyncReply.errors reply = None \/
     ResyncReply.errors reply = Some [] \/
     (exists rest, ResyncReply.errors reply = Some (EmptyString :: rest)) ->
     r = Returned (ResyncResult.mk false None (Some "Unknown error"))).
Proof.
  intros Hfetch Hbody r. subst r.
  rewrite (triggerResync_run h st st' env resp reply Hfetch Hbody). cbn.
  repeat split.
  - intros ->. reflexivity.
  - intros -> msg rest -> Hmsg. cbn. destruct msg; [congruence | reflexivity].
  - intros -> [-> | [-> | [rest ->]]]; reflexivity.
Qed.

Lemma triggerResync_reports_provider_outcome_witness :
  (forall url init,
      world_handler _ (Fetch url init) world0 =
      (Returned busy,
       mkWorld ∅ (1793603460123 + 1) (shift (ticks world0)) (uuids world0)
               (shift (fetches world0)) (searches world0) (listing world0))) /\
  Response.json_body busy = Some (ResyncReply.mk false None (Some ["index busy"])) /\
  result (run_in world0 (triggerResync env0)) =
  Returned (ResyncResult.mk false None (Some "index busy")).
Proof.
  split; [intros; reflexivity|]. split; [reflexivity|].
  refine (proj1 (proj2 (triggerResync_reports_provider_outcome
                          world_handler world0 _ env0 busy _ _ _))
            _ "index busy" [] _ _).
  - intros; reflexivity.
  - reflexivity.
  - reflexivity.
  - reflexivity.
  - discriminate.
Defined.

Lemma saveMemory_run (w : World) (env : Env) (content : string)
    (tags : option (list string)) (source : option Source)
    (resp : Response.t) (reply : ResyncReply.t) :
  fetches w O = Returned resp ->
  Response.json_body resp = Some reply ->
  let m := created w content tags source in
  let r := run_in w (saveMemory env content tags source) in
  result r = Returned m /\
  bucket (final r) = <[memory_key (Memory.id m) := stored m]> (bucket w) /\
  clock (final r) = clock (tick (tick (tick (tick w)))).
Proof.
  intros Hfetch Hbody m r. subst m r.
  unfold run_in, saveMemory, triggerResync, perform. cbn.
  rewrite Hfetch. cbn. unfold Response_json. rewrite Hbody. cbn.
  destruct (ResyncReply.success reply); cbn; repeat split; reflexivity.
Qed.

(** Reading one key the way the loop of [GET /memories] does. *)
Lemma read_objects_found (w : World) (key : string) (obj : R2Object.t)
    (v : value) :
  bucket w !! key = Some obj ->
  JSON_parse (R2Object.body obj) = Some v ->
  let f := run_in w (read_objects [key] []) in
  result f = Returned [v] /\ clock (final f) = clock (tick w).
Proof.
  intros Hget Hparse. unfold run_in. cbn. rewrite Hget, Hparse. cbn.
  split; reflexivity.
Qed.

Lemma read_objects_missing (w : World) (key : string) :
  bucket w !! key = None ->
  result (run_in w (read_objects [key] [])) = Returned [].
Proof. intros Hget. unfold run_in. cbn. now rewrite Hget. Qed.

(** C1. When the reindex request that follows the durable write is answered
    with a failure ([success = false]), [saveMemory] still returns the new
    Memory, built from the inputs alone; the Memory is stored under its key,
    is read back by that key, and [POST /memories] answers 200 with it. *)
Theorem create_succeeds_when_resync_fails (w : World) (env : Env)
    (content : string) (tags : option (list string)) (source : option Source)
    (resp : Response.t) (reply : ResyncReply.t) :
  str_truthy content = true ->
  fetches w O = Returned resp ->
  Response.json_body resp = Some reply ->
  ResyncReply.success reply = false ->
  let m := created w content tags source in
  let r := run_in w (saveMemory env content tags source) in
  result r = Returned m /\
  Memory.content m = content /\
  bucket (final r) !! memory_key (Memory.id m) = Some (stored m) /\
  result (run_in (final r) (read_objects [memory_key (Memory.id m)] []))
    = Returned [memory_value m] /\
  result (run_in w (post_memories env
                      (CreateMemoryRequest.mk (Some (VStr content)) tags source)))
    = Returned (json (VObj [("success", VBool true);
                            ("memory", memory_value m)]) 200).
Proof.
  intros Hcontent Hfetch Hbody _ m r.
  destruct (saveMemory_run w env content tags source resp reply Hfetch Hbody)
    as (Hres & Hbucket & _).
  fold m r in Hres, Hbucket.
  assert (bucket (final r) !! memory_key (Memory.id m) = Some (stored m)) as Hget
    by (rewrite Hbucket; apply lookup_insert_eq).
  repeat split.
  - exact Hres.
  - exact Hget.
  - apply (read_objects_found (final r) _ (stored m) (memory_value m) Hget).
    apply JSON_parse_stringify_memory.
  - unfold run_in, post_memories. cbn. rewrite Hcontent. cbn.
    rewrite interp_bind. fold (run_in w (saveMemory env content tags source)).
    fold r. rewrite Hres. reflexivity.
Qed.

Lemma create_succeeds_when_resync_fails_witness :
  str_truthy "Always use tabs" = true /\
  fetches world0 O = Returned busy /\
  Response.json_body busy = Some (ResyncReply.mk false None (Some ["index busy"])) /\
  ResyncReply.success (ResyncReply.mk false None (Some ["index busy"])) = false /\
  result (run_in world0 (saveMemory env0 "Always use tabs" (Some ["style"]) None))
  = Returned (Memory.mk "uuid-0" "Always use tabs" ["style"] user
                "2026-11-02T07:11:00.125Z").
Proof.
  repeat (split; [reflexivity|]).
  exact (proj1 (create_succeeds_when_resync_fails world0 env0 "Always use tabs"
                  (Some ["style"]) None busy _ eq_refl eq_refl eq_refl eq_refl)).
Defined.

(** A transport failure is another matter: when the reindex request itself
    cannot be sent or answered, the exception of [fetch] propagates out of
    [saveMemory], after the record has been written. *)
Lemma saveMemory_transport_failure (w : World) (env : Env) (content : string)
    (tags : option (list string)) (source : option Source) (e : exn) :
  fetches w O = Thrown e ->
  let m := created w content tags source in
  let r := run_in w (saveMemory env content tags source) in
  result r = Thrown e /\
  bucket (final r) !! memory_key (Memory.id m) = Some (stored m).
Proof.
  intros Hfetch m r. subst m r.
  unfold run_in, saveMemory, triggerResync, perform. cbn.
  rewrite Hfetch. cbn. split; [reflexivity | apply lookup_insert_eq].
Qed.

(** C4. Creating a Memory and then reading the stored record back by the
    returned id yields a record whose [content], [tags] and [source] equal
    the inputs (with their defaults), which is the Memory that was serialized,
    and whose [createdAt] denotes an instant no later than the time of the
    read. *)
Theorem create_then_fetch_round_trip (w : World) (env : Env) (content : string)
    (tags : option (list string)) (source : option Source)
    (resp : Response.t) (reply : ResyncReply.t) :
  fetches w O = Returned resp ->
  Response.json_body resp = Some reply ->
  time_value (clock (tick (tick w))) ->
  let r := run_in w (saveMemory env content tags source) in
  exists m : Memory.t,
    result r = Returned m /\
    let f := run_in (final r) (read_objects [memory_key (Memory.id m)] []) in
    exists record : value,
      result f = Returned [record] /\
      record = memory_value m /\
      get_prop record "id" = Some (VStr (Memory.id m)) /\
      get_prop record "content" = Some (VStr content) /\
      get_prop record "tags" = Some (VArr (map VStr (default [] tags))) /\
      get_prop record "source" = Some (VStr (Source_string (default user source))) /\
      exists (ts : string) (t0 : Z),
        get_prop record "createdAt" = Some (VStr ts) /\
        Date_parse ts = Some t0 /\
        t0 <= clock (final f).
Proof.
  intros Hfetch Hbody Htime r.
  destruct (saveMemory_run w env content tags source resp reply Hfetch Hbody)
    as (Hres & Hbucket & Hclock).
  fold r in Hres, Hbucket, Hclock.
  set (m := created w content tags source) in *.
  exists m. split; [exact Hres|]. intros f.
  assert (bucket (final r) !! memory_key (Memory.id m) = Some (stored m)) as Hget
    by (rewrite Hbucket; apply lookup_insert_eq).
  destruct (read_objects_found (final r) _ (stored m) (memory_value m) Hget
              (JSON_parse_stringify_memory m)) as (Hf & Hfclock).
  fold f in Hf, Hfclock.
  exists (memory_value m). repeat split; try reflexivity; try exact Hf.
  exists (Memory.createdAt m), (clock (tick (tick w))).
  repeat split.
  - apply Date_parse_toISOString, Htime.
  - rewrite Hfclock.
    change (clock (tick (final r)))
      with (clock (final r) + Z.of_N (ticks (final r) O)).
    rewrite Hclock. unfold tick. cbn [clock ticks]. lia.
Qed.

Lemma create_then_fetch_round_trip_witness :
  fetches world0 O = Returned busy /\
  Response.json_body busy = Some (ResyncReply.mk false None (Some ["index busy"])) /\
  time_value (clock (tick (tick world0))) /\
  exists m : Memory.t,
    result (run_in world0 (saveMemory env0 "Always use tabs" (Some ["style"]) None))
    = Returned m.
Proof.
  assert (time_value (clock (tick (tick world0)))) as Htime
    by (unfold time_value; cbn; lia).
  repeat (split; [first [reflexivity | exact Htime]|]).
  destruct (create_then_fetch_round_trip world0 env0 "Always use tabs"
              (Some ["style"]) None busy _ eq_refl eq_refl Htime) as (m & Hm & _).
  exists m. exact Hm.
Defined.

(** The run of [DELETE /memories/:id] once the jobs endpoint has answered. *)
Lemma delete_memory_run (w : World) (env : Env) (id : string)
    (resp : Response.t) (reply : ResyncReply.t) :
  fetches w O = Returned resp ->
  Response.json_body resp = Some reply ->
  let r := run_in w (delete_memory env id) in
  (exists resync,
      result r = Returned (json (VObj [("success", VBool true);
                                       ("resync", VObj resync)]) 200)) /\
  bucket (final r) = delete (memory_key id) (bucket w) /\
  fetches (final r) = shift (fetches w).
Proof.
  intros Hfetch Hbody r. subst r.
  unfold run_in, delete_memory, triggerResync, perform. cbn.
  rewrite Hfetch. cbn. unfold Response_json. rewrite Hbody. cbn.
  destruct (ResyncReply.success reply); cbn; repeat split; eexists; reflexivity.
Qed.

(** C5. Deleting the same id twice succeeds both times, whether or not the id
    ever existed: after the first call the key is absent from the bucket, a
    read of it finds nothing, and the second call answers [success: true]
    again. *)
Theorem delete_is_idempotent (w : World) (env : Env) (id : string)
    (resp1 resp2 : Response.t) (reply1 reply2 : ResyncReply.t) :
  fetches w 0%nat = Returned resp1 -> Response.json_body resp1 = Some reply1 ->
  fetches w 1%nat = Returned resp2 -> Response.json_body resp2 = Some reply2 ->
  let r1 := run_in w (delete_memory env id) in
  let r2 := run_in (final r1) (delete_memory env id) in
  (exists resync,
      result r1 = Returned (json (VObj [("success", VBool true);
                                        ("resync", VObj resync)]) 200)) /\
  bucket (final r1) !! memory_key id = None /\
  result (run_in (final r1) (perform (BucketGet (memory_key id)))) = Returned None /\
  result (run_in (final r1) (read_objects [memory_key id] [])) = Returned [] /\
  (exists resync,
      result r2 = Returned (json (VObj [("success", VBool true);
                                        ("resync", VObj resync)]) 200)) /\
  bucket (final r2) !! memory_key id = None.
Proof.
  intros Hf1 Hb1 Hf2 Hb2 r1 r2.
  destruct (delete_memory_run w env id resp1 reply1 Hf1 Hb1) as (Hr1 & Hbk1 & Hfe1).
  fold r1 in Hr1, Hbk1, Hfe1.
  assert (bucket (final r1) !! memory_key id = None) as Hgone
    by (rewrite Hbk1; apply lookup_delete_eq).
  assert (fetches (final r1) O = Returned resp2) as Hf2'
    by (rewrite Hfe1; exact Hf2).
  destruct (delete_memory_run (final r1) env id resp2 reply2 Hf2' Hb2)
    as (Hr2 & Hbk2 & _).
  fold r2 in Hr2, Hbk2. clearbody r2. clearbody r1.
  repeat split.
  - exact Hr1.
  - exact Hgone.
  - unfold run_in, perform. cbn. now rewrite Hgone.
  - now apply read_objects_missing.
  - exact Hr2.
  - rewrite Hbk2. apply lookup_delete_eq.
Qed.

Lemma delete_is_idempotent_witness :
  fetches world0 0%nat = Returned busy /\
  Response.json_body busy = Some (ResyncReply.mk false None (Some ["index busy"])) /\
  fetches world0 1%nat = Returned busy /\
  bucket (final (run_in (final (run_in world0 (delete_memory env0 "never-stored")))
                        (delete_memory env0 "never-stored")))
    !! memory_key "never-stored" = None.
Proof.
  repeat (split; [reflexivity|]).
  exact (proj2 (proj2 (proj2 (proj2 (proj2
           (delete_is_idempotent world0 env0 "never-stored" busy busy _ _
              eq_refl eq_refl eq_refl eq_refl)))))).
Defined.

Ltac solve_validation :=
  first
    [ reflexivity
    | discriminate
    | eexists; split; [reflexivity|];
      first [ split; [reflexivity | eexists; reflexivity]
            | eexists; split; reflexivity ] ].

(** C6. Creating with empty or missing content and searching with an empty
    or missing query fail at once with a validation error, on both surfaces:
    status 400 with an [error] on REST (for any falsy [content]: absent,
    [null], the empty string), a tool result flagged [isError] on MCP.  In
    every environment the run makes no call at all, so neither the store nor
    the search provider is reached, and the state is untouched. *)
Theorem validation_fails_before_any_call {St : Type} (h : handler St) (st : St)
    (env : Env) (tools : value) (format : list value -> outcome string)
    (id : rpc_id) (body_content : option value) (content : option string)
    (query : option string) (tags : option (list string))
    (source : option Source) (limitParam : option string)
    (limit : option number) :
  falsy body_content = true ->
  truthy content = false ->
  truthy query = false ->
  let create_rest :=
    interp h (post_memories env
                (CreateMemoryRequest.mk body_content tags source)) st in
  let create_mcp :=
    interp h (handleMcpRequest tools format env
                (save_memory_request id content tags source)) st in
  let search_rest := interp h (get_memories_search env query limitParam) st in
  let search_mcp :=
    interp h (handleMcpRequest tools format env
                (search_memories_request id query limit)) st in
  (exists resp, result create_rest = Returned resp /\ validation_error_http resp) /\
  (exists resp, result create_mcp = Returned resp /\ validation_error_mcp resp) /\
  (exists resp, result search_rest = Returned resp /\ validation_error_http resp) /\
  (exists resp, result search_mcp = Returned resp /\ validation_error_mcp resp) /\
  trace create_rest = [] /\ trace create_mcp = [] /\
  trace search_rest = [] /\ trace search_mcp = [] /\
  final create_rest = st /\ final create_mcp = st /\
  final search_rest = st /\ final search_mcp = st.
Proof.
  intros Hfalsy Hcontent Hquery.
  unfold post_memories, get_memories_search, handleMcpRequest,
    save_memory_request, search_memories_request.
  cbn. rewrite Hfalsy, Hcontent, Hquery. cbn.
  unfold validation_error_http, validation_error_mcp.
  repeat match goal with |- _ /\ _ => split end; solve_validation.
Qed.

Lemma validation_fails_before_any_call_witness :
  falsy (Some (VStr EmptyString)) = true /\
  truthy (Some EmptyString) = false /\
  truthy None = false /\
  trace (run_in world0 (post_memories env0
                          (CreateMemoryRequest.mk (Some (VStr EmptyString)) None None)))
  = [].
Proof.
  repeat (split; [reflexivity|]).
  exact (proj1 (proj2 (proj2 (proj2 (proj2
           (validation_fails_before_any_call world_handler world0 env0 no_tools
              no_format (IdNum (of_Z 1)) (Some (VStr EmptyString))
              (Some EmptyString) None None None None None
              eq_refl eq_refl eq_refl)))))).
Defined.

Lemma post_memories_saves (env : Env) (s : string)
    (tags : option (list string)) (source : option Source) :
  str_truthy s = true ->
  post_memories env (CreateMemoryRequest.mk (Some (VStr s)) tags source) =
  bind (saveMemory env s (Some (default [] tags)) (Some (default user source)))
       (fun memory =>
          Ret (json (VObj [("success", VBool true);
                           ("memory", memory_value memory)]) 200)).
Proof. intros Hs. unfold post_memories. cbn. now rewrite Hs. Qed.

Lemma mcp_save_memory_saves (tools : value)
    (format : list value -> outcome string) (env : Env) (id : rpc_id)
    (s : string) (tags : option (list string)) (source : option Source) :
  str_truthy s = true ->
  handleMcpRequest tools format env (save_memory_request id (Some s) tags source) =
  bind (saveMemory env s (Some (default [] tags)) (Some (default user source)))
       (fun memory =>
          Ret (mcpToolResult id
                 ("Memory saved successfully with ID: " +:+ Memory.id memory)
                 false)).
Proof.
  intros Hs. unfold handleMcpRequest, save_memory_request. cbn. now rewrite Hs.
Qed.

Lemma saveMemory_fields {St : Type} (h : handler St) (st : St) (env : Env)
    (content : string) (tags : option (list string)) (source : option Source) :
  match result (interp h (saveMemory env content tags source) st) with
  | Returned m =>
      Memory.content m = content /\
      Memory.tags m = default [] tags /\
      Memory.source m = default user source
  | Thrown _ => True
  end.
Proof.
  unfold saveMemory, perform. cbn.
  repeat match goal with
         | |- context [h ?X ?c ?s] =>
             destruct (h X c s) as [[?|?] ?]; cbn; try exact I
         end.
  rewrite !interp_bind.
  destruct (result (interp h (triggerResync env) _)); cbn;
    [repeat split; reflexivity | exact I].
Qed.

(** In one environment, [POST /memories] and the [save_memory] tool make the
    same calls and leave the same state; they differ only in how the answer
    is presented. *)
Lemma create_surfaces_same_run {St : Type} (h : handler St) (st : St)
    (env : Env) (tools : value) (format : list value -> outcome string)
    (id : rpc_id) (content : option string)
    (tags : option (list string)) (source : option Source) :
  let rest :=
    interp h (post_memories env
                (CreateMemoryRequest.mk (VStr <$> content) tags source)) st in
  let mcp :=
    interp h (handleMcpRequest tools format env
                (save_memory_request id content tags source)) st in
  let save :=
    interp h (saveMemory env (default EmptyString content)
                (Some (default [] tags)) (Some (default user source))) st in
  trace rest = trace mcp /\
  final rest = final mcp /\
  (truthy content = false ->
     trace rest = [] /\
     (exists resp, result rest = Returned resp /\ validation_error_http resp) /\
     (exists resp, result mcp = Returned resp /\ validation_error_mcp resp)) /\
  (truthy content = true ->
     trace rest = trace save /\ final rest = final save /\
     match result save with
     | Returned m =>
         Memory.tags m = default [] tags /\
         Memory.source m = default user source /\
         result rest = Returned (json (VObj [("success", VBool true);
                                             ("memory", memory_value m)]) 200) /\
         result mcp = Returned (mcpToolResult id
                                  ("Memory saved successfully with ID: " +:+
                                   Memory.id m) false)
     | Thrown e => result rest = Thrown e /\ result mcp = Thrown e
     end).
Proof.
  intros rest mcp save. subst rest mcp save.
  destruct content as [s|]; [destruct (str_truthy s) eqn:Hs|].
  - cbn [fmap option_fmap option_map default truthy].
    rewrite (post_memories_saves env s tags source Hs).
    rewrite (mcp_save_memory_saves tools format env id s tags source Hs).
    rewrite !interp_bind_ret. cbn.
    pose proof (saveMemory_fields h st env s (Some (default [] tags))
                  (Some (default user source))) as Hfields.
    repeat match goal with
           | |- _ /\ _ => split
           | |- _ -> _ => let H := fresh in intros H; try congruence
           end; try reflexivity.
    destruct (result (interp h (saveMemory env s (Some (default [] tags))
                                  (Some (default user source))) st)) as [m|e].
    + destruct Hfields as (_ & Ht & Hsrc).
      repeat split; first [assumption | reflexivity].
    + split; reflexivity.
  - unfold post_memories, handleMcpRequest, save_memory_request. cbn.
    rewrite !Hs. cbn. unfold validation_error_http, validation_error_mcp.
    repeat match goal with
           | |- _ /\ _ => split
           | |- _ -> _ => let H := fresh in intros H; try congruence
           end; solve_validation.
  - unfold post_memories, handleMcpRequest, save_memory_request. cbn.
    unfold validation_error_http, validation_error_mcp.
    repeat match goal with
           | |- _ /\ _ => split
           | |- _ -> _ => let H := fresh in intros H; try discriminate H
           end; solve_validation.
Qed.

(** X26. On arguments of the declared types (a string or no [content], an
    array of strings or no [tags], ['user'], ['auto'] or no [source]), [POST
    /memories] and the [save_memory] tool treat equal content, tags and
    source alike.  Both reject empty or missing content with a validation
    error and leave the bucket alone.  Otherwise both store, under
    the key of the new id, the record [saveMemory] builds from the content
    and the defaults [tags = []], [source = 'user']: the records of the two
    surfaces differ only in the id and the timestamp their worlds supply, and
    coincide when those do. *)
Theorem rest_and_mcp_create_alike (w1 w2 : World) (env : Env) (tools : value)
    (format : list value -> outcome string) (id : rpc_id)
    (content : option string) (tags : option (list string))
    (source : option Source) (resp1 resp2 : Response.t)
    (reply1 reply2 : ResyncReply.t) :
  fetches w1 O = Returned resp1 -> Response.json_body resp1 = Some reply1 ->
  fetches w2 O = Returned resp2 -> Response.json_body resp2 = Some reply2 ->
  let rest :=
    run_in w1 (post_memories env
                 (CreateMemoryRequest.mk (VStr <$> content) tags source)) in
  let mcp :=
    run_in w2 (handleMcpRequest tools format env
                 (save_memory_request id content tags source)) in
  let m1 := created w1 (default EmptyString content) tags source in
  let m2 := created w2 (default EmptyString content) tags source in
  if truthy content then
    result rest = Returned (json (VObj [("success", VBool true);
                                        ("memory", memory_value m1)]) 200) /\
    result mcp = Returned (mcpToolResult id
                             ("Memory saved successfully with ID: " +:+
                              Memory.id m2) false) /\
    bucket (final rest) = <[memory_key (Memory.id m1) := stored m1]> (bucket w1) /\
    bucket (final mcp) = <[memory_key (Memory.id m2) := stored m2]> (bucket w2) /\
    Memory.content m1 = Memory.content m2 /\
    Memory.tags m1 = default [] tags /\ Memory.tags m2 = default [] tags /\
    Memory.source m1 = default user source /\
    Memory.source m2 = default user source /\
    (Memory.id m1 = Memory.id m2 -> Memory.createdAt m1 = Memory.createdAt m2 ->
     stored m1 = stored m2)
  else
    (exists resp, result rest = Returned resp /\ validation_error_http resp) /\
    (exists resp, result mcp = Returned resp /\ validation_error_mcp resp) /\
    bucket (final rest) = bucket w1 /\ bucket (final mcp) = bucket w2 /\
    trace rest = [] /\ trace mcp = [].
Proof.
  intros Hf1 Hb1 Hf2 Hb2 rest mcp m1 m2. subst rest mcp.
  destruct content as [s|]; [destruct (str_truthy s) eqn:Hs|]; cbn [truthy].
  - rewrite Hs. cbn [fmap option_fmap option_map default] in *.
    unfold run_in.
    rewrite (post_memories_saves env s tags source Hs).
    rewrite (mcp_save_memory_saves tools format env id s tags source Hs).
    rewrite !interp_bind_ret. cbn [result final trace].
    destruct (saveMemory_run w1 env s (Some (default [] tags))
                (Some (default user source)) resp1 reply1 Hf1 Hb1)
      as (Hr1 & Hbk1 & _).
    destruct (saveMemory_run w2 env s (Some (default [] tags))
                (Some (default user source)) resp2 reply2 Hf2 Hb2)
      as (Hr2 & Hbk2 & _).
    unfold run_in in Hr1, Hbk1, Hr2, Hbk2.
    rewrite Hr1, Hr2, Hbk1, Hbk2.
    repeat match goal with |- _ /\ _ => split end; try reflexivity.
    intros Hid Hts. clear -Hid Hts. unfold stored, m1, m2, created in *.
    cbn [Memory.id Memory.createdAt Memory.content Memory.tags Memory.source]
      in Hid, Hts |- *.
    now rewrite Hid, Hts.
  - rewrite Hs. unfold run_in, post_memories, handleMcpRequest,
      save_memory_request. cbn. rewrite !Hs. cbn.
    unfold validation_error_http, validation_error_mcp.
    repeat match goal with |- _ /\ _ => split end; solve_validation.
  - unfold run_in, post_memories, handleMcpRequest, save_memory_request. cbn.
    unfold validation_error_http, validation_error_mcp.
    repeat match goal with |- _ /\ _ => split end; solve_validation.
Qed.

Lemma rest_and_mcp_create_alike_witness :
  fetches world0 O = Returned busy /\
  Response.json_body busy = Some (ResyncReply.mk false None (Some ["index busy"])) /\
  bucket (final (run_in world0
                   (post_memories env0
                      (CreateMemoryRequest.mk (Some (VStr "Always use tabs"))
                         None None))))
  = bucket (final (run_in world0
                     (handleMcpRequest no_tools no_format env0
                        (save_memory_request (IdNum (of_Z 7))
                           (Some "Always use tabs") None None)))).
Proof.
  repeat (split; [reflexivity|]).
  pose proof (rest_and_mcp_create_alike world0 world0 env0 no_tools no_format
                (IdNum (of_Z 7)) (Some "Always use tabs") None None busy busy _ _
                eq_refl eq_refl eq_refl eq_refl) as H.
  cbv beta zeta in H. cbn [truthy str_truthy] in H.
  destruct H as (_ & _ & H1 & H2 & _).
  exact (eq_trans H1 (eq_sym H2)).
Defined.

(** The loop of [GET /memories] in any environment whose blob reads answer:
    each listed key is read once, in order; the loop returns the blobs of the
    reads that found an object, and can only throw on a blob that was found
    and is not JSON. *)
Lemma read_objects_run {St : Type} (h : handler St) :
  reads_answer h ->
  forall (objects : list string) (acc : list value) (st : St),
    let r := interp h (read_objects objects acc) st in
    let rds := reads (trace r) in
    match result r with
    | Returned memories =>
        map fst rds = objects /\
        memories = acc ++ omap listed_memory rds /\
        length (omap listed_memory rds) = length (List.filter found rds)
    | Thrown e =>
        e = JsSyntaxError /\
        exists key obj, last rds = Some (key, Some obj) /\
                        JSON_parse (R2Object.body obj) = None
    end.
Proof.
  intros Hreads. induction objects as [|key rest IH]; intros acc st; cbn.
  - repeat split. now rewrite app_nil_r.
  - destruct (Hreads key st) as (o & st' & Hh). rewrite Hh. cbn.
    destruct o as [obj|]; cbn.
    + destruct (JSON_parse (R2Object.body obj)) as [memory|] eqn:Hparse; cbn.
      * specialize (IH (acc ++ [memory]) st'). cbn in IH.
        destruct (result (interp h (read_objects rest (acc ++ [memory])) st'))
          as [memories|e].
        -- destruct IH as (Hkeys & Hmem & Hlen). unfold reads in *.
           repeat split.
           ++ now rewrite Hkeys.
           ++ now rewrite Hmem, <- app_assoc.
           ++ now rewrite Hlen.
        -- destruct IH as (He & k & ob & Hlast & Hbad). split; [exact He|].
           exists k, ob. split; [|exact Hbad].
           unfold reads in *.
           destruct (omap read_of
                       (trace (interp h (read_objects rest (acc ++ [memory])) st')));
             [discriminate | exact Hlast].
      * split; [reflexivity|]. exists key, obj. split; [reflexivity | exact Hparse].
    + specialize (IH acc st'). cbn in IH.
      destruct (result (interp h (read_objects rest acc) st')) as [memories|e].
      * destruct IH as (Hkeys & Hmem & Hlen). unfold reads in *. repeat split.
        -- now rewrite Hkeys.
        -- exact Hmem.
        -- exact Hlen.
      * destruct IH as (He & k & ob & Hlast & Hbad). split; [exact He|].
        exists k, ob. split; [|exact Hbad].
        unfold reads in *.
        destruct (omap read_of (trace (interp h (read_objects rest acc) st')));
          [discriminate | exact Hlast].
Qed.

(** C9. In [GET /memories], a listed key whose blob read finds nothing is
    left out of the answer and never makes the call fail.  In any environment
    where the listing and the blob reads answer: every listed key is read
    once, in order; when the call returns, its [memories] are exactly the
    parsed blobs of the reads that found an object, so there are as many as
    such reads and at most as many as listed keys; when it throws, the last
    read had found an object whose text is not JSON. *)
Theorem list_skips_missing_objects {St : Type} (h : handler St) (st st1 : St)
    (env : Env) (cursor limitParam : option string) (listed : R2Objects.t) :
  (forall opts, h _ (BucketList opts) st = (Returned listed, st1)) ->
  reads_answer h ->
  let r := interp h (list_memories env cursor limitParam) st in
  let rds := reads (trace r) in
  match result r with
  | Returned resp =>
      map fst rds = R2Objects.objects listed /\
      HttpResponse.status resp = 200 /\
      get_prop (HttpResponse.body resp) "memories"
        = Some (VArr (omap listed_memory rds)) /\
      length (omap listed_memory rds) = length (List.filter found rds) /\
      (length (omap listed_memory rds) <= length (R2Objects.objects listed))%nat
  | Thrown e =>
      e = JsSyntaxError /\
      exists key obj, last rds = Some (key, Some obj) /\
                      JSON_parse (R2Object.body obj) = None
  end.
Proof.
  intros Hlist Hreads r rds. subst r rds.
  unfold list_memories, perform. cbn. rewrite Hlist. cbn.
  rewrite interp_bind_ret. cbn.
  pose proof (read_objects_run h Hreads (R2Objects.objects listed) [] st1) as Hrun.
  cbn in Hrun.
  destruct (result (interp h (read_objects (R2Objects.objects listed) []) st1))
    as [memories|e].
  - destruct Hrun as (Hkeys & Hmem & Hlen). cbn in Hmem. subst memories.
    unfold reads in *. repeat split; try assumption.
    rewrite Hlen. apply (f_equal (@length string)) in Hkeys.
    rewrite length_map in Hkeys. rewrite <- Hkeys.
    apply List.filter_length_le.
  - exact Hrun.
Qed.

Lemma list_skips_missing_objects_witness :
  (forall opts,
      world_handler _ (BucketList opts) world1 = (Returned stale_listing, tick world1)) /\
  reads_answer world_handler /\
  exists resp,
    result (run_in world1 (list_memories env0 None None)) = Returned resp /\
    get_prop (HttpResponse.body resp) "memories"
    = Some (VArr [memory_value (Memory.mk "uuid-0" "Always use tabs" ["style"]
                                  user "2026-11-02T07:11:00.125Z")]).
Proof.
  assert (forall opts,
             world_handler _ (BucketList opts) world1
             = (Returned stale_listing, tick world1)) as Hlist
    by (intros; vm_compute; reflexivity).
  assert (reads_answer world_handler) as Hreads
    by (intros key st; eexists _, _; reflexivity).
  split; [exact Hlist|]. split; [exact Hreads|].
  pose proof (list_skips_missing_objects world_handler world1 _ env0 None None
                stale_listing Hlist Hreads) as H.
  cbv zeta in H. fold (run_in world1 (list_memories env0 None None)) in H.
  destruct (result (run_in world1 (list_memories env0 None None)))
    as [resp|e] eqn:Hres.
  - exists resp. split; [reflexivity|].
    destruct H as (_ & _ & H & _). rewrite H.
    vm_compute. reflexivity.
  - vm_compute in Hres. discriminate Hres.
Defined.


Lemma emitted_weaken (tr tr' : list event) (item : SearchItem.t) (out : value) :
  (forall e, In e tr -> In e tr') -> emitted tr item out -> emitted tr' item out.
Proof.
  unfold emitted. intros Hsub. destruct (JSON_parse (textContent item)); [easy|].
  intros (now & Hin & Hout). exists now. split; [now apply Hsub | exact Hout].
Qed.

(** The loop of [searchMemories] in any environment whose clock answers: it
    returns, with one emitted value per item, in order. *)
Lemma normalize_run {St : Type} (h : handler St) :
  clock_answers h ->
  forall (items : list SearchItem.t) (acc : list value) (st : St),
    let r := interp h (normalize items acc) st in
    exists outs,
      result r = Returned (acc ++ outs) /\
      Forall2 (emitted (trace r)) items outs /\
      requested_counts (trace r) = [].
Proof.
  intros Hclock. induction items as [|item rest IH]; intros acc st; cbn.
  - exists []. repeat split; [now rewrite app_nil_r | constructor].
  - destruct (JSON_parse (textContent item)) as [parsed|] eqn:Hparse.
    + destruct (IH (acc ++ [VObj (obj_set (spread parsed) "score"
                                    (VNum (SearchItem.score item)))]) st)
        as (outs & Hres & Hall & Hreq).
      eexists (_ :: outs). repeat split.
      * rewrite Hres. now rewrite <- app_assoc.
      * constructor; [|exact Hall]. unfold emitted. now rewrite Hparse.
      * exact Hreq.
    + cbn. destruct (Hclock st) as (now & st' & Hnow). rewrite Hnow. cbn.
      destruct (IH (acc ++ [synthetic item (textContent item) now]) st')
        as (outs & Hres & Hall & Hreq).
      exists (synthetic item (textContent item) now :: outs). repeat split.
      * unfold synthetic in Hres. rewrite Hres. now rewrite <- app_assoc.
      * constructor.
        -- unfold emitted. rewrite Hparse. exists now. split; [now left | reflexivity].
        -- eapply Forall2_impl; [exact Hall|]. intros it out.
           apply emitted_weaken. intros e He. now right.
      * unfold synthetic in Hreq. exact Hreq.
Qed.

(** X24. The normalizer never raises: in any environment whose clock
    answers, the loop returns one value per provider item.  For each item the
    text is the text-typed chunks in order, joined by newline.  If that text
    parses as a serialized Memory, in particular if it is the blob
    [saveMemory] wrote, the value is that Memory's id, content, tags, source
    and createdAt with the item's score.  If the text does not parse, the
    value is the synthetic record: the provider's file id, the raw text, no
    tags, source ['auto'], the clock reading of that moment as [createdAt],
    and the item's score. *)
Theorem normalizer_recovers_or_degrades {St : Type} (h : handler St) (st : St)
    (items : list SearchItem.t) :
  clock_answers h ->
  let r := interp h (normalize items []) st in
  exists outs,
    result r = Returned outs /\
    Forall2
      (fun item out =>
         textContent item
         = join newline
             (map ContentChunk.text
                (List.filter (fun c => String.eqb (ContentChunk.type c) "text")
                   (SearchItem.content item))) /\
         (forall m, JSON_parse (textContent item) = Some (memory_value m) ->
                    out = scored m (SearchItem.score item)) /\
         (forall m, textContent item = JSON_stringify (memory_value m) 2 ->
                    out = scored m (SearchItem.score item)) /\
         (JSON_parse (textContent item) = None ->
          exists now : Z,
            In (Event DateNow (Returned now)) (trace r) /\
            out = synthetic item (textContent item) now))
      items outs.
Proof.
  intros Hclock r.
  destruct (normalize_run h Hclock items [] st) as (outs & Hres & Hall & _).
  fold r in Hres, Hall. exists outs. split; [exact Hres|].
  eapply Forall2_impl; [exact Hall|]. intros item out Hem.
  assert (forall m, JSON_parse (textContent item) = Some (memory_value m) ->
                    out = scored m (SearchItem.score item)) as Hparsed.
  { intros m Hm. unfold emitted in Hem. rewrite Hm in Hem. rewrite Hem.
    reflexivity. }
  repeat split.
  - exact Hparsed.
  - intros m Htext. apply Hparsed. rewrite Htext.
    apply JSON_parse_stringify_memory.
  - intros Hnone. unfold emitted in Hem. now rewrite Hnone in Hem.
Qed.

Lemma normalizer_recovers_or_degrades_witness :
  clock_answers world_handler /\
  result (run_in world0 (normalize [item_memory; item_plain] []))
  = Returned
      [scored (Memory.mk "id1" "Always use tabs" ["style"] user
                 "2026-11-02T07:11:00.123Z") (Fin 82 (-2));
       synthetic item_plain ("plain" +:+ newline +:+ "more") 1793603460124].
Proof.
  assert (clock_answers world_handler) as Hclock
    by (intros st; eexists _, _; reflexivity).
  split; [exact Hclock|].
  destruct (normalizer_recovers_or_degrades world_handler world0
              [item_memory; item_plain] Hclock) as (outs & Hres & _).
  unfold run_in. rewrite Hres. vm_compute in Hres.
  injection Hres as <-. vm_compute. reflexivity.
Defined.



(** *** The requested result count *)

Lemma normalize_requests_nothing {St : Type} (h : handler St)
    (items : list SearchItem.t) :
  forall (acc : list value) (st : St),
    requested_counts (trace (interp h (normalize items acc) st)) = [].
Proof.
  induction items as [|item rest IH]; intros acc st; cbn; [reflexivity|].
  destruct (JSON_parse (textContent item)); [apply IH|].
  cbn. destruct (h Z DateNow st) as [[now|e] st']; cbn; [apply IH | reflexivity].
Qed.

Lemma searchMemories_requests {St : Type} (h : handler St) (st : St) (env : Env)
    (query : string) (limit : option number) :
  requested_counts (trace (interp h (searchMemories env query limit) st))
  = [Math_min (default (of_Z 5) limit) (of_Z 50)].
Proof.
  unfold searchMemories, perform. cbn.
  destruct (h _ _ st) as [[res|e] st']; cbn; [|reflexivity].
  f_equal. apply (normalize_requests_nothing h (AiSearchResult.data res) [] st').
Qed.

Lemma trace_bind_pure {St A B : Type} (h : handler St) (m : Prog A)
    (k : A -> Prog B) (st : St) :
  (forall a, exists o, k a = match o with Returned b => Ret b | Thrown e => Throw e end) ->
  trace (interp h (bind m k) st) = trace (interp h m st).
Proof.
  intros Hpure. rewrite interp_bind.
  destruct (interp h m st) as [[a|e] st' tr]; cbn; [|reflexivity].
  destruct (Hpure a) as ([b|e] & ->); cbn; apply app_nil_r.
Qed.




Lemma mcp_search_memories_searches (tools : value)
    (format : list value -> outcome string) (env : Env) (id : rpc_id)
    (query : string) (limit : option number) :
  str_truthy query = true ->
  handleMcpRequest tools format env
    (search_memories_request id (Some query) limit) =
  bind (searchMemories env query (Some (num_or limit (of_Z 5))))
       (fun memories =>
          match memories with
          | [] => Ret (mcpToolResult id "No memories found matching the query."
                         false)
          | _ =>
              match format memories with
              | Returned formatted =>
                  Ret (mcpToolResult id
                         ("Found " +:+ pretty (length memories) +:+
                          " relevant memories:" +:+ newline +:+ newline +:+
                          formatted) false)
              | Thrown e => Throw e
              end
          end).
Proof.
  intros Hq. unfold handleMcpRequest, search_memories_request. cbn.
  now rewrite Hq.
Qed.



End Claims.

(* ===================================================================== *)
(** ** Beyond the claims: the middleware, the MCP surface, the other routes *)
(* ===================================================================== *)

Section Coverage.

Import Effects Worker Spec Examples App Observe.

#[local] Arguments JSON_stringify : simpl never.
#[local] Arguments JSON_parse : simpl never.
#[local] Arguments Date_toISOString : simpl never.
#[local] Arguments memory_value : simpl never.
#[local] Arguments memory_key : simpl never.
#[local] Arguments jobs_url : simpl never.
#[local] Arguments saveMemory : simpl never.
#[local] Arguments searchMemories : simpl never.
#[local] Arguments triggerResync : simpl never.
#[local] Arguments Z.add : simpl never.

(** *** The authentication middleware *)

Lemma bearer_prefix (h : string) :
  String.prefix "Bearer " h = true -> h = "Bearer " +:+ drop_chars 7 h.
Proof.
  intros H.
  do 7 (destruct h as [|? h]; [discriminate H|];
        cbn [String.prefix] in H;
        match type of H with
        | (if ?d then _ else _) = true => destruct d as [<-|]; [|discriminate H]
        end).
  reflexivity.
Qed.

(** X1. The middleware lets a request through to the routes in exactly two
    cases: the path is [/health], or the server has a non-empty API key and
    the [Authorization] header is exactly ['Bearer '] followed by that key.
    In every other case it answers by itself, whatever the routes are: 500
    when no API key is configured (so an empty token never matches an empty
    key), 401 otherwise. *)
Theorem auth_passes_exactly_the_bearer_key {R : Type} (respond : HttpResponse.t -> R)
    (env : Env) (path : string) (authHeader : option string) (next : Prog R) :
  let run := auth respond env path authHeader next in
  (path = "/health" -> run = next) /\
  (path <> "/health" ->
     (API_KEY env = EmptyString ->
        run = Ret (respond (json (VObj [("error",
                                         VStr "Server not configured with API key")])
                              500))) /\
     (API_KEY env <> EmptyString ->
        (authHeader = Some ("Bearer " +:+ API_KEY env) -> run = next) /\
        (authHeader <> Some ("Bearer " +:+ API_KEY env) ->
           exists msg,
             run = Ret (respond (json (VObj [("error", VStr msg)]) 401))))).
Proof.
  intros run. subst run. unfold auth. split.
  - intros ->. reflexivity.
  - intros Hpath. destruct (String.eqb_spec path "/health") as [|_]; [contradiction|].
    split.
    + intros ->. reflexivity.
    + intros Hkey. destruct (API_KEY env) as [|c key] eqn:Hk; [contradiction|].
      cbn [str_truthy negb]. split.
      * intros ->. cbn [truthy default from_option id].
        change (String.prefix "Bearer " ("Bearer " +:+ String c key)) with true.
        change (drop_chars 7 ("Bearer " +:+ String c key)) with (String c key).
        cbn [str_truthy negb orb append]. now rewrite String.eqb_refl.
      * intros Hne.
        destruct authHeader as [hd|]; cbn [truthy default from_option id negb orb];
          [|eexists; reflexivity].
        destruct (str_truthy hd); cbn [negb orb]; [|eexists; reflexivity].
        destruct (String.prefix "Bearer " hd) eqn:Hp; cbn [negb];
          [|eexists; reflexivity].
        destruct (String.eqb_spec (drop_chars 7 hd) (String c key)) as [Heq|_];
          cbn [negb]; [|eexists; reflexivity].
        exfalso. apply Hne. f_equal. rewrite (bearer_prefix hd Hp) at 1.
        now rewrite Heq.
Qed.

(** [GET /health] behind the middleware: answered without credentials and
    without a call, whatever the configuration. *)
Lemma health_needs_no_key {St : Type} (h : handler St) (st : St) (env : Env)
    (authHeader : option string) :
  interp h (auth (fun r => r) env "/health" authHeader get_health) st
  = mkRun (Returned (json (VObj [("status", VStr "ok")]) 200)) st [].
Proof. reflexivity. Qed.

(** *** The MCP surface *)

(** What [handleMcpRequest] answers, by method: a result for the five known
    methods, the error -32601 for any other; only [tools/call] can throw or
    make a call. *)
Lemma handleMcpRequest_shape {St : Type} (h : handler St) (st : St)
    (tools : value) (format : list value -> outcome string) (env : Env)
    (request : JsonRpcRequest.t) :
  let id := JsonRpcRequest.id request in
  let method := JsonRpcRequest.method request in
  let r := interp h (handleMcpRequest tools format env request) st in
  match result r with
  | Returned resp =>
      (In method known_methods -> exists v, resp = mcpResult id v) /\
      (~ In method known_methods ->
       resp = mcpError id (-32601) ("Method not found: " +:+ method))
  | Thrown _ => method = "tools/call"
  end /\
  (method <> "tools/call" -> trace r = [] /\ final r = st).
Proof.
  destruct request as [id method params]. cbv zeta.
  unfold handleMcpRequest, known_methods.
  cbn [JsonRpcRequest.id JsonRpcRequest.method JsonRpcRequest.params].
  destruct (String.eqb_spec method "initialize") as [->|N1].
  { cbn. repeat split; [eexists; reflexivity | intros H; exfalso; apply H; cbn; tauto]. }
  destruct (String.eqb_spec method "tools/list") as [->|N2].
  { cbn. repeat split; [eexists; reflexivity | intros H; exfalso; apply H; cbn; tauto]. }
  destruct (String.eqb_spec method "tools/call") as [->|N3].
  { split; [|intros H; now contradiction H].
    assert (forall A (m : Prog A) (f : A -> JsonRpcResponse.t),
               (forall a, exists v, f a = mcpResult id v) ->
               match result (interp h (bind m (fun a => Ret (f a))) st) with
               | Returned resp =>
                   (In "tools/call" known_methods -> exists v, resp = mcpResult id v) /\
                   (~ In "tools/call" known_methods ->
                    resp = mcpError id (-32601) ("Method not found: " +:+ "tools/call"))
               | Thrown _ => "tools/call" = "tools/call"
               end) as Hbind.
    { intros A m f Hf. rewrite interp_bind_ret. cbn [result].
      destruct (result (interp h m st)) as [a|e]; [|reflexivity].
      split; [intros _; apply Hf | intros H; exfalso; apply H; cbn; tauto]. }
    assert (forall text b,
               match result (interp h (Ret (mcpToolResult id text b)) st) with
               | Returned resp =>
                   (In "tools/call" known_methods -> exists v, resp = mcpResult id v) /\
                   (~ In "tools/call" known_methods ->
                    resp = mcpError id (-32601) ("Method not found: " +:+ "tools/call"))
               | Thrown _ => "tools/call" = "tools/call"
               end) as Hret.
    { intros text b. cbn. split;
        [intros _; eexists; reflexivity | intros H; exfalso; apply H; cbn; tauto]. }
    destruct (bool_decide (params ≫= Params.name = Some "save_memory")).
    - match goal with |- context [truthy ?x] => destruct (truthy x) end; cbn [negb].
      + apply Hbind. intros a. eexists. reflexivity.
      + apply Hret.
    - destruct (bool_decide (params ≫= Params.name = Some "search_memories")).
      + match goal with |- context [truthy ?x] => destruct (truthy x) end; cbn [negb];
          [|apply Hret].
        rewrite interp_bind.
        destruct (result (interp h (searchMemories env _ _) st)) as [ms|e];
          [|reflexivity].
        destruct ms as [|m ms]; [apply Hret|].
        destruct (format (m :: ms)) as [text|e]; [apply Hret | reflexivity].
      + apply Hret. }
  destruct (String.eqb_spec method "notifications/initialized") as [->|N4].
  { cbn. repeat split; [eexists; reflexivity | intros H; exfalso; apply H; cbn; tauto]. }
  destruct (String.eqb_spec method "notifications/cancelled") as [->|N5].
  { cbn. repeat split; [eexists; reflexivity | intros H; exfalso; apply H; cbn; tauto]. }
  cbn. repeat split. intros [H|[H|[H|[H|[H|[]]]]]]; congruence.
Qed.

(** X2. [POST /mcp] answers HTTP 200 whatever the JSON-RPC outcome, protocol
    errors and tool errors included.  The body carries [jsonrpc: '2.0'] and
    the id of the request; it has a [result] and no [error] for the five
    known methods, and for any other method no [result] and the error -32601
    ['Method not found: <method>'].  Only [tools/call] can throw, and every
    other method is answered without a single external call. *)
Theorem mcp_endpoint_answers_200_with_the_request_id {St : Type} (h : handler St)
    (st : St) (format : list value -> outcome string) (env : Env)
    (request : JsonRpcRequest.t) :
  let method := JsonRpcRequest.method request in
  let r := interp h (post_mcp format env request) st in
  match result r with
  | Returned resp =>
      let body := HttpResponse.body resp in
      HttpResponse.status resp = 200 /\
      get_prop body "jsonrpc" = Some (VStr "2.0") /\
      get_prop body "id" = Some (id_value (JsonRpcRequest.id request)) /\
      (In method known_methods ->
       is_Some (get_prop body "result") /\ get_prop body "error" = None) /\
      (~ In method known_methods ->
       get_prop body "result" = None /\
       get_prop body "error"
       = Some (VObj [("code", VNum (of_Z (-32601)));
                     ("message", VStr ("Method not found: " +:+ method))]))
  | Thrown _ => method = "tools/call"
  end /\
  (method <> "tools/call" -> trace r = [] /\ final r = st).
Proof.
  intros method r. subst method r. unfold post_mcp.
  rewrite interp_bind_ret. cbn [result trace final].
  destruct (handleMcpRequest_shape h st MCP_TOOLS format env request) as (Hres & Hpure).
  cbv zeta in Hres, Hpure. split; [|exact Hpure].
  destruct (result (interp h (handleMcpRequest MCP_TOOLS format env request) st))
    as [resp|e]; [|exact Hres].
  destruct Hres as (Hknown & Hunknown). cbv zeta.
  destruct (in_dec String.string_dec (JsonRpcRequest.method request) known_methods)
    as [Hin|Hnin].
  - destruct (Hknown Hin) as (v & ->). cbn.
    repeat split; try reflexivity; try (eexists; reflexivity); contradiction.
  - rewrite (Hunknown Hnin). cbn.
    repeat split; try reflexivity; contradiction.
Qed.

Lemma tool_names_MCP_TOOLS : tool_names MCP_TOOLS = ["save_memory"; "search_memories"].
Proof. reflexivity. Qed.

Lemma saveMemory_calls (env : Env) (content : string)
    (tags : option (list string)) (source : option Source) :
  exists k, saveMemory env content tags source = Call RandomUUID k.
Proof. eexists. reflexivity. Qed.

Lemma searchMemories_calls (env : Env) (query : string) (limit : option number) :
  exists req k,
    searchMemories env query limit = Call (AutoragSearch (AI_SEARCH_INSTANCE env) req) k.
Proof. eexists _, _. reflexivity. Qed.

(** The tool branches of [handleMcpRequest]. *)
Lemma mcp_save_memory_call (tools : value) (format : list value -> outcome string)
    (env : Env) (id : rpc_id) (args : option ToolArgs.t) :
  handleMcpRequest tools format env (tool_call id (Some "save_memory") args) =
  if truthy (args ≫= ToolArgs.content) then
    bind (saveMemory env (default EmptyString (args ≫= ToolArgs.content))
            (Some (default [] (args ≫= ToolArgs.tags)))
            (Some (default user (args ≫= ToolArgs.source))))
         (fun memory =>
            Ret (mcpToolResult id
                   ("Memory saved successfully with ID: " +:+ Memory.id memory) false))
  else Ret (mcpToolResult id "Error: content is required" true).
Proof.
  unfold handleMcpRequest, tool_call. cbn.
  now destruct (truthy (args ≫= ToolArgs.content)).
Qed.

Lemma mcp_search_memories_call (tools : value)
    (format : list value -> outcome string) (env : Env) (id : rpc_id)
    (args : option ToolArgs.t) :
  handleMcpRequest tools format env (tool_call id (Some "search_memories") args) =
  if truthy (args ≫= ToolArgs.query) then
    bind (searchMemories env (default EmptyString (args ≫= ToolArgs.query))
            (Some (num_or (args ≫= ToolArgs.limit) (of_Z 5))))
         (fun memories =>
            match memories with
            | [] => Ret (mcpToolResult id "No memories found matching the query."
                           false)
            | _ =>
                match format memories with
                | Returned formatted =>
                    Ret (mcpToolResult id
                           ("Found " +:+ pretty (length memories) +:+
                            " relevant memories:" +:+ newline +:+ newline +:+
                            formatted) false)
                | Thrown e => Throw e
                end
            end)
  else Ret (mcpToolResult id "Error: query is required" true).
Proof.
  unfold handleMcpRequest, tool_call. cbn.
  now destruct (truthy (args ≫= ToolArgs.query)).
Qed.

Lemma mcp_other_tool_call (tools : value) (format : list value -> outcome string)
    (env : Env) (id : rpc_id) (name : option string) (args : option ToolArgs.t) :
  name <> Some "save_memory" -> name <> Some "search_memories" ->
  handleMcpRequest tools format env (tool_call id name args) =
  Ret (mcpToolResult id ("Unknown tool: " +:+ default "undefined" name) true).
Proof.
  intros H1 H2. unfold handleMcpRequest, tool_call. cbn.
  rewrite !bool_decide_eq_false_2; [reflexivity | exact H2 | exact H1].
Qed.

(** X3. The catalogue that [tools/list] returns and the dispatch of
    [tools/call] agree: a call is answered ['Unknown tool: <name>'] (flagged
    [isError], no external call) exactly when its name is missing or is not
    the name of a tool of [MCP_TOOLS]. *)
Theorem unknown_tool_iff_not_advertised (format : list value -> outcome string)
    (env : Env) (id : rpc_id) (name : option string) (args : option ToolArgs.t) :
  handleMcpRequest MCP_TOOLS format env (tool_call id name args)
  = Ret (mcpToolResult id ("Unknown tool: " +:+ default "undefined" name) true)
  <-> (forall n, name = Some n -> ~ In n (tool_names MCP_TOOLS)).
Proof.
  rewrite tool_names_MCP_TOOLS. split.
  - intros Heq n -> [<-|[<-|[]]].
    + rewrite mcp_save_memory_call in Heq.
      destruct (truthy (args ≫= ToolArgs.content)).
      * destruct (saveMemory_calls env (default EmptyString (args ≫= ToolArgs.content))
                    (Some (default [] (args ≫= ToolArgs.tags)))
                    (Some (default user (args ≫= ToolArgs.source)))) as (k & Hk).
        rewrite Hk in Heq. discriminate Heq.
      * discriminate Heq.
    + rewrite mcp_search_memories_call in Heq.
      destruct (truthy (args ≫= ToolArgs.query)).
      * destruct (searchMemories_calls env (default EmptyString (args ≫= ToolArgs.query))
                    (Some (num_or (args ≫= ToolArgs.limit) (of_Z 5))))
          as (req & k & Hk).
        rewrite Hk in Heq. discriminate Heq.
      * discriminate Heq.
  - intros Hnot. apply mcp_other_tool_call.
    + intros ->. apply (Hnot "save_memory" eq_refl). now left.
    + intros ->. apply (Hnot "search_memories" eq_refl). right. now left.
Qed.

(** X4. The handler enforces the [required] list of each tool's schema: a
    call to a tool of [MCP_TOOLS] is turned down with an [isError] result,
    before any external call, exactly when one of the arguments its schema
    requires is missing or empty.  The optional arguments ([tags], [source],
    [limit]) never cause a rejection. *)
Theorem advertised_tool_rejects_iff_required_argument_missing
    (format : list value -> outcome string) (env : Env) (id : rpc_id)
    (tool : value) (n : string) (args : option ToolArgs.t) :
  In tool (elements (Some MCP_TOOLS)) ->
  tool_name tool = Some n ->
  (exists text,
      handleMcpRequest MCP_TOOLS format env (tool_call id (Some n) args)
      = Ret (mcpToolResult id text true))
  <-> (exists k, In k (tool_required tool) /\
                 truthy (args ≫= fun a => string_argument a k) = false).
Proof.
  intros Hin Hname. cbn [elements MCP_TOOLS] in Hin.
  destruct Hin as [<-|[<-|[]]]; injection Hname as <-.
  - rewrite mcp_save_memory_call.
    change (tool_required _) with ["content"].
    destruct (truthy (args ≫= ToolArgs.content)) eqn:Hc; split.
    + intros (text & Heq).
      destruct (saveMemory_calls env (default EmptyString (args ≫= ToolArgs.content))
                  (Some (default [] (args ≫= ToolArgs.tags)))
                  (Some (default user (args ≫= ToolArgs.source)))) as (k & Hk).
      rewrite Hk in Heq. discriminate Heq.
    + intros (k & [<-|[]] & Hk). destruct args; cbn in Hc, Hk; congruence.
    + intros _. exists "content". split; [now left|].
      destruct args; exact Hc.
    + intros _. eexists. reflexivity.
  - rewrite mcp_search_memories_call.
    change (tool_required _) with ["query"].
    destruct (truthy (args ≫= ToolArgs.query)) eqn:Hc; split.
    + intros (text & Heq).
      destruct (searchMemories_calls env (default EmptyString (args ≫= ToolArgs.query))
                  (Some (num_or (args ≫= ToolArgs.limit) (of_Z 5))))
        as (req & k & Hk).
      rewrite Hk in Heq. discriminate Heq.
    + intros (k & [<-|[]] & Hk). destruct args; cbn in Hc, Hk; congruence.
    + intros _. exists "query". split; [now left|].
      destruct args; exact Hc.
    + intros _. eexists. reflexivity.
Qed.

Lemma advertised_tool_rejects_iff_required_argument_missing_witness :
  exists tool,
    In tool (elements (Some MCP_TOOLS)) /\
    tool_name tool = Some "search_memories" /\
    exists text,
      handleMcpRequest MCP_TOOLS no_format env0
        (tool_call (IdStr "a") (Some "search_memories")
           (Some (ToolArgs.mk None None None None (Some (of_Z 3)))))
      = Ret (mcpToolResult (IdStr "a") text true).
Proof.
  eexists. split; [right; left; reflexivity|]. split; [reflexivity|].
  refine (proj2 (advertised_tool_rejects_iff_required_argument_missing no_format env0
                   (IdStr "a") _ "search_memories"
                   (Some (ToolArgs.mk None None None None (Some (of_Z 3)))) _ _) _).
  - right. left. reflexivity.
  - reflexivity.
  - exists "query". split; [now left | reflexivity].
Defined.

(** *** [triggerResync] and [POST /memories/resync] *)

(** [triggerResync] in any environment: one call, whose answer decides. *)
Lemma triggerResync_interp {St : Type} (h : handler St) (st : St) (env : Env) :
  interp h (triggerResync env) st =
  mkRun (resync_outcome (fst (h _ (resync_call env) st)))
        (snd (h _ (resync_call env) st))
        [Event (resync_call env) (fst (h _ (resync_call env) st))].
Proof.
  unfold triggerResync, perform, resync_call. cbn.
  destruct (h _ _ st) as [[resp|e] st']; cbn; [|reflexivity].
  unfold Response_json. destruct (Response.json_body resp) as [reply|]; cbn;
    [|reflexivity].
  now destruct (ResyncReply.success reply).
Qed.

(** X6. [POST /memories/resync] makes exactly one call, the POST to the jobs
    URL of the account and instance with the bearer token, and never touches
    the bucket.  It answers 200 with [success: true] and the job id when the
    provider accepts, 500 with the provider's first error message (or
    ['Unknown error']) when the provider rejects; a request that throws, or
    an answer that is not JSON, surfaces as an exception instead of a JSON
    answer. *)
Theorem resync_route_reports_the_provider {St : Type} (h : handler St)
    (st st' : St) (env : Env) (ans : outcome Response.t) :
  h _ (Fetch (jobs_url env)
         (RequestInit.mk "POST"
            [("Authorization", "Bearer " +:+ CF_API_TOKEN env);
             ("Content-Type", "application/json")])) st = (ans, st') ->
  let r := interp h (post_memories_resync env) st in
  trace r = [Event (Fetch (jobs_url env)
                      (RequestInit.mk "POST"
                         [("Authorization", "Bearer " +:+ CF_API_TOKEN env);
                          ("Content-Type", "application/json")])) ans] /\
  mutations (trace r) = [] /\
  final r = st' /\
  match ans with
  | Returned resp =>
      match Response.json_body resp with
      | Some reply =>
          if ResyncReply.success reply then
            result r = Returned (json (VObj (("success", VBool true) ::
                                             opt_prop "jobId"
                                               (ResyncReply.result_id reply))) 200)
          else
            result r = Returned (json (VObj [("error",
                                              VStr (str_or (ResyncReply.errors reply
                                                            ≫= head)
                                                      "Unknown error"))]) 500)
      | None => result r = Thrown JsSyntaxError
      end
  | Thrown e => result r = Thrown e
  end.
Proof.
  intros Hfetch r. subst r. unfold post_memories_resync.
  rewrite interp_bind, triggerResync_interp. unfold resync_call. rewrite Hfetch.
  cbn [result final trace fst snd].
  destruct ans as [resp|e]; cbn [resync_outcome]; [|repeat split].
  destruct (Response.json_body resp) as [reply|]; [|repeat split].
  destruct (ResyncReply.success reply); cbn; repeat split.
Qed.

Lemma resync_route_reports_the_provider_witness :
  world_handler _ (Fetch (jobs_url env0)
                     (RequestInit.mk "POST"
                        [("Authorization", "Bearer " +:+ CF_API_TOKEN env0);
                         ("Content-Type", "application/json")])) world0
  = (Returned busy,
     mkWorld ∅ (1793603460123 + 1) (shift (ticks world0)) (uuids world0)
             (shift (fetches world0)) (searches world0) (listing world0)) /\
  result (run_in world0 (post_memories_resync env0))
  = Returned (json (VObj [("error", VStr "index busy")]) 500).
Proof.
  split; [reflexivity|].
  exact (proj2 (proj2 (proj2
           (resync_route_reports_the_provider world_handler world0 _ env0
              (Returned busy) eq_refl)))).
Defined.

(** *** [searchMemories] *)

Lemma normalize_trace {St : Type} (h : handler St) (items : list SearchItem.t) :
  forall (acc : list value) (st : St),
    let tr := trace (interp h (normalize items acc) st) in
    forallb is_clock_read tr = true /\ (length tr <= length items)%nat.
Proof.
  induction items as [|item rest IH]; intros acc st; cbn; [split; [reflexivity | lia]|].
  destruct (JSON_parse (textContent item)).
  - destruct (IH (acc ++ [VObj (obj_set (spread v) "score"
                                  (VNum (SearchItem.score item)))]) st) as (H1 & H2).
    split; [exact H1 | lia].
  - cbn. destruct (h Z DateNow st) as [[now|e] st']; cbn.
    + match goal with
      | |- context [interp h (normalize rest ?a) st'] =>
          destruct (IH a st') as (H1 & H2)
      end.
      split; [exact H1 | lia].
    + split; [reflexivity | lia].
Qed.

Lemma clock_reads_mutate_nothing (tr : list event) :
  forallb is_clock_read tr = true -> mutations tr = [] /\ list_requests tr = [].
Proof.
  induction tr as [|[X c ans] tr IH]; cbn; [now split|].
  destruct c; cbn; try discriminate. exact IH.
Qed.

Lemma searchMemories_mutations {St : Type} (h : handler St) (st : St) (env : Env)
    (query : string) (limit : option number) :
  mutations (trace (interp h (searchMemories env query limit) st)) = [].
Proof.
  unfold searchMemories, perform. cbn.
  destruct (h _ _ st) as [[res|e] st']; cbn; [|reflexivity].
  apply clock_reads_mutate_nothing, normalize_trace.
Qed.

(** X7. In any environment, [searchMemories] first sends one request to the
    search instance of the environment, carrying the caller's query
    unchanged, the capped count, [rewrite_query: true] and the score
    threshold 0.1; every later call is a clock read, at most one per item of
    the answer.  It never writes to or deletes from the bucket, and when the
    provider call throws, the exception propagates with no further call. *)
Theorem search_calls_the_provider_once_then_only_the_clock {St : Type}
    (h : handler St) (st : St) (env : Env) (query : string) (limit : option number) :
  let r := interp h (searchMemories env query limit) st in
  let req := AutoragSearchRequest.mk query
               (Math_min (default (of_Z 5) limit) (of_Z 50)) true (Fin 1 (-1)) in
  exists ans rest,
    trace r = Event (AutoragSearch (AI_SEARCH_INSTANCE env) req) ans :: rest /\
    forallb is_clock_read rest = true /\
    mutations (trace r) = [] /\
    match ans with
    | Returned res => (length rest <= length (AiSearchResult.data res))%nat
    | Thrown e => result r = Thrown e /\ rest = []
    end.
Proof.
  intros r req. subst r req. unfold searchMemories, perform. cbn.
  destruct (h _ _ st) as [[res|e] st']; cbn.
  - destruct (normalize_trace h (AiSearchResult.data res) [] st') as (H1 & H2).
    eexists _, _. split; [reflexivity|]. split; [exact H1|].
    split; [apply clock_reads_mutate_nothing, H1 | exact H2].
  - eexists _, _. repeat split.
Qed.

(** X8. The fallback record is built only when [JSON.parse] throws.  A text
    that is valid JSON but is a number, a boolean or [null] (a document that
    reads [42], say) is spread into the result, which spreads nothing: the
    value returned for that item has the item's score and nothing else, no
    [id] and no [content]. *)
Theorem scalar_json_text_yields_only_a_score {St : Type} (h : handler St)
    (st st1 : St) (env : Env) (query : string) (limit : option number)
    (res : AiSearchResult.t) :
  (forall inst req, h _ (AutoragSearch inst req) st = (Returned res, st1)) ->
  clock_answers h ->
  exists memories,
    result (interp h (searchMemories env query limit) st) = Returned memories /\
    Forall2 (fun item memory =>
               forall v, JSON_parse (textContent item) = Some v ->
                         is_scalar v = true ->
                         memory = VObj [("score", VNum (SearchItem.score item))] /\
                         get_prop memory "id" = None /\
                         get_prop memory "content" = None)
            (AiSearchResult.data res) memories.
Proof.
  intros Hsearch Hclock. unfold searchMemories, perform. cbn.
  rewrite Hsearch. cbn.
  destruct (normalize_run h Hclock (AiSearchResult.data res) [] st1)
    as (outs & Hres & Hall & _).
  exists outs. split; [exact Hres|].
  eapply Forall2_impl; [exact Hall|]. intros item out Hem v Hv Hscalar.
  unfold emitted in Hem. rewrite Hv in Hem. subst out.
  destruct v; try discriminate Hscalar; repeat split.
Qed.

Lemma scalar_json_text_yields_only_a_score_witness :
  (forall inst req,
      world_handler _ (AutoragSearch inst req) world_odd
      = (Returned (AiSearchResult.mk "vector_store.search_results.page" "odd"
                     [item_number; item_image]),
         mkWorld ∅ (1793603460123 + 1) (shift (ticks world_odd)) (uuids world_odd)
                 (fetches world_odd) (shift (searches world_odd))
                 (listing world_odd))) /\
  clock_answers world_handler /\
  exists first rest,
    result (run_in world_odd (searchMemories env0 "odd" None))
    = Returned (first :: rest) /\
    first = VObj [("score", VNum (Fin 9 (-1)))].
Proof.
  assert (clock_answers world_handler) as Hclock
    by (intros st; eexists _, _; reflexivity).
  split; [intros; reflexivity|]. split; [exact Hclock|].
  destruct (scalar_json_text_yields_only_a_score world_handler world_odd _ env0
              "odd" None _ (fun inst req => eq_refl) Hclock)
    as (memories & Hres & Hall).
  inversion Hall as [|item m items ms Hitem Hrest]; subst.
  exists m, ms. split; [exact Hres|].
  exact (proj1 (Hitem (VNum (of_Z 42)) eq_refl eq_refl)).
Defined.

Lemma textContent_without_text (item : SearchItem.t) :
  has_text item = false -> textContent item = EmptyString.
Proof.
  unfold has_text, textContent. intros H.
  induction (SearchItem.content item) as [|c cs IH]; [reflexivity|].
  cbn in H |- *. apply orb_false_iff in H as (Hc & Hcs).
  rewrite Hc. now apply IH.
Qed.

(** X9. An item none of whose chunks has type ['text'] (no chunk at all, or
    only other types) has the empty string as its text; [JSON.parse] throws
    on it, so the item becomes the fallback record: the provider's file id
    as [id], an empty [content], the clock reading as [createdAt], and the
    item's score. *)
Theorem item_without_text_becomes_an_empty_record {St : Type} (h : handler St)
    (st st1 : St) (env : Env) (query : string) (limit : option number)
    (res : AiSearchResult.t) :
  (forall inst req, h _ (AutoragSearch inst req) st = (Returned res, st1)) ->
  clock_answers h ->
  let r := interp h (searchMemories env query limit) st in
  exists memories,
    result r = Returned memories /\
    Forall2 (fun item memory =>
               has_text item = false ->
               exists now : Z,
                 In (Event DateNow (Returned now)) (trace r) /\
                 memory = synthetic item EmptyString now /\
                 get_prop memory "id" = Some (VStr (SearchItem.file_id item)) /\
                 get_prop memory "content" = Some (VStr EmptyString))
            (AiSearchResult.data res) memories.
Proof.
  intros Hsearch Hclock. unfold searchMemories, perform. cbn.
  rewrite Hsearch. cbn.
  destruct (normalize_run h Hclock (AiSearchResult.data res) [] st1)
    as (outs & Hres & Hall & _).
  exists outs. split; [exact Hres|].
  eapply Forall2_impl; [exact Hall|]. intros item out Hem Hnone.
  unfold emitted in Hem. rewrite (textContent_without_text item Hnone) in Hem.
  change (JSON_parse EmptyString) with (@None value) in Hem.
  destruct Hem as (now & Hin & ->). exists now.
  split; [now right|]. repeat split.
Qed.

Lemma item_without_text_becomes_an_empty_record_witness :
  (forall inst req,
      world_handler _ (AutoragSearch inst req) world_odd
      = (Returned (AiSearchResult.mk "vector_store.search_results.page" "odd"
                     [item_number; item_image]),
         mkWorld ∅ (1793603460123 + 1) (shift (ticks world_odd)) (uuids world_odd)
                 (fetches world_odd) (shift (searches world_odd))
                 (listing world_odd))) /\
  clock_answers world_handler /\
  exists first second now,
    result (run_in world_odd (searchMemories env0 "odd" None))
    = Returned [first; second] /\
    second = synthetic item_image EmptyString now.
Proof.
  assert (clock_answers world_handler) as Hclock
    by (intros st; eexists _, _; reflexivity).
  split; [intros; reflexivity|]. split; [exact Hclock|].
  destruct (item_without_text_becomes_an_empty_record world_handler world_odd _ env0
              "odd" None _ (fun inst req => eq_refl) Hclock)
    as (memories & Hres & Hall).
  inversion Hall as [|i1 m1 is1 ms1 _ Hrest]; subst.
  inversion Hrest as [|i2 m2 is2 ms2 Hitem Hnil]; subst.
  inversion Hnil; subst.
  destruct (Hitem eq_refl) as (now & _ & Hm & _).
  exists m1, m2, now. split; [exact Hres | exact Hm].
Defined.

(** *** [GET /memories] *)

Lemma blob_reads_mutate_nothing (tr : list event) :
  forallb is_blob_read tr = true -> mutations tr = [] /\ list_requests tr = [].
Proof.
  induction tr as [|[X c ans] tr IH]; cbn; [now split|].
  destruct c; cbn; try discriminate. exact IH.
Qed.

Lemma read_objects_trace {St : Type} (h : handler St) (objects : list string) :
  forall (acc : list value) (st : St),
    forallb is_blob_read (trace (interp h (read_objects objects acc) st)) = true.
Proof.
  induction objects as [|key rest IH]; intros acc st; cbn; [reflexivity|].
  destruct (h _ (BucketGet key) st) as [[[obj|]|e] st']; cbn; [|apply IH|reflexivity].
  destruct (JSON_parse (R2Object.body obj)); cbn; [apply IH | reflexivity].
Qed.

Lemma list_memories_trace {St : Type} (h : handler St) (st : St) (env : Env)
    (cursor limitParam : option string) :
  exists ans rest,
    trace (interp h (list_memories env cursor limitParam) st)
    = Event (BucketList
               (R2ListOptions.mk "memories/"
                  (if truthy limitParam
                   then parseInt10 (default EmptyString limitParam)
                   else of_Z 20)
                  (if truthy cursor then cursor else None))) ans :: rest /\
    forallb is_blob_read rest = true /\
    (forall e, ans = Thrown e ->
               result (interp h (list_memories env cursor limitParam) st) = Thrown e /\
               rest = []).
Proof.
  unfold list_memories, perform. cbn.
  destruct (h _ _ st) as [[listed|e] st']; cbn.
  - rewrite interp_bind_ret. cbn [trace result].
    eexists _, _. split; [reflexivity|].
    split; [apply read_objects_trace | discriminate].
  - eexists _, _. do 2 (split; [reflexivity|]).
    intros e' [= <-]. split; reflexivity.
Qed.

(** X10. In any environment, [GET /memories] first sends one listing
    request, for the prefix ['memories/'], with the caller's [limit] parsed
    as an integer (20 when the parameter is absent or empty) and the caller's
    cursor (none when it is absent or empty); every later call is a blob
    read.  It never writes to or deletes from the bucket, and when the
    listing throws, the exception propagates with no further call. *)
Theorem list_only_lists_and_reads {St : Type} (h : handler St) (st : St)
    (env : Env) (cursor limitParam : option string) :
  let r := interp h (list_memories env cursor limitParam) st in
  let opts := R2ListOptions.mk "memories/"
                (if truthy limitParam
                 then parseInt10 (default EmptyString limitParam)
                 else of_Z 20)
                (if truthy cursor then cursor else None) in
  exists ans rest,
    trace r = Event (BucketList opts) ans :: rest /\
    forallb is_blob_read rest = true /\
    mutations (trace r) = [] /\
    (forall e, ans = Thrown e -> result r = Thrown e /\ rest = []).
Proof.
  intros r opts. subst r opts.
  destruct (list_memories_trace h st env cursor limitParam)
    as (ans & rest & Htr & Hreads & Hthrow).
  exists ans, rest. split; [exact Htr|]. split; [exact Hreads|].
  split; [|exact Hthrow].
  rewrite Htr. cbn. apply blob_reads_mutate_nothing, Hreads.
Qed.

(** X11. The answer of [GET /memories] signals the end of the listing: its
    [cursor] is [null] when the store's listing is not truncated, and the
    store's cursor when it is (the property is left out if the store gives
    none).  The call returns unless a blob that was found is not JSON. *)
Theorem list_hands_back_the_cursor_only_when_truncated {St : Type} (h : handler St)
    (st st1 : St) (env : Env) (cursor limitParam : option string)
    (listed : R2Objects.t) :
  (forall opts, h _ (BucketList opts) st = (Returned listed, st1)) ->
  reads_answer h ->
  let r := interp h (list_memories env cursor limitParam) st in
  match result r with
  | Returned resp =>
      get_prop (HttpResponse.body resp) "cursor"
      = if R2Objects.truncated listed
        then VStr <$> R2Objects.cursor listed
        else Some VNull
  | Thrown e =>
      e = JsSyntaxError /\
      exists key obj, last (reads (trace r)) = Some (key, Some obj) /\
                      JSON_parse (R2Object.body obj) = None
  end.
Proof.
  intros Hlist Hreads r. subst r.
  unfold list_memories, perform. cbn. rewrite Hlist. cbn.
  rewrite interp_bind_ret. cbn.
  pose proof (read_objects_run h Hreads (R2Objects.objects listed) [] st1) as Hrun.
  cbn in Hrun.
  destruct (result (interp h (read_objects (R2Objects.objects listed) []) st1))
    as [memories|e]; [|exact Hrun].
  cbn. destruct (R2Objects.truncated listed); [|reflexivity].
  now destruct (R2Objects.cursor listed).
Qed.

Lemma list_hands_back_the_cursor_only_when_truncated_witness :
  (forall opts,
      world_handler _ (BucketList opts) world_odd
      = (Returned (R2Objects.mk [] true (Some "next-page")), tick world_odd)) /\
  reads_answer world_handler /\
  exists resp,
    result (run_in world_odd (list_memories env0 None None)) = Returned resp /\
    get_prop (HttpResponse.body resp) "cursor" = Some (VStr "next-page").
Proof.
  assert (reads_answer world_handler) as Hreads
    by (intros key st; eexists _, _; reflexivity).
  split; [intros; reflexivity|]. split; [exact Hreads|].
  pose proof (list_hands_back_the_cursor_only_when_truncated world_handler world_odd _
                env0 None None _ (fun opts => eq_refl) Hreads) as H.
  cbv zeta in H. eexists. split; [reflexivity|]. exact H.
Defined.

(** X12. A [limit] parameter that is not a number is not replaced by the
    default: when [parseInt] finds no digits in a non-empty parameter (as in
    [limit=abc]), [GET /memories/search] asks the provider for [NaN] results
    and [GET /memories] lists with the limit [NaN]. *)
Theorem unparsable_limit_is_forwarded_as_NaN {St : Type} (h : handler St) (st : St)
    (env : Env) (q : string) (cursor : option string) (s : string) :
  str_truthy q = true ->
  s <> EmptyString ->
  parseInt10 s = NaN ->
  requested_counts
    (trace (interp h (get_memories_search env (Some q) (Some s)) st)) = [NaN] /\
  map R2ListOptions.limit
    (list_requests (trace (interp h (list_memories env cursor (Some s)) st))) = [NaN].
Proof.
  intros Hq Hs Hnan. destruct s as [|c s]; [contradiction|]. split.
  - unfold get_memories_search. cbn [truthy default from_option id].
    rewrite Hq. cbn [negb str_truthy]. rewrite interp_bind_ret. cbn [trace].
    rewrite searchMemories_requests. cbn [default from_option id].
    now rewrite Hnan.
  - destruct (list_memories_trace h st env cursor (Some (String c s)))
      as (ans & rest & -> & Hr & _).
    destruct (blob_reads_mutate_nothing rest Hr) as (_ & Hl).
    unfold list_requests in Hl |- *. cbn [omap list_omap list_request].
    rewrite Hl. cbn [truthy str_truthy default from_option id map R2ListOptions.limit].
    now rewrite Hnan.
Qed.

Lemma unparsable_limit_is_forwarded_as_NaN_witness :
  str_truthy "tabs" = true /\ "abc" <> EmptyString /\ parseInt10 "abc" = NaN /\
  requested_counts
    (trace (run_in world0 (get_memories_search env0 (Some "tabs") (Some "abc"))))
  = [NaN].
Proof.
  assert ("abc" <> EmptyString) as Hne by discriminate.
  split; [reflexivity|]. split; [exact Hne|]. split; [reflexivity|].
  exact (proj1 (unparsable_limit_is_forwarded_as_NaN world_handler world0 env0 "tabs"
                  None "abc" eq_refl Hne eq_refl)).
Defined.

(** *** [POST /memories] and [saveMemory] *)

(** X13. [POST /memories] reaches [saveMemory] only for a [content] that is
    a non-empty string.  Any other body (no content, [null], an empty
    string, and also a number, a boolean, an array or an object) is answered
    400 ['content is required and must be a string'] without a single
    external call. *)
Theorem post_memories_stores_only_string_content {St : Type} (h : handler St)
    (st : St) (env : Env) (body : CreateMemoryRequest.t) :
  (forall s, CreateMemoryRequest.content body = Some (VStr s) -> s = EmptyString) ->
  let r := interp h (post_memories env body) st in
  result r = Returned (json (VObj [("error",
                                    VStr "content is required and must be a string")])
                         400) /\
  trace r = [] /\ final r = st.
Proof.
  intros Hcontent r. subst r. unfold post_memories.
  destruct (CreateMemoryRequest.content body) as [[| b | n | s | vs | ps]|];
    try (cbn; repeat split; fail).
  - destruct b; cbn; repeat split.
  - destruct (falsy (Some (VNum n))); cbn; repeat split.
  - rewrite (Hcontent s eq_refl). cbn. repeat split.
Qed.

Lemma post_memories_stores_only_string_content_witness :
  (forall s, Some (VNum (of_Z 42)) = Some (VStr s) -> s = EmptyString) /\
  result (run_in world0 (post_memories env0
                           (CreateMemoryRequest.mk (Some (VNum (of_Z 42))) None None)))
  = Returned (json (VObj [("error",
                           VStr "content is required and must be a string")]) 400).
Proof.
  assert (forall s, Some (VNum (of_Z 42)) = Some (VStr s) -> s = EmptyString) as H
    by (intros s Hs; discriminate Hs).
  split; [exact H|].
  exact (proj1 (post_memories_stores_only_string_content world_handler world0 env0
                  (CreateMemoryRequest.mk (Some (VNum (of_Z 42))) None None) H)).
Defined.

Lemma append_cancel_r (a b s : string) : a +:+ s = b +:+ s -> a = b.
Proof.
  revert b. induction a as [|x a IH]; intros [|y b] H.
  - reflexivity.
  - apply (f_equal String.length) in H. rewrite !string_app_length in H. cbn in H. lia.
  - apply (f_equal String.length) in H. rewrite !string_app_length in H. cbn in H. lia.
  - change (String x (a +:+ s) = String y (b +:+ s)) in H.
    injection H as -> H. f_equal. now apply IH.
Qed.

Lemma append_cancel_l (p a b : string) : p +:+ a = p +:+ b -> a = b.
Proof.
  induction p as [|x p IH]; intros H; [exact H|].
  injection H as H. now apply IH.
Qed.

Lemma memory_key_inj (id1 id2 : string) : memory_key id1 = memory_key id2 -> id1 = id2.
Proof.
  unfold memory_key. intros H. apply append_cancel_l in H.
  now apply append_cancel_r in H.
Qed.

(** X14. The key of a Memory, ['memories/' + id + '.json'], identifies it:
    two ids have the same key only if they are the same id, so distinct
    memories never share a blob; and every key lies under the prefix
    ['memories/'] that [GET /memories] lists. *)
Theorem memory_keys_do_not_collide (id1 id2 : string) :
  (memory_key id1 = memory_key id2 <-> id1 = id2) /\
  String.prefix "memories/" (memory_key id1) = true.
Proof.
  split; [split; [apply memory_key_inj | now intros ->] |].
  unfold memory_key. now destruct (id1 +:+ ".json").
Qed.

(** [saveMemory] in the reference world, whatever the jobs endpoint does. *)
Lemma saveMemory_world (w : World) (env : Env) (content : string)
    (tags : option (list string)) (source : option Source) :
  let m := created w content tags source in
  let r := run_in w (saveMemory env content tags source) in
  trace r = [Event RandomUUID (Returned (Memory.id m));
             Event DateNow (Returned (clock (tick (tick w))));
             Event (put_of m) (Returned tt);
             Event (resync_call env) (fetches w O)] /\
  result r = match resync_outcome (fetches w O) with
             | Returned _ => Returned m
             | Thrown e => Thrown e
             end /\
  final r = mkWorld (<[memory_key (Memory.id m) := stored m]> (bucket w))
              (clock (tick (tick (tick (tick w)))))
              (shift (shift (shift (shift (ticks w)))))
              (shift (uuids w)) (shift (fetches w)) (searches w) (listing w).
Proof.
  intros m r. subst m r.
  unfold run_in, saveMemory, triggerResync, perform. cbn.
  destruct (fetches w O) as [resp|e]; cbn; [|repeat split].
  unfold Response_json. destruct (Response.json_body resp) as [reply|]; cbn;
    [|repeat split].
  destruct (ResyncReply.success reply); cbn; repeat split.
Qed.

(** X15. [saveMemory] makes exactly four calls, in this order and whatever
    the jobs endpoint answers: it draws the id, reads the clock, puts the
    record once (under ['memories/<id>.json'], as 2-space JSON, with content
    type [application/json] and the metadata [tags] joined by commas,
    [source] and [createdAt]), and only then posts the reindex request with
    the bearer token.  The put is its only write. *)
Theorem save_writes_once_then_requests_reindex (w : World) (env : Env)
    (content : string) (tags : option (list string)) (source : option Source) :
  let m := created w content tags source in
  let r := run_in w (saveMemory env content tags source) in
  trace r = [Event RandomUUID (Returned (Memory.id m));
             Event DateNow (Returned (clock (tick (tick w))));
             Event (BucketPut (memory_key (Memory.id m))
                      (JSON_stringify (memory_value m) 2)
                      (R2PutOptions.mk "application/json"
                         [("tags", VStr (join "," (Memory.tags m)));
                          ("source", VStr (Source_string (Memory.source m)));
                          ("createdAt", VStr (Memory.createdAt m))]))
                   (Returned tt);
             Event (Fetch (jobs_url env)
                      (RequestInit.mk "POST"
                         [("Authorization", "Bearer " +:+ CF_API_TOKEN env);
                          ("Content-Type", "application/json")]))
                   (fetches w O)] /\
  mutations (trace r) = [memory_key (Memory.id m)].
Proof.
  intros m r.
  destruct (saveMemory_world w env content tags source) as (Htr & _).
  fold m r in Htr. rewrite Htr. split; reflexivity.
Qed.

(** X16. Nothing rolls the write back.  Whatever the jobs endpoint does, the
    record is in the bucket when [saveMemory] ends; when the reindex request
    throws, [saveMemory] throws that exception, when its answer is not JSON,
    [saveMemory] throws a [SyntaxError], and in both cases the caller gets no
    Memory although one was stored; when the answer is JSON, accepted or
    not, [saveMemory] returns the Memory. *)
Theorem save_throws_after_the_write_when_reindex_breaks (w : World) (env : Env)
    (content : string) (tags : option (list string)) (source : option Source) :
  let m := created w content tags source in
  let r := run_in w (saveMemory env content tags source) in
  bucket (final r) !! memory_key (Memory.id m) = Some (stored m) /\
  (forall e, fetches w O = Thrown e -> result r = Thrown e) /\
  (forall resp, fetches w O = Returned resp -> Response.json_body resp = None ->
                result r = Thrown JsSyntaxError) /\
  (forall resp reply, fetches w O = Returned resp ->
                      Response.json_body resp = Some reply ->
                      result r = Returned m).
Proof.
  intros m r.
  destruct (saveMemory_world w env content tags source) as (_ & Hres & Hfin).
  fold m r in Hres, Hfin. rewrite Hres, Hfin. cbn [bucket].
  split; [apply lookup_insert_eq|].
  repeat split.
  - intros e ->. reflexivity.
  - intros resp -> Hbody. cbn. now rewrite Hbody.
  - intros resp reply -> Hbody. cbn. now rewrite Hbody.
Qed.

(** *** [DELETE /memories/:id] *)

Lemma delete_memory_world (w : World) (env : Env) (id : string) :
  let r := run_in w (delete_memory env id) in
  trace r = [Event (BucketDelete (memory_key id)) (Returned tt);
             Event (resync_call env) (fetches w O)] /\
  result r = match resync_outcome (fetches w O) with
             | Returned resync =>
                 Returned
                   (json (VObj [("success", VBool true);
                                ("resync",
                                 VObj (if ResyncResult.success resync
                                       then opt_prop "jobId" (ResyncResult.jobId resync)
                                       else opt_prop "error" (ResyncResult.error resync)))])
                      200)
             | Thrown e => Thrown e
             end /\
  final r = mkWorld (delete (memory_key id) (bucket w))
              (clock (tick (tick w))) (shift (shift (ticks w)))
              (uuids w) (shift (fetches w)) (searches w) (listing w).
Proof.
  intros r. subst r.
  unfold run_in, delete_memory, triggerResync, perform. cbn.
  destruct (fetches w O) as [resp|e]; cbn; [|repeat split].
  unfold Response_json. destruct (Response.json_body resp) as [reply|]; cbn;
    [|repeat split].
  destruct (ResyncReply.success reply); cbn; repeat split.
Qed.

(** X17. Creating and deleting are local to one key: [saveMemory] leaves
    every key other than the new record's as it was, and [DELETE
    /memories/:id] leaves every key other than that id's as it was, whatever
    the jobs endpoint does. *)
Theorem create_and_delete_touch_one_key (w : World) (env : Env)
    (content : string) (tags : option (list string)) (source : option Source)
    (id : string) (k : string) :
  (k <> memory_key (uuids w O) ->
   bucket (final (run_in w (saveMemory env content tags source))) !! k
   = bucket w !! k) /\
  (k <> memory_key id ->
   bucket (final (run_in w (delete_memory env id))) !! k = bucket w !! k).
Proof.
  split; intros Hk.
  - destruct (saveMemory_world w env content tags source) as (_ & _ & Hfin).
    cbv zeta in Hfin. rewrite Hfin. cbn [bucket created Memory.id].
    now apply lookup_insert_ne.
  - destruct (delete_memory_world w env id) as (_ & _ & Hfin).
    cbv zeta in Hfin. rewrite Hfin. cbn [bucket].
    now apply lookup_delete_ne.
Qed.

(** X18. Two creates in a row: the second record is stored under the second
    id drawn; the first record is still there when the two ids differ; and
    when [crypto.randomUUID] repeats an id, the second record silently
    replaces the first, since [saveMemory] never checks that the key is
    free. *)
Theorem later_create_keeps_earlier_unless_ids_repeat (w : World) (env : Env)
    (c1 c2 : string) (t1 t2 : option (list string)) (s1 s2 : option Source) :
  let r1 := run_in w (saveMemory env c1 t1 s1) in
  let r2 := run_in (final r1) (saveMemory env c2 t2 s2) in
  let m1 := created w c1 t1 s1 in
  let m2 := created (final r1) c2 t2 s2 in
  Memory.id m1 = uuids w 0%nat /\
  Memory.id m2 = uuids w 1%nat /\
  bucket (final r2) !! memory_key (Memory.id m2) = Some (stored m2) /\
  (uuids w 0%nat <> uuids w 1%nat ->
   bucket (final r2) !! memory_key (Memory.id m1) = Some (stored m1)) /\
  (uuids w 0%nat = uuids w 1%nat ->
   bucket (final r2) !! memory_key (Memory.id m1) = Some (stored m2)).
Proof.
  intros r1 r2 m1 m2.
  destruct (saveMemory_world w env c1 t1 s1) as (_ & _ & Hfin1).
  fold m1 r1 in Hfin1.
  destruct (saveMemory_world (final r1) env c2 t2 s2) as (_ & _ & Hfin2).
  fold m2 r2 in Hfin2.
  assert (Memory.id m2 = uuids w 1%nat) as Hid2
    by (unfold m2, created; cbn [Memory.id]; now rewrite Hfin1).
  split; [reflexivity|]. split; [exact Hid2|].
  rewrite Hfin2. cbn [bucket]. split; [apply lookup_insert_eq|].
  rewrite Hfin1. cbn [bucket]. split.
  - intros Hne. rewrite lookup_insert_ne.
    + apply lookup_insert_eq.
    + intros Hk. apply memory_key_inj in Hk. rewrite Hid2 in Hk.
      apply Hne. symmetry. exact Hk.
  - intros Heq. change (Memory.id m1) with (uuids w 0%nat).
    rewrite Heq, <- Hid2. apply lookup_insert_eq.
Qed.

(** X19. Deleting the id that a create returned undoes the create: the
    bucket is the one before the create without that key, hence exactly the
    one before the create when the id was fresh, and a read of the key finds
    nothing; this holds whatever the jobs endpoint answers to either call. *)
Theorem delete_undoes_create (w : World) (env : Env) (content : string)
    (tags : option (list string)) (source : option Source) :
  let m := created w content tags source in
  let r1 := run_in w (saveMemory env content tags source) in
  let r2 := run_in (final r1) (delete_memory env (Memory.id m)) in
  bucket (final r2) = delete (memory_key (Memory.id m)) (bucket w) /\
  (bucket w !! memory_key (Memory.id m) = None -> bucket (final r2) = bucket w) /\
  result (run_in (final r2) (read_objects [memory_key (Memory.id m)] []))
  = Returned [].
Proof.
  intros m r1 r2.
  destruct (saveMemory_world w env content tags source) as (_ & _ & Hfin1).
  fold m r1 in Hfin1.
  destruct (delete_memory_world (final r1) env (Memory.id m)) as (_ & _ & Hfin2).
  fold r2 in Hfin2.
  assert (bucket (final r2) = delete (memory_key (Memory.id m)) (bucket w)) as Hb.
  { rewrite Hfin2. cbn [bucket]. rewrite Hfin1. cbn [bucket].
    apply delete_insert_eq. }
  split; [exact Hb|]. split.
  - intros Hfresh. rewrite Hb. now apply delete_id.
  - apply read_objects_missing. rewrite Hb. apply lookup_delete_eq.
Qed.

(** X20. [DELETE /memories/:id] makes exactly two calls: it deletes the key
    of the id, then posts the reindex request.  The object is gone when the
    call ends, also when the reindex request throws or is answered with
    something that is not JSON; the call then throws instead of answering,
    and nothing restores the object. *)
Theorem delete_removes_before_requesting_reindex (w : World) (env : Env)
    (id : string) :
  let r := run_in w (delete_memory env id) in
  trace r = [Event (BucketDelete (memory_key id)) (Returned tt);
             Event (Fetch (jobs_url env)
                      (RequestInit.mk "POST"
                         [("Authorization", "Bearer " +:+ CF_API_TOKEN env);
                          ("Content-Type", "application/json")]))
                   (fetches w O)] /\
  bucket (final r) !! memory_key id = None /\
  (forall e, fetches w O = Thrown e -> result r = Thrown e) /\
  (forall resp, fetches w O = Returned resp -> Response.json_body resp = None ->
                result r = Thrown JsSyntaxError).
Proof.
  intros r. destruct (delete_memory_world w env id) as (Htr & Hres & Hfin).
  fold r in Htr, Hres, Hfin. rewrite Htr, Hres, Hfin. cbn [bucket].
  split; [reflexivity|]. split; [apply lookup_delete_eq|]. split.
  - intros e ->. reflexivity.
  - intros resp -> Hbody. cbn. now rewrite Hbody.
Qed.

(** X21. When the jobs endpoint answers with JSON, [DELETE /memories/:id]
    answers 200 with [success: true] and reports the reindex under
    [resync]: the job id when the provider accepted, and when it rejected
    the provider's first error message, or ['Unknown error'], under
    [error].  A rejected reindex does not make the delete fail. *)
Theorem delete_reports_the_reindex_outcome (w : World) (env : Env) (id : string)
    (resp : Response.t) (reply : ResyncReply.t) :
  fetches w O = Returned resp ->
  Response.json_body resp = Some reply ->
  let r := run_in w (delete_memory env id) in
  exists answer,
    result r = Returned (json answer 200) /\
    get_prop answer "success" = Some (VBool true) /\
    get_prop answer "resync"
    = Some (VObj (if ResyncReply.success reply
                  then opt_prop "jobId" (ResyncReply.result_id reply)
                  else [("error",
                         VStr (str_or (ResyncReply.errors reply ≫= head)
                                 "Unknown error"))])).
Proof.
  intros Hfetch Hbody r. destruct (delete_memory_world w env id) as (_ & Hres & _).
  fold r in Hres. rewrite Hres, Hfetch. cbn. rewrite Hbody.
  eexists. split; [reflexivity|].
  destruct (ResyncReply.success reply); split; reflexivity.
Qed.

Lemma delete_reports_the_reindex_outcome_witness :
  fetches world0 O = Returned busy /\
  Response.json_body busy = Some (ResyncReply.mk false None (Some ["index busy"])) /\
  exists answer,
    result (run_in world0 (delete_memory env0 "uuid-0")) = Returned (json answer 200) /\
    get_prop answer "resync" = Some (VObj [("error", VStr "index busy")]).
Proof.
  split; [reflexivity|]. split; [reflexivity|].
  destruct (delete_reports_the_reindex_outcome world0 env0 "uuid-0" busy _
              eq_refl eq_refl) as (answer & Hres & _ & Hresync).
  exists answer. split; [exact Hres | exact Hresync].
Defined.

(** *** A bucket that fails *)

(** X22. A write that fails stops the operation before any reindex is
    requested.  In an environment whose bucket throws on every put and
    delete, [saveMemory] throws and never returns a Memory (it throws the
    store's exception once the id and the clock have been obtained), [DELETE
    /memories/:id] throws the store's exception after its single call, and
    neither sends a request to the jobs endpoint. *)
Theorem failed_write_requests_no_reindex {St : Type} (h : handler St) (st : St)
    (env : Env) (content : string) (tags : option (list string))
    (source : option Source) (id : string) (e : exn) :
  (forall key body opts s, fst (h _ (BucketPut key body opts) s) = Thrown e) ->
  (forall key s, fst (h _ (BucketDelete key) s) = Thrown e) ->
  let save := interp h (saveMemory env content tags source) st in
  let del := interp h (delete_memory env id) st in
  (exists e', result save = Thrown e') /\
  forallb (fun ev => negb (is_resync ev)) (trace save) = true /\
  (forall uuid now, In (Event RandomUUID (Returned uuid)) (trace save) ->
                    In (Event DateNow (Returned now)) (trace save) ->
                    result save = Thrown e) /\
  result del = Thrown e /\
  trace del = [Event (BucketDelete (memory_key id)) (Thrown e)].
Proof.
  intros Hput Hdel save del. subst save del.
  split; [|split; [|split]].
  - unfold saveMemory, perform. cbn.
    destruct (h _ RandomUUID st) as [[uuid|e1] s1]; cbn; [|eexists; reflexivity].
    destruct (h _ DateNow s1) as [[now|e2] s2]; cbn; [|eexists; reflexivity].
    match goal with
    | |- context [h unit (BucketPut ?k ?b ?o) s2] =>
        pose proof (Hput k b o s2) as Hp;
        destruct (h unit (BucketPut k b o) s2) as [ans s3]
    end.
    cbn in Hp. subst ans. cbn. eexists. reflexivity.
  - unfold saveMemory, perform. cbn.
    destruct (h _ RandomUUID st) as [[uuid|e1] s1]; cbn; [|reflexivity].
    destruct (h _ DateNow s1) as [[now|e2] s2]; cbn; [|reflexivity].
    match goal with
    | |- context [h unit (BucketPut ?k ?b ?o) s2] =>
        pose proof (Hput k b o s2) as Hp;
        destruct (h unit (BucketPut k b o) s2) as [ans s3]
    end.
    cbn in Hp. subst ans. reflexivity.
  - intros uuid0 now0. unfold saveMemory, perform. cbn.
    destruct (h _ RandomUUID st) as [[uuid|e1] s1]; cbn.
    + destruct (h _ DateNow s1) as [[now|e2] s2]; cbn.
      * match goal with
        | |- context [h unit (BucketPut ?k ?b ?o) s2] =>
            pose proof (Hput k b o s2) as Hp;
            destruct (h unit (BucketPut k b o) s2) as [ans s3]
        end.
        cbn in Hp. subst ans. reflexivity.
      * intros _ [H|[H|[]]]; inversion H.
    + intros [H|[]]; inversion H.
  - unfold delete_memory, perform. cbn.
    pose proof (Hdel (memory_key id) st) as Hd.
    destruct (h unit (BucketDelete (memory_key id)) st) as [ans s1].
    cbn in Hd. subst ans. split; reflexivity.
Qed.

Lemma failed_write_requests_no_reindex_witness :
  (forall key body opts s,
      fst (broken_store _ (BucketPut key body opts) s) = Thrown store_down) /\
  (forall key s, fst (broken_store _ (BucketDelete key) s) = Thrown store_down) /\
  result (interp broken_store (saveMemory env0 "Always use tabs" None None) world0)
  = Thrown store_down.
Proof.
  split; [reflexivity|]. split; [reflexivity|].
  refine (proj1 (proj2 (proj2
            (failed_write_requests_no_reindex broken_store world0 env0
               "Always use tabs" None None "uuid-0" store_down
               (fun _ _ _ _ => eq_refl) (fun _ _ => eq_refl))))
            "uuid-0" (clock (tick (tick world0))) _ _).
  - left. reflexivity.
  - right. left. reflexivity.
Defined.

(** *** Routes that only read *)

(** In the reference world only a put or a delete changes the bucket. *)
Lemma world_bucket_frame {A : Type} (p : Prog A) :
  forall w : World,
    mutations (trace (run_in w p)) = [] -> bucket (final (run_in w p)) = bucket w.
Proof.
  unfold run_in. induction p as [a|e|X c k IH]; intros w; cbn; [reflexivity..|].
  destruct c; cbn; try discriminate;
    repeat match goal with
           | |- context [match ?o with Returned _ => _ | Thrown _ => _ end] =>
               destruct o eqn:?; cbn
           end;
    try reflexivity; try discriminate; intros Hm; now rewrite (IH _ _ Hm).
Qed.

(** X23. Searching, listing and requesting a reindex leave the bucket as it
    was: after [GET /memories/search], the [search_memories] tool, [GET
    /memories] or [POST /memories/resync], with any parameters and whatever
    the provider, the store's listing and the jobs endpoint answer, the
    bucket holds what it held before. *)
Theorem reading_routes_leave_the_bucket_alone (w : World) (env : Env)
    (format : list value -> outcome string) (id : rpc_id)
    (q cursor limitParam : option string) (limit : option number) :
  bucket (final (run_in w (get_memories_search env q limitParam))) = bucket w /\
  bucket (final (run_in w (handleMcpRequest MCP_TOOLS format env
                             (search_memories_request id q limit)))) = bucket w /\
  bucket (final (run_in w (list_memories env cursor limitParam))) = bucket w /\
  bucket (final (run_in w (post_memories_resync env))) = bucket w.
Proof.
  repeat split; apply world_bucket_frame; unfold run_in.
  - unfold get_memories_search. destruct (truthy q); cbn [negb]; [|reflexivity].
    rewrite interp_bind_ret. cbn [trace]. apply searchMemories_mutations.
  - destruct q as [query|]; [destruct (str_truthy query) eqn:Hq|].
    + rewrite (mcp_search_memories_searches MCP_TOOLS format env id query limit Hq).
      rewrite (trace_bind_pure world_handler _ _ w).
      * apply searchMemories_mutations.
      * intros [|v vs]; [eexists (Returned _); reflexivity|].
        destruct (format (v :: vs)) as [text|e];
          [eexists (Returned _) | eexists (Thrown _)]; reflexivity.
    + unfold handleMcpRequest, search_memories_request. cbn. rewrite Hq. reflexivity.
    + reflexivity.
  - destruct (list_memories_trace world_handler w env cursor limitParam)
      as (ans & rest & -> & Hr & _).
    cbn. apply blob_reads_mutate_nothing, Hr.
  - unfold post_memories_resync. rewrite interp_bind, triggerResync_interp.
    cbn [result final trace].
    destruct (resync_outcome _) as [res|e]; [|reflexivity].
    cbn. now destruct (ResyncResult.success res).
Qed.

End Coverage.

(* ===================================================================== *)
(** ** What the [search_memories] tool prints *)
(* ===================================================================== *)

Section Rendering.

Import Effects Worker Spec Examples App Observe Render.

#[local] Arguments JSON_stringify : simpl never.
#[local] Arguments JSON_parse : simpl never.
#[local] Arguments Date_toISOString : simpl never.
#[local] Arguments memory_value : simpl never.
#[local] Arguments searchMemories : simpl never.
#[local] Arguments toFixed1 : simpl never.
#[local] Arguments double_mul : simpl never.
#[local] Arguments to_double : simpl never.
#[local] Arguments round64 : simpl never.

Lemma element_strings_of_strings (tags : list string) :
  Raw.element_strings (map VStr tags) = Some tags.
Proof.
  induction tags as [|s tags IH]; [reflexivity|].
  cbn. now rewrite IH.
Qed.

Lemma obj_get_set_other (props : list (string * value)) (k k' : string) (v : value) :
  String.eqb k k' = false ->
  obj_get (obj_set props k v) k' = obj_get props k'.
Proof.
  intros Hk. induction props as [|[k0 v0] props IH]; cbn.
  - now rewrite Hk.
  - destruct (String.eqb k0 k) eqn:H0; cbn.
    + apply String.eqb_eq in H0. subst k0. now rewrite Hk.
    + now rewrite IH.
Qed.

(** The callback throws nothing but a [TypeError]. *)
Lemma format_memory_throws_TypeError (i : nat) (m : value) (e : exn) :
  format_memory i m = Thrown e -> e = JsTypeError.
Proof.
  assert (forall tags e', tags_suffix tags = Thrown e' -> e' = JsTypeError) as Htags.
  { intros tags e'. unfold tags_suffix.
    destruct tags as [[ | | |s|[|v vs]|props]|]; try congruence.
    - destruct (str_truthy s); congruence.
    - destruct (Raw.element_strings (v :: vs)); congruence.
    - destruct (ToNumber (obj_get props "length")) as [n|]; [|congruence].
      destruct (double_positive n); congruence. }
  unfold format_memory.
  destruct (tags_suffix (Raw.member (Some m) "tags")) as [tags|e'] eqn:Ht.
  - destruct (template_string (Raw.member (Some m) "content")); [|congruence].
    destruct (ToNumber (Raw.member (Some m) "score")); congruence.
  - intros [= <-]. exact (Htags _ _ Ht).
Qed.

Lemma format_from_throws_TypeError (memories : list value) :
  forall (i : nat) (e : exn),
    format_from i memories = Thrown e -> e = JsTypeError.
Proof.
  induction memories as [|m rest IH]; intros i e; cbn; [discriminate|].
  destruct (format_memory i m) as [line|e'] eqn:Hm.
  - destruct (format_from (S i) rest) as [lines|e''] eqn:Hrest; [discriminate|].
    intros [= <-]. exact (IH _ _ Hrest).
  - intros [= <-]. exact (format_memory_throws_TypeError _ _ _ Hm).
Qed.

Lemma format_memories_throws_TypeError (memories : list value) (e : exn) :
  format_memories memories = Thrown e -> e = JsTypeError.
Proof.
  unfold format_memories.
  destruct (format_from O memories) as [lines|e'] eqn:H; [discriminate|].
  intros [= <-]. exact (format_from_throws_TypeError _ _ _ H).
Qed.

(** An entry without [tags] makes the whole rendering throw. *)
Lemma format_from_entry_without_tags (memories : list value) (m : value) :
  In m memories ->
  tags_suffix (Raw.member (Some m) "tags") = Thrown JsTypeError ->
  forall i, format_from i memories = Thrown JsTypeError.
Proof.
  intros Hin Htags. induction memories as [|m' rest IH]; [contradiction|].
  intros i. cbn. destruct Hin as [->|Hin].
  - unfold format_memory. now rewrite Htags.
  - destruct (format_memory i m') as [line|e] eqn:Hm.
    + now rewrite (IH Hin).
    + now rewrite (format_memory_throws_TypeError _ _ _ Hm).
Qed.

(** What the tool answers once [searchMemories] has returned. *)
Lemma mcp_search_result {St : Type} (h : handler St) (st : St) (env : Env)
    (rid : rpc_id) (query : string) (limit : option number)
    (memories : list value) :
  str_truthy query = true ->
  result (interp h (searchMemories env query (Some (num_or limit (of_Z 5)))) st)
  = Returned memories ->
  result (interp h (handleMcpRequest MCP_TOOLS format_memories env
                      (search_memories_request rid (Some query) limit)) st)
  = match memories with
    | [] => Returned (mcpToolResult rid "No memories found matching the query." false)
    | _ =>
        match format_memories memories with
        | Returned formatted =>
            Returned (mcpToolResult rid
                        ("Found " +:+ pretty (length memories) +:+
                         " relevant memories:" +:+ newline +:+ newline +:+
                         formatted) false)
        | Thrown e => Thrown e
        end
    end.
Proof.
  intros Hq Hres.
  rewrite (mcp_search_memories_searches MCP_TOOLS format_memories env rid query
             limit Hq).
  rewrite interp_bind, Hres. cbn [result].
  destruct memories as [|m ms]; [reflexivity|].
  now destruct (format_memories (m :: ms)).
Qed.

(** What [searchMemories] returns when the provider answers. *)
Lemma searchMemories_emits {St : Type} (h : handler St) (st st1 : St) (env : Env)
    (query : string) (limit : option number) (res : AiSearchResult.t) :
  (forall inst req, h _ (AutoragSearch inst req) st = (Returned res, st1)) ->
  clock_answers h ->
  exists memories tr,
    result (interp h (searchMemories env query limit) st) = Returned memories /\
    Forall2 (emitted tr) (AiSearchResult.data res) memories.
Proof.
  intros Hsearch Hclock. unfold searchMemories, perform. cbn. rewrite Hsearch. cbn.
  destruct (normalize_run h Hclock (AiSearchResult.data res) [] st1)
    as (outs & Hres & Hall & _).
  exists outs, (trace (interp h (normalize (AiSearchResult.data res) []) st1)).
  split; [exact Hres | exact Hall].
Qed.

(** X5. The answer of the [search_memories] tool to a non-empty query, when
    the provider answers.  With no item it is ['No memories found matching
    the query.'].  Otherwise the entries of [searchMemories], as many as the
    provider's items, go through the renderer: when it returns, the answer
    is ['Found n relevant memories:'], an empty line and the rendered lines;
    when it throws, which can only be a [TypeError], the tool throws it and
    answers nothing.  No answer is flagged [isError]. *)
Theorem mcp_search_reports_the_number_found {St : Type} (h : handler St)
    (st st1 : St) (env : Env) (rid : rpc_id) (query : string)
    (limit : option number) (res : AiSearchResult.t) :
  str_truthy query = true ->
  (forall inst req, h _ (AutoragSearch inst req) st = (Returned res, st1)) ->
  clock_answers h ->
  let r := interp h (handleMcpRequest MCP_TOOLS format_memories env
                       (search_memories_request rid (Some query) limit)) st in
  let n := length (AiSearchResult.data res) in
  exists memories,
    result (interp h (searchMemories env query (Some (num_or limit (of_Z 5)))) st)
    = Returned memories /\
    length memories = n /\
    (n = 0%nat ->
     result r = Returned (mcpToolResult rid "No memories found matching the query."
                            false)) /\
    (n <> 0%nat ->
     match format_memories memories with
     | Returned formatted =>
         result r = Returned (mcpToolResult rid
                                ("Found " +:+ pretty n +:+ " relevant memories:" +:+
                                 newline +:+ newline +:+ formatted) false)
     | Thrown e => e = JsTypeError /\ result r = Thrown JsTypeError
     end).
Proof.
  intros Hq Hsearch Hclock r n. subst r n.
  destruct (searchMemories_emits h st st1 env query
              (Some (num_or limit (of_Z 5))) res Hsearch Hclock)
    as (ms & tr & Hres & Hall).
  pose proof (Forall2_length _ _ _ Hall) as Hlen.
  exists ms. split; [exact Hres|]. split; [now symmetry|].
  rewrite (mcp_search_result h st env rid query limit ms Hq Hres), Hlen. split.
  - intros H0. destruct ms; [reflexivity | discriminate H0].
  - intros Hn. destruct ms as [|m ms]; [contradiction|].
    destruct (format_memories (m :: ms)) as [text|e] eqn:Hf; [reflexivity|].
    now rewrite (format_memories_throws_TypeError _ _ Hf).
Qed.

Lemma mcp_search_reports_the_number_found_witness :
  str_truthy "tabs" = true /\
  (forall inst req,
      world_handler _ (AutoragSearch inst req) world0
      = (Returned (AiSearchResult.mk "vector_store.search_results.page" "tabs"
                     [item_memory; item_plain]),
         mkWorld ∅ (1793603460123 + 1) (shift (ticks world0)) (uuids world0)
                 (fetches world0) (shift (searches world0)) (listing world0))) /\
  clock_answers world_handler /\
  result (run_in world0 (handleMcpRequest MCP_TOOLS format_memories env0
                           (search_memories_request (IdNum (of_Z 1)) (Some "tabs")
                              None)))
  = Returned (mcpToolResult (IdNum (of_Z 1))
                ("Found 2 relevant memories:" +:+ newline +:+ newline +:+
                 "1. Always use tabs [style] (relevance: 82.0%)" +:+ newline +:+
                 "2. plain" +:+ newline +:+ "more (relevance: 50.0%)") false).
Proof.
  assert (clock_answers world_handler) as Hclock
    by (intros st; eexists _, _; reflexivity).
  split; [reflexivity|]. split; [intros; reflexivity|]. split; [exact Hclock|].
  destruct (mcp_search_reports_the_number_found world_handler world0 _ env0
              (IdNum (of_Z 1)) "tabs" None _ eq_refl (fun inst req => eq_refl) Hclock)
    as (memories & Hres & _ & _ & Hfound).
  vm_compute in Hres. injection Hres as <-.
  specialize (Hfound ltac:(discriminate)).
  unfold run_in. exact Hfound.
Defined.

(** The callback on the entry of a Memory. *)
Lemma format_memory_of_memory (i : nat) (m : Memory.t) (score : number) :
  format_memory i (VObj (obj_set (spread (memory_value m)) "score" (VNum score)))
  = Returned (memory_line i (Memory.content m) (Memory.tags m) score).
Proof.
  unfold format_memory, memory_line, memory_value. cbn.
  destruct (Memory.tags m) as [|t ts]; [reflexivity|].
  change (VStr t :: map VStr ts) with (map VStr (t :: ts)).
  cbn [tags_suffix map]. change (VStr t :: map VStr ts) with (map VStr (t :: ts)).
  now rewrite element_strings_of_strings.
Qed.

(** The callback on the synthetic entry of a text that is no JSON. *)
Lemma format_memory_of_synthetic (i : nat) (item : SearchItem.t) (now : Z) :
  format_memory i (synthetic item (textContent item) now)
  = Returned (memory_line i (textContent item) [] (SearchItem.score item)).
Proof. reflexivity. Qed.

Lemma format_from_shown (tr : list event) (items : list SearchItem.t) :
  forall (memories : list value) (shown : list (string * list string)) (i : nat),
    Forall2 (emitted tr) items memories ->
    Forall2 shows items shown ->
    format_from i memories = Returned (lines_from i items shown).
Proof.
  induction items as [|item rest IH]; intros memories shown i Hem Hsh.
  - inversion Hem; subst. reflexivity.
  - inversion Hem as [|? out ? outs Hout Houts]; subst.
    inversion Hsh as [|? [content tags] ? shown' Hshow Hshown]; subst.
    cbn [format_from lines_from].
    rewrite (IH outs shown' (S i) Houts Hshown).
    unfold emitted in Hout.
    destruct Hshow as [(m & Hparse & [= -> ->])|(Hparse & [= -> ->])];
      rewrite Hparse in Hout.
    + subst out. now rewrite format_memory_of_memory.
    + destruct Hout as (now & _ & ->). now rewrite format_memory_of_synthetic.
Qed.

(** X27. What the [search_memories] tool prints when every item of the
    provider's answer holds a Memory (in particular a blob that
    [saveMemory] wrote) or text that is no JSON: the heading with the number
    of items, an empty line, and one line per item in the provider's order,
    [i. content [tag, tag] (relevance: p%)], numbered from 1, the bracket
    left out when there are no tags, [p] the score times 100 with one
    decimal.  For text that is no JSON the content is the text itself. *)
Theorem mcp_search_lists_contents_tags_and_relevance {St : Type} (h : handler St)
    (st st1 : St) (env : Env) (rid : rpc_id) (query : string)
    (limit : option number) (res : AiSearchResult.t)
    (shown : list (string * list string)) :
  str_truthy query = true ->
  (forall inst req, h _ (AutoragSearch inst req) st = (Returned res, st1)) ->
  clock_answers h ->
  AiSearchResult.data res <> [] ->
  Forall2 shows (AiSearchResult.data res) shown ->
  result (interp h (handleMcpRequest MCP_TOOLS format_memories env
                      (search_memories_request rid (Some query) limit)) st)
  = Returned
      (mcpToolResult rid
         ("Found " +:+ pretty (length (AiSearchResult.data res)) +:+
          " relevant memories:" +:+ newline +:+ newline +:+
          join newline (lines_from O (AiSearchResult.data res) shown)) false).
Proof.
  intros Hq Hsearch Hclock Hne Hshown.
  destruct (searchMemories_emits h st st1 env query
              (Some (num_or limit (of_Z 5))) res Hsearch Hclock)
    as (ms & tr & Hres & Hall).
  rewrite (mcp_search_result h st env rid query limit ms Hq Hres).
  unfold format_memories.
  rewrite (format_from_shown tr _ ms shown O Hall Hshown).
  rewrite (Forall2_length _ _ _ Hall).
  destruct ms as [|m ms]; [|reflexivity].
  inversion Hall as [Hnil|]. now symmetry in Hnil.
Qed.

Lemma mcp_search_lists_contents_tags_and_relevance_witness :
  result (run_in world0 (handleMcpRequest MCP_TOOLS format_memories env0
                           (search_memories_request (IdNum (of_Z 1)) (Some "tabs")
                              (Some (of_Z 10)))))
  = Returned (mcpToolResult (IdNum (of_Z 1))
                ("Found 2 relevant memories:" +:+ newline +:+ newline +:+
                 "1. Always use tabs [style] (relevance: 82.0%)" +:+ newline +:+
                 "2. plain" +:+ newline +:+ "more (relevance: 50.0%)") false).
Proof.
  refine (mcp_search_lists_contents_tags_and_relevance world_handler world0 _ env0
            (IdNum (of_Z 1)) "tabs" (Some (of_Z 10))
            (AiSearchResult.mk "vector_store.search_results.page" "tabs"
               [item_memory; item_plain])
            [("Always use tabs", ["style"]); ("plain" +:+ newline +:+ "more", [])]
            eq_refl (fun inst req => eq_refl) _ _ _).
  - intros st. eexists _, _. reflexivity.
  - discriminate.
  - constructor; [|constructor; [|constructor]].
    + left. eexists. split; [exact (JSON_parse_stringify_memory _) | reflexivity].
    + right. split; reflexivity.
Defined.

(** X28. One item whose text is JSON without [tags] (a number, a string, a
    list, an object that lacks the property or has it [null]) breaks the
    [search_memories] tool: [searchMemories] returns an entry per item, the
    renderer throws a [TypeError] on reading [m.tags.length], and the tool
    answers nothing, whatever the other items are.  [GET /memories/search]
    answers the same provider result with status 200 and an entry per
    item. *)
Theorem mcp_search_throws_on_an_entry_without_tags {St : Type} (h : handler St)
    (st st1 : St) (env : Env) (rid : rpc_id) (query : string)
    (limit : option number) (limitParam : option string)
    (res : AiSearchResult.t) (item : SearchItem.t) (parsed : value) :
  str_truthy query = true ->
  (forall inst req, h _ (AutoragSearch inst req) st = (Returned res, st1)) ->
  clock_answers h ->
  In item (AiSearchResult.data res) ->
  JSON_parse (textContent item) = Some parsed ->
  match obj_get (spread parsed) "tags" with
  | None | Some VNull => True
  | Some _ => False
  end ->
  result (interp h (handleMcpRequest MCP_TOOLS format_memories env
                      (search_memories_request rid (Some query) limit)) st)
  = Thrown JsTypeError /\
  (exists memories,
      result (interp h (searchMemories env query (Some (num_or limit (of_Z 5)))) st)
      = Returned memories /\
      length memories = length (AiSearchResult.data res)) /\
  (exists found,
      result (interp h (get_memories_search env (Some query) limitParam) st)
      = Returned (json (VObj [("memories", VArr found)]) 200) /\
      length found = length (AiSearchResult.data res)).
Proof.
  intros Hq Hsearch Hclock Hin Hparse Htags.
  destruct (searchMemories_emits h st st1 env query
              (Some (num_or limit (of_Z 5))) res Hsearch Hclock)
    as (ms & tr & Hres & Hall).
  set (entry := VObj (obj_set (spread parsed) "score"
                        (VNum (SearchItem.score item)))).
  assert (In entry ms) as Hentry.
  { clear - Hall Hin Hparse. subst entry.
    induction Hall as [|it out its outs Hout Houts IH]; [contradiction|].
    destruct Hin as [->|Hin].
    - left. unfold emitted in Hout. now rewrite Hparse in Hout.
    - right. exact (IH Hin). }
  assert (tags_suffix (Raw.member (Some entry) "tags") = Thrown JsTypeError) as Hthrow.
  { subst entry. cbn [Raw.member].
    rewrite obj_get_set_other by reflexivity.
    destruct (obj_get (spread parsed) "tags") as [[]|]; try contradiction; reflexivity. }
  split.
  - rewrite (mcp_search_result h st env rid query limit ms Hq Hres).
    unfold format_memories.
    rewrite (format_from_entry_without_tags ms entry Hentry Hthrow O).
    destruct ms; [contradiction | reflexivity].
  - split.
    + exists ms. split; [exact Hres|]. symmetry. exact (Forall2_length _ _ _ Hall).
    + destruct (searchMemories_emits h st st1 env query
                  (Some (if truthy limitParam
                         then parseInt10 (default EmptyString limitParam)
                         else of_Z 5)) res Hsearch Hclock)
        as (found & tr' & Hres' & Hall').
      exists found. split.
      * unfold get_memories_search. cbn [truthy]. rewrite Hq. cbn [negb].
        change (default EmptyString (Some query)) with query.
        rewrite interp_bind, Hres'. reflexivity.
      * symmetry. exact (Forall2_length _ _ _ Hall').
Qed.

Lemma mcp_search_throws_on_an_entry_without_tags_witness :
  In item_number [item_number; item_image] /\
  result (run_in world_odd (handleMcpRequest MCP_TOOLS format_memories env0
                              (search_memories_request (IdNum (of_Z 1)) (Some "odd")
                                 None)))
  = Thrown JsTypeError.
Proof.
  split; [left; reflexivity|].
  refine (proj1 (mcp_search_throws_on_an_entry_without_tags world_handler world_odd _
                   env0 (IdNum (of_Z 1)) "odd" None None
                   (AiSearchResult.mk "vector_store.search_results.page" "odd"
                      [item_number; item_image])
                   item_number (VNum (of_Z 42))
                   eq_refl (fun inst req => eq_refl) _ _ _ I)).
  - intros st. eexists _, _. reflexivity.
  - left. reflexivity.
  - reflexivity.
Defined.

End Rendering.

(* ===================================================================== *)
(** ** Where the code departs from the claims *)
(* ===================================================================== *)

Section Defects.

Import Effects Worker Spec Examples App Observe.

#[local] Arguments JSON_stringify : simpl never.
#[local] Arguments JSON_parse : simpl never.
#[local] Arguments Date_toISOString : simpl never.
#[local] Arguments memory_value : simpl never.
#[local] Arguments memory_key : simpl never.
#[local] Arguments jobs_url : simpl never.
#[local] Arguments saveMemory : simpl never.
#[local] Arguments Raw.saveMemory : simpl never.
#[local] Arguments searchMemories : simpl never.
#[local] Arguments triggerResync : simpl never.
#[local] Arguments Z.add : simpl never.

(** *** The normalizer on text that is JSON but no Memory *)

(** C2. The normalizer does not degrade text that is valid JSON but no
    serialized Memory.  For the text [42], in any environment: the text
    does not parse as a Memory, yet [JSON.parse] does not throw, so the
    [catch] branch is not taken; the normalizer spreads the number (which
    has no own property) and returns a record holding the score alone.  That
    record has no id, content, tags or source; it is not the synthetic
    record, whatever the clock reads, and no clock is read. *)
Theorem json_scalar_text_is_not_degraded {St : Type} (h : handler St) (st : St)
    (file_id filename : string) (score : number) (attributes : list (string * value)) :
  let item := SearchItem.mk file_id filename score attributes
                [ContentChunk.mk "text" "42"] in
  textContent item = "42" /\
  (forall m, JSON_parse (textContent item) <> Some (memory_value m)) /\
  interp h (normalize [item] []) st
  = mkRun (Returned [VObj [("score", VNum score)]]) st [] /\
  (forall now, VObj [("score", VNum score)] <> synthetic item "42" now).
Proof.
  cbv zeta. split; [reflexivity|].
  assert (JSON_parse "42" = Some (VNum (of_Z 42))) as Hparse by reflexivity.
  change (textContent (SearchItem.mk file_id filename score attributes
                         [ContentChunk.mk "text" "42"])) with "42".
  rewrite Hparse. split; [intros m; discriminate|].
  split.
  - cbn [normalize].
    change (textContent (SearchItem.mk file_id filename score attributes
                           [ContentChunk.mk "text" "42"])) with "42".
    rewrite Hparse. reflexivity.
  - intros now. discriminate.
Qed.

(** *** The limit 0 on the MCP surface *)

(** C7. The limit 0 given to the [search_memories] tool is not capped but
    replaced: [(toolArgs?.limit as number) || 5] takes 0 for no limit, so 5
    results are requested, not [Math.min(0, 50) = 0].  The two sibling paths
    cap it: for the same query, [GET /memories/search] with [limit=0] and
    [searchMemories] with the limit 0 both request 0. *)
Theorem mcp_limit_zero_requests_five {St : Type} (h : handler St) (st : St)
    (env : Env) (tools : value) (format : list value -> outcome string)
    (rid : rpc_id) (c : ascii) (q : string) :
  let query := String c q in
  requested_counts
    (trace (interp h (handleMcpRequest tools format env
                        (search_memories_request rid (Some query) (Some (of_Z 0)))) st))
  = [of_Z 5] /\
  requested_counts
    (trace (interp h (get_memories_search env (Some query) (Some "0")) st))
  = [of_Z 0] /\
  requested_counts (trace (interp h (searchMemories env query (Some (of_Z 0))) st))
  = [of_Z 0] /\
  Math_min (of_Z 0) (of_Z 50) = of_Z 0.
Proof.
  cbv zeta. repeat match goal with |- _ /\ _ => split end.
  - rewrite (mcp_search_memories_searches tools format env rid (String c q)
               (Some (of_Z 0)) eq_refl).
    rewrite (trace_bind_pure h _ _ st).
    + now rewrite searchMemories_requests.
    + intros [|v vs]; [eexists (Returned _); reflexivity|].
      destruct (format (v :: vs)) as [text|e];
        [eexists (Returned _) | eexists (Thrown _)]; reflexivity.
  - unfold get_memories_search. cbn [truthy str_truthy negb default from_option].
    rewrite interp_bind_ret. cbn [trace]. now rewrite searchMemories_requests.
  - now rewrite searchMemories_requests.
  - reflexivity.
Qed.

(** *** The two create surfaces on arguments of any type *)

Lemma Raw_saveMemory_typed {St : Type} (h : handler St) (st : St) (env : Env)
    (content : string) (tags : option (list string)) (source : option Source) :
  interp h (Raw.saveMemory env (VStr content) (Raw.tags_value <$> tags)
              (Raw.source_value <$> source)) st
  = let r := interp h (saveMemory env content tags source) st in
    mkRun match result r with
          | Returned m => Returned (memory_value m)
          | Thrown e => Thrown e
          end (final r) (trace r).
Proof.
  unfold Raw.saveMemory, saveMemory, perform.
  assert (default (VArr []) (Raw.tags_value <$> tags)
          = Raw.tags_value (default [] tags)) as -> by now destruct tags.
  assert (default (VStr "user") (Raw.source_value <$> source)
          = Raw.source_value (default user source)) as -> by now destruct source.
  unfold Raw.tags_value, Raw.source_value, Raw.Array_join.
  rewrite element_strings_of_strings. cbn.
  destruct (h _ RandomUUID st) as [[id|e] s1]; cbn; [|reflexivity].
  destruct (h _ DateNow s1) as [[now|e] s2]; cbn; [|reflexivity].
  destruct (h _ _ s2) as [[[]|e] s3]; cbn; [|reflexivity].
  rewrite !interp_bind.
  destruct (interp h (triggerResync env) s3) as [[res|e] s4 tr]; cbn; reflexivity.
Qed.

(** [POST /memories] on a body of the declared type. *)
Lemma Raw_post_memories_typed {St : Type} (h : handler St) (st : St) (env : Env)
    (content : option string) (tags : option (list string))
    (source : option Source) :
  interp h (Raw.post_memories env
              (Raw.body_of (CreateMemoryRequest.mk (VStr <$> content) tags source))) st
  = interp h (post_memories env
                (CreateMemoryRequest.mk (VStr <$> content) tags source)) st.
Proof.
  pose proof (fun s => Raw_saveMemory_typed h st env s tags source) as Hsave.
  unfold Raw.post_memories, post_memories, Raw.body_of.
  destruct content as [s|], tags as [ts|], source as [src|];
    cbn [fmap option_fmap option_map] in Hsave; cbv zeta in Hsave; cbn;
    try reflexivity;
    (destruct (str_truthy s); cbn; [|reflexivity]);
    rewrite !interp_bind, Hsave; cbn [result final trace];
    match goal with
    | |- context [interp h (saveMemory ?e ?c ?t ?s) st] =>
        destruct (interp h (saveMemory e c t s) st) as [[m|ex] s' tr]
    end; reflexivity.
Qed.

Lemma arguments_of_members (args : ToolArgs.t) :
  Raw.member (Some (Raw.arguments_of args)) "content" = VStr <$> ToolArgs.content args /\
  Raw.member (Some (Raw.arguments_of args)) "tags"
  = Raw.tags_value <$> ToolArgs.tags args /\
  Raw.member (Some (Raw.arguments_of args)) "source"
  = Raw.source_value <$> ToolArgs.source args.
Proof.
  destruct args as [[c|] [t|] [s|] [q|] [l|]]; repeat split; reflexivity.
Qed.

(** The [save_memory] tool on arguments of the declared types. *)
Lemma Raw_save_memory_typed {St : Type} (h : handler St) (st : St)
    (tools : value) (format : list value -> outcome string) (env : Env)
    (rid : rpc_id) (args : ToolArgs.t) :
  interp h (Raw.call_save_memory env rid (Some (Raw.arguments_of args))) st
  = interp h (handleMcpRequest tools format env
                (tool_call rid (Some "save_memory") (Some args))) st.
Proof.
  rewrite mcp_save_memory_call. unfold Raw.call_save_memory.
  destruct (arguments_of_members args) as (-> & -> & ->).
  cbn [mbind option_bind].
  destruct (ToolArgs.content args) as [s|]; cbn [fmap option_fmap option_map];
    [|reflexivity].
  cbn [falsy truthy]. destruct (str_truthy s); cbn [negb]; [|reflexivity].
  assert (Raw.or_else (Raw.tags_value <$> ToolArgs.tags args) (VArr [])
          = Raw.tags_value (default [] (ToolArgs.tags args))) as ->
    by (destruct (ToolArgs.tags args); reflexivity).
  assert (Raw.or_else (Raw.source_value <$> ToolArgs.source args) (VStr "user")
          = Raw.source_value (default user (ToolArgs.source args))) as ->
    by (destruct (ToolArgs.source args) as [[]|]; reflexivity).
  pose proof (Raw_saveMemory_typed h st env s (Some (default [] (ToolArgs.tags args)))
                (Some (default user (ToolArgs.source args)))) as Hsave.
  cbv zeta in Hsave. cbn [fmap option_fmap option_map] in Hsave.
  cbn [default from_option Datatypes.id].
  rewrite !interp_bind, Hsave. cbn [result final trace].
  destruct (interp h (saveMemory env s (Some (default [] (ToolArgs.tags args)))
                        (Some (default user (ToolArgs.source args)))) st)
    as [[m|ex] s' tr]; reflexivity.
Qed.

(** The raw [saveMemory] in the reference world, for tags that can be joined. *)
Lemma Raw_saveMemory_world (w : World) (env : Env) (content : value)
    (tags source : option value) (elems : list value) (parts : list string) :
  default (VArr []) tags = VArr elems ->
  Raw.element_strings elems = Some parts ->
  let createdAt := Date_toISOString (clock (tick (tick w))) in
  let memory := VObj [("id", VStr (uuids w O)); ("content", content);
                      ("tags", VArr elems);
                      ("source", default (VStr "user") source);
                      ("createdAt", VStr createdAt)] in
  let r := run_in w (Raw.saveMemory env content tags source) in
  result r = match resync_outcome (fetches w O) with
             | Returned _ => Returned memory
             | Thrown e => Thrown e
             end /\
  bucket (final r)
  = <[memory_key (uuids w O) :=
        R2Object.mk (memory_key (uuids w O)) (JSON_stringify memory 2)
          (R2PutOptions.mk "application/json"
             [("tags", VStr (join "," parts));
              ("source", default (VStr "user") source);
              ("createdAt", VStr createdAt)])]> (bucket w).
Proof.
  intros Htags Hparts createdAt memory r. subst createdAt memory r.
  unfold run_in, Raw.saveMemory, triggerResync, perform. rewrite Htags.
  unfold Raw.Array_join. rewrite Hparts. cbn.
  destruct (fetches w O) as [resp|e]; cbn; [|repeat split].
  unfold Response_json. destruct (Response.json_body resp) as [reply|]; cbn;
    [|repeat split].
  destruct (ResyncReply.success reply); cbn; repeat split.
Qed.

(** The raw [saveMemory] on tags that have no [join]: a [TypeError] after
    the id and the clock, before any write. *)
Lemma Raw_saveMemory_bad_tags {St : Type} (h : handler St) (st s1 s2 : St)
    (env : Env) (content : value) (tags source : option value)
    (uuid : string) (now : Z) :
  h _ RandomUUID st = (Returned uuid, s1) ->
  h _ DateNow s1 = (Returned now, s2) ->
  match default (VArr []) tags with VArr _ => False | _ => True end ->
  interp h (Raw.saveMemory env content tags source) st
  = mkRun (Thrown JsTypeError) s2
      [Event RandomUUID (Returned uuid); Event DateNow (Returned now)].
Proof.
  intros Hid Hnow Htags. unfold Raw.saveMemory, perform. cbn.
  rewrite Hid. cbn. rewrite Hnow. cbn.
  destruct (default (VArr []) tags); try contradiction; reflexivity.
Qed.

(** C8. The two create surfaces differ on arguments that the casts let
    through.  [POST /memories] checks [typeof content] and relies on default
    parameters; the [save_memory] tool checks only [!content] and defaults
    with [||].  In any world: for the content 42 the route answers 400 and
    stores nothing while the tool stores a record whose content is the
    number 42; for [tags: null] the route throws a [TypeError] before any
    write while the tool stores the record with no tags; for [source: '']
    the route stores the empty source while the tool stores ['user']. *)
Theorem save_memory_tool_skips_the_checks_of_the_route (w : World) (env : Env)
    (rid : rpc_id) :
  let stored_as content tags source :=
    let memory := VObj [("id", VStr (uuids w O)); ("content", content);
                        ("tags", VArr tags); ("source", VStr source);
                        ("createdAt",
                         VStr (Date_toISOString (clock (tick (tick w)))))] in
    R2Object.mk (memory_key (uuids w O)) (JSON_stringify memory 2)
      (R2PutOptions.mk "application/json"
         [("tags", VStr EmptyString); ("source", VStr source);
          ("createdAt", VStr (Date_toISOString (clock (tick (tick w)))))]) in
  let key := memory_key (uuids w O) in
  let number := VObj [("content", VNum (of_Z 42))] in
  let null_tags := VObj [("content", VStr "x"); ("tags", VNull)] in
  let no_source := VObj [("content", VStr "x"); ("source", VStr EmptyString)] in
  (* content 42 *)
  (run_in w (Raw.post_memories env number)
   = mkRun (Returned (json (VObj [("error",
                                   VStr "content is required and must be a string")])
                        400)) w [] /\
   bucket (final (run_in w (Raw.call_save_memory env rid (Some number))))
   = <[key := stored_as (VNum (of_Z 42)) [] "user"]> (bucket w)) /\
  (* tags null *)
  (result (run_in w (Raw.post_memories env null_tags)) = Thrown JsTypeError /\
   bucket (final (run_in w (Raw.post_memories env null_tags))) = bucket w /\
   bucket (final (run_in w (Raw.call_save_memory env rid (Some null_tags))))
   = <[key := stored_as (VStr "x") [] "user"]> (bucket w)) /\
  (* source '' *)
  (bucket (final (run_in w (Raw.post_memories env no_source)))
   = <[key := stored_as (VStr "x") [] EmptyString]> (bucket w) /\
   bucket (final (run_in w (Raw.call_save_memory env rid (Some no_source))))
   = <[key := stored_as (VStr "x") [] "user"]> (bucket w)).
Proof.
  cbv zeta.
  assert (forall content source,
             bucket (final (run_in w (Raw.saveMemory env content (Some (VArr []))
                                        source)))
             = <[memory_key (uuids w O) :=
                   R2Object.mk (memory_key (uuids w O))
                     (JSON_stringify
                        (VObj [("id", VStr (uuids w O)); ("content", content);
                               ("tags", VArr []);
                               ("source", default (VStr "user") source);
                               ("createdAt",
                                VStr (Date_toISOString (clock (tick (tick w)))))]) 2)
                     (R2PutOptions.mk "application/json"
                        [("tags", VStr EmptyString);
                         ("source", default (VStr "user") source);
                         ("createdAt",
                          VStr (Date_toISOString (clock (tick (tick w)))))])]>
                 (bucket w)) as Hsaved.
  { intros content source.
    exact (proj2 (Raw_saveMemory_world w env content (Some (VArr [])) source [] []
                    eq_refl eq_refl)). }
  assert (forall content source,
             bucket (final (run_in w (Raw.saveMemory env content None source)))
             = <[memory_key (uuids w O) :=
                   R2Object.mk (memory_key (uuids w O))
                     (JSON_stringify
                        (VObj [("id", VStr (uuids w O)); ("content", content);
                               ("tags", VArr []);
                               ("source", default (VStr "user") source);
                               ("createdAt",
                                VStr (Date_toISOString (clock (tick (tick w)))))]) 2)
                     (R2PutOptions.mk "application/json"
                        [("tags", VStr EmptyString);
                         ("source", default (VStr "user") source);
                         ("createdAt",
                          VStr (Date_toISOString (clock (tick (tick w)))))])]>
                 (bucket w)) as Hsaved'.
  { intros content source.
    exact (proj2 (Raw_saveMemory_world w env content None source [] []
                    eq_refl eq_refl)). }
  pose proof (Raw_saveMemory_bad_tags world_handler w _ _ env (VStr "x")
                (Some VNull) None _ _ eq_refl eq_refl I) as Hnull.
  unfold run_in in *.
  repeat match goal with |- _ /\ _ => split end.
  - reflexivity.
  - unfold Raw.call_save_memory. cbn -[world_handler]. rewrite interp_bind_ret.
    cbn [final]. apply (Hsaved (VNum (of_Z 42)) (Some (VStr "user"))).
  - unfold Raw.post_memories. cbn -[world_handler]. rewrite interp_bind_ret, Hnull.
    reflexivity.
  - unfold Raw.post_memories. cbn -[world_handler]. rewrite interp_bind_ret, Hnull.
    reflexivity.
  - unfold Raw.call_save_memory. cbn -[world_handler]. rewrite interp_bind_ret.
    cbn [final]. apply (Hsaved (VStr "x") (Some (VStr "user"))).
  - unfold Raw.post_memories. cbn -[world_handler]. rewrite interp_bind_ret.
    cbn [final]. apply (Hsaved' (VStr "x") (Some (VStr EmptyString))).
  - unfold Raw.call_save_memory. cbn -[world_handler]. rewrite interp_bind_ret.
    cbn [final]. apply (Hsaved (VStr "x") (Some (VStr "user"))).
Qed.

End Defects.
